(** * TheCyberCerts catalog tooling: importer, index rebuilder, validator

    A shallow embedding of the three batch scripts of the repository
    ([scripts/import_from_original.py], [scripts/rebuild_index.py],
    [scripts/validate_catalog.py]) and the properties of their rule sets.

    Conventions of the embedding.
    - A Python [str] is a Rocq [string] holding its UTF-8 encoding.  The
      character classes Python takes from Unicode ([str.lower],
      [str.strip], [str.split], [str.title], the regex classes [\d] and
      [\s], the digits and blanks of a numeral [int] reads) are taken on
      the ASCII range; bytes above 127 are neither letters, digits nor
      blanks and are left as they are.  On ASCII text the embedding and the
      scripts agree character for character.
    - Python sets of strings are [gset string]; dictionaries read by key are
      association lists or [gmap]s; lists are lists.
    - A Python exception is a value of [exn]; code that can raise returns a
      [result]. *)

From Stdlib Require Import ZArith NArith String Ascii List Bool Lia.
From Stdlib Require Import DecimalString Decimal DecimalNat.
From Stdlib Require Import Floats.SpecFloat.
From stdpp Require Import base option gmap sets list strings sorting.

Open Scope string_scope.

(** ** Python strings *)

Module PyStr.

Definition code (c : ascii) : N := N_of_ascii c.

Definition in_range (lo hi : N) (c : ascii) : bool :=
  ((lo <=? code c) && (code c <=? hi))%N.

Definition is_digit (c : ascii) : bool := in_range 48 57 c.
Definition is_lower (c : ascii) : bool := in_range 97 122 c.
Definition is_upper (c : ascii) : bool := in_range 65 90 c.

(** [str.isspace] on ASCII: TAB, LF, VT, FF, CR, the separators FS, GS, RS,
    US, and the space. *)
Definition is_space (c : ascii) : bool := in_range 9 13 c || in_range 28 32 c.

Definition lower_char (c : ascii) : ascii :=
  if is_upper c then ascii_of_N (code c + 32) else c.

Definition upper_char (c : ascii) : ascii :=
  if is_lower c then ascii_of_N (code c - 32) else c.

Fixpoint map_chars (f : ascii -> ascii) (s : string) : string :=
  match s with
  | EmptyString => EmptyString
  | String c r => String (f c) (map_chars f r)
  end.

(** [s.lower()] *)
Definition lower (s : string) : string := map_chars lower_char s.

Fixpoint lstrip_by (p : ascii -> bool) (s : string) : string :=
  match s with
  | EmptyString => EmptyString
  | String c r => if p c then lstrip_by p r else s
  end.

Fixpoint rstrip_by (p : ascii -> bool) (s : string) : string :=
  match s with
  | EmptyString => EmptyString
  | String c r =>
      match rstrip_by p r with
      | EmptyString => if p c then EmptyString else String c EmptyString
      | r' => String c r'
      end
  end.

Definition strip_by (p : ascii -> bool) (s : string) : string :=
  rstrip_by p (lstrip_by p s).

(** [s.strip()] *)
Definition strip (s : string) : string := strip_by is_space s.

(** [s.strip(c)] for a one-character argument *)
Definition strip_char (c : ascii) (s : string) : string :=
  strip_by (Ascii.eqb c) s.

(** [needle in hay] *)
Fixpoint contains (needle hay : string) : bool :=
  String.prefix needle hay ||
  match hay with
  | EmptyString => false
  | String _ r => contains needle r
  end.

Fixpoint ends_with (suffix s : string) : bool :=
  String.eqb suffix s ||
  match s with
  | EmptyString => false
  | String _ r => ends_with suffix r
  end.

Fixpoint forall_chars (p : ascii -> bool) (s : string) : bool :=
  match s with
  | EmptyString => true
  | String c r => p c && forall_chars p r
  end.

Fixpoint exists_char (p : ascii -> bool) (s : string) : bool :=
  match s with
  | EmptyString => false
  | String c r => p c || exists_char p r
  end.

(** [re.search(r"\d", s)] *)
Definition has_digit (s : string) : bool := exists_char is_digit s.

(** [s.replace(old, new)] for a non-empty [old]: occurrences are taken from
    the left and do not overlap.  [skip] counts the characters of an
    occurrence that are still to be dropped. *)
Fixpoint replace_from (old new : string) (skip : nat) (s : string) : string :=
  match s with
  | EmptyString => EmptyString
  | String c r =>
      match skip with
      | S k => replace_from old new k r
      | O =>
          if String.prefix old s
          then new ++ replace_from old new (String.length old - 1) r
          else String c (replace_from old new 0 r)
      end
  end.

Definition replace (old new s : string) : string := replace_from old new 0 s.

(** [s.split(sep)] for a one-character separator: empty fields are kept. *)
Fixpoint split_on (sep : ascii) (s : string) : list string :=
  match s with
  | EmptyString => [EmptyString]
  | String c r =>
      if Ascii.eqb c sep then EmptyString :: split_on sep r
      else match split_on sep r with
           | [] => [String c EmptyString]
           | w :: ws => String c w :: ws
           end
  end.

(** [s.split()]: fields are separated by runs of blanks, none is empty. *)
Fixpoint split_blank (s : string) : list string :=
  match s with
  | EmptyString => []
  | String c r =>
      if is_space c then split_blank r
      else match r with
           | EmptyString => [String c EmptyString]
           | String c' _ =>
               if is_space c' then String c EmptyString :: split_blank r
               else match split_blank r with
                    | [] => [String c EmptyString]
                    | w :: ws => String c w :: ws
                    end
           end
  end.

(** [sep.join(parts)] *)
Fixpoint join (sep : string) (parts : list string) : string :=
  match parts with
  | [] => EmptyString
  | [w] => w
  | w :: ws => w ++ sep ++ join sep ws
  end.

(** [s.title()]: a letter that follows a letter is lowered, any other letter
    is raised. *)
Fixpoint title_from (prev_cased : bool) (s : string) : string :=
  match s with
  | EmptyString => EmptyString
  | String c r =>
      if is_upper c || is_lower c
      then String (if prev_cased then lower_char c else upper_char c)
                  (title_from true r)
      else String c (title_from false r)
  end.

Definition title (s : string) : string := title_from false s.

Definition is_empty (s : string) : bool :=
  match s with EmptyString => true | _ => false end.

End PyStr.

Import PyStr.

(** ** String order, sorting *)

(** Python compares strings by code point; so does [String.leb]. *)
Definition str_le (a b : string) : Prop := String.leb a b = true.

#[global] Instance str_le_dec (a b : string) : Decision (str_le a b).
Proof. unfold str_le. apply _. Defined.

(** [sorted(xs)] for a list of strings *)
Definition sorted (xs : list string) : list string := merge_sort str_le xs.

(** Files of a directory in the order of [sorted(dir.glob(...))]: a directory
    is a finite map from file names to contents. *)
Definition by_name {A} (x y : string * A) : Prop := str_le x.1 y.1.

#[global] Instance by_name_dec {A} (x y : string * A) : Decision (by_name x y).
Proof. unfold by_name. apply _. Defined.

Definition sort_files {A} (listing : list (string * A)) : list (string * A) :=
  merge_sort by_name listing.

Definition sorted_files {A} (dir : gmap string A) : list (string * A) :=
  sort_files (map_to_list dir).

(** ** Decimal numerals *)

Definition dec_nat (n : nat) : string := NilEmpty.string_of_uint (Nat.to_uint n).
Definition dec_Z (n : Z) : string := NilEmpty.string_of_int (Z.to_int n).

Definition digit_value (c : ascii) : Z := Z.of_N (code c) - 48.

(** ** File names

    [Path.stem]: the name without its last suffix, as [pathlib] takes it. *)
Fixpoint rfind_dot (name : string) : option nat :=
  match name with
  | EmptyString => None
  | String c r =>
      match rfind_dot r with
      | Some i => Some (S i)
      | None => if Ascii.eqb c "." then Some 0 else None
      end
  end.

Definition stem (name : string) : string :=
  match rfind_dot name with
  | Some i =>
      if ((0 <? i) && (i <? String.length name - 1))%nat
      then String.substring 0 i name else name
  | None => name
  end.

(** ** Python values and exceptions *)

Module Py.

Inductive exn : Type := TypeError | ValueError | OverflowError.

Inductive result (A : Type) : Type :=
| Ok (a : A)
| Raise (e : exn).
Arguments Ok {A} a.
Arguments Raise {A} e.

Definition is_ok {A} (r : result A) : bool :=
  match r with Ok _ => true | Raise _ => false end.

Set Warnings "-register-all".

(** What [yaml.safe_load] builds: [None], booleans, integers, floats,
    strings, dates, sequences and mappings.  A mapping is read here by string
    keys only, so it is kept as the list of its string-keyed items. *)
Inductive value : Type :=
| VNone
| VBool (b : bool)
| VInt (n : Z)
| VFloat (f : spec_float)
| VStr (s : string)
| VDate (year month day : nat)
| VList (xs : list value)
| VDict (items : list (string * value)).

(** [d.get(key, default)] *)
Fixpoint dict_get (items : list (string * value)) (key : string)
  (default : value) : value :=
  match items with
  | [] => default
  | (k, v) :: rest => if String.eqb k key then v else dict_get rest key default
  end.

Definition has_key (items : list (string * value)) (key : string) : bool :=
  existsb (fun kv => String.eqb kv.1 key) items.

Definition hashable (v : value) : bool :=
  match v with
  | VList _ | VDict _ => false
  | _ => true
  end.

(** [v in S] and [v not in S] for a set [S] of strings: hashing a list or a
    mapping raises, and a value that is not a string equals no string. *)
Definition in_strings (v : value) (S : list string) : result bool :=
  match v with
  | VStr s => Ok (bool_decide (s ∈ S))
  | VList _ | VDict _ => Raise TypeError
  | _ => Ok false
  end.

Definition pad_left (width : nat) (s : string) : string :=
  String.concat "" (repeat "0" (width - String.length s)) ++ s.

Section Str.

(** [repr] of the values whose printed form is not spelled out here
    (floats, sequences, mappings). *)
Variable repr : value -> string.

(** [str(v)], also the form an f-string gives to [v] *)
Definition py_str (v : value) : string :=
  match v with
  | VNone => "None"
  | VBool true => "True"
  | VBool false => "False"
  | VInt n => dec_Z n
  | VStr s => s
  | VDate y m d =>
      pad_left 4 (dec_nat y) ++ "-" ++ pad_left 2 (dec_nat m) ++ "-"
      ++ pad_left 2 (dec_nat d)
  | VFloat _ | VList _ | VDict _ => repr v
  end.

End Str.

(** [int(f)] for a float: truncation toward zero; NaN and the infinities
    raise. *)
Definition int_of_float (f : spec_float) : result Z :=
  match f with
  | S754_zero _ => Ok 0%Z
  | S754_infinity _ => Raise OverflowError
  | S754_nan => Raise ValueError
  | S754_finite neg m e =>
      let mag := (if 0 <=? e then Z.pos m * 2 ^ e else Z.pos m / 2 ^ (- e))%Z in
      Ok (if neg then (- mag)%Z else mag)
  end.

(** Digits of an integer literal: single underscores may separate digits. *)
Fixpoint digits_value (acc : Z) (after_digit : bool) (s : string) : option Z :=
  match s with
  | EmptyString => if after_digit then Some acc else None
  | String c r =>
      if is_digit c then digits_value (10 * acc + digit_value c)%Z true r
      else if Ascii.eqb c "_" then
        if after_digit then digits_value acc false r else None
      else None
  end.

(** The blanks [int] skips around a numeral: the space, TAB, LF, VT, FF and
    CR.  The separators FS, GS, RS and US, which [str.strip] takes too, are
    no blanks here: [int] refuses a string that holds one. *)
Definition is_numeral_space (c : ascii) : bool :=
  in_range 9 13 c || Ascii.eqb c " ".

Fixpoint count_chars (p : ascii -> bool) (s : string) : nat :=
  match s with
  | EmptyString => 0
  | String c r => (if p c then 1 else 0) + count_chars p r
  end.

(** [sys.int_info.default_max_str_digits]: [int] refuses a numeral of more
    digits (CPython 3.11). *)
Definition MAX_STR_DIGITS : nat := 4300.

(** [int(s)] for a string: blanks around, an optional sign, decimal digits,
    at most [MAX_STR_DIGITS] of them. *)
Definition int_of_string (s : string) : result Z :=
  let body := strip_by is_numeral_space s in
  let numeral :=
    match body with
    | String "-" r => r
    | String "+" r => r
    | _ => body
    end in
  let negative :=
    match body with
    | String "-" _ => true
    | _ => false
    end in
  match digits_value 0 false numeral with
  | Some n =>
      if (MAX_STR_DIGITS <? count_chars is_digit numeral)%nat
      then Raise ValueError
      else Ok (if negative then (- n)%Z else n)
  | None => Raise ValueError
  end.

(** [int(v)] *)
Definition py_int (v : value) : result Z :=
  match v with
  | VBool b => Ok (if b then 1 else 0)%Z
  | VInt n => Ok n
  | VFloat f => int_of_float f
  | VStr s => int_of_string s
  | VNone | VDate _ _ _ | VList _ | VDict _ => Raise TypeError
  end.

(** [isinstance(v, int)]: [bool] is a subclass of [int]. *)
Definition is_int (v : value) : bool :=
  match v with VInt _ | VBool _ => true | _ => false end.

Definition is_bool (v : value) : bool :=
  match v with VBool _ => true | _ => false end.

(** [int(float(text))] where [text] is the decimal numeral [N / D] with
    [0 <= N] and [D] a power of ten: the numeral is rounded to the nearest
    binary64 value (ties to even) and that value is truncated.  A numeral
    that rounds to infinity raises [OverflowError]. *)
Definition int_of_float_decimal (N D : Z) : result Z :=
  if (N =? 0)%Z then Ok 0%Z else
  let l := (Z.log2 N - Z.log2 D)%Z in
  let scaled (e : Z) : Z * Z :=
    (if 0 <=? e then (N, D * 2 ^ e) else (N * 2 ^ (- e), D))%Z in
  let e1 := (l - 52)%Z in
  let q1 := (let '(a, b) := scaled e1 in a / b)%Z in
  let e := Z.max (if q1 <? 2 ^ 52 then e1 - 1 else e1)%Z (-1074)%Z in
  let '(a, b) := scaled e in
  let q := (a / b)%Z in
  let r := (a mod b)%Z in
  let m :=
    (if 2 * r <? b then q
     else if b <? 2 * r then q + 1
     else if Z.even q then q else q + 1)%Z in
  if (2 ^ 1024 <=? (if 0 <=? e then m * 2 ^ e else 0))%Z
  then Raise OverflowError
  else Ok (if 0 <=? e then m * 2 ^ e else m / 2 ^ (- e))%Z.

End Py.

Import Py.

(** ** The validator ([scripts/validate_catalog.py]) *)

Module Validator.

Definition VALID_LEVELS : list string :=
  ["foundational"; "intermediate"; "advanced"; "expert"].
Definition VALID_STATUS : list string := ["active"; "beta"; "retired"].
Definition VALID_PRICE_CONFIDENCE : list string :=
  ["from-original-tooltip"; "estimated"].
Definition VALID_DOMAINS : list string :=
  [ "Communication and Network Security";
    "IAM";
    "Security Architecture and Engineering";
    "Asset Security";
    "Security and Risk Management";
    "Security Assessment and Testing";
    "Software Security";
    "Security Operations" ].
Definition VALID_SUB_AREAS : list string :=
  [ "Cloud/SysOps"; "*nix"; "ICS/IoT"; "GRC"; "Forensics";
    "Incident Handling"; "Penetration Testing"; "Exploitation" ].
Definition VALID_ROLE_GROUPS : list string :=
  [ "Network"; "Asset"; "Engineer"; "Management"; "Testing"; "Software";
    "Blue Team Ops"; "Red Team Ops"; "IAM" ].
Definition DOMAIN_SUBAREA_MAP : list (string * list string) :=
  [ ("Communication and Network Security", []);
    ("IAM", []);
    ("Security Architecture and Engineering", ["Cloud/SysOps"; "*nix"; "ICS/IoT"]);
    ("Asset Security", []);
    ("Security and Risk Management", ["GRC"]);
    ("Security Assessment and Testing", []);
    ("Software Security", []);
    ("Security Operations",
      ["Forensics"; "Incident Handling"; "Penetration Testing"; "Exploitation"]) ].
Definition UNKNOWN_PRICE_LABEL_HINTS : list string :=
  ["not listed"; "unknown"; "tbd"; "see provider"; "n/a"; "varies"].
Definition REQUIRED_KEYS : list string :=
  [ "id"; "name"; "provider"; "cert_code"; "url"; "domain_area"; "sub_areas";
    "tracks"; "level"; "status"; "ai_focus"; "introduced_year";
    "last_updated"; "delivery"; "renewal"; "language"; "role_groups"; "roles";
    "tags"; "prerequisites"; "description"; "summary"; "price_usd";
    "price_label"; "price_confidence"; "tooltip_legacy" ].

(** [URL_RE.match(url)] with [URL_RE = ^https?://] *)
Definition url_re_match (url : string) : bool :=
  String.prefix "http://" url || String.prefix "https://" url.

(** [ISO_DATE_RE.match(s)] with [ISO_DATE_RE = ^\d{4}-\d{2}-\d{2}$], on a
    stripped string (so no line break ends it); the match gives the three
    numbers. *)
Definition iso_date_re_match (s : string) : option (Z * Z * Z) :=
  match list_ascii_of_string s with
  | [y1; y2; y3; y4; h1; m1; m2; h2; d1; d2] =>
      if forallb is_digit [y1; y2; y3; y4; m1; m2; d1; d2]
         && Ascii.eqb h1 "-" && Ascii.eqb h2 "-"
      then Some (1000 * digit_value y1 + 100 * digit_value y2
                 + 10 * digit_value y3 + digit_value y4,
                 10 * digit_value m1 + digit_value m2,
                 10 * digit_value d1 + digit_value d2)%Z
      else None
  | _ => None
  end.

Definition is_leap (y : Z) : bool :=
  ((y mod 4 =? 0) && (negb (y mod 100 =? 0) || (y mod 400 =? 0)))%Z.

Definition days_in_month (y m : Z) : Z :=
  (if m =? 2 then (if is_leap y then 29 else 28)
   else if (m =? 4) || (m =? 6) || (m =? 9) || (m =? 11) then 30 else 31)%Z.

(** [date.fromisoformat] succeeds on a matched string exactly when it names a
    calendar date. *)
Definition valid_calendar_date (ymd : Z * Z * Z) : bool :=
  let '(y, m, d) := ymd in
  ((1 <=? y) && (y <=? 9999) && (1 <=? m) && (m <=? 12) && (1 <=? d)
   && (d <=? days_in_month y m))%Z.

(** *** Checks: computations that append messages to the error list and may
    raise *)

Definition check (A : Type) : Type := result (A * list string).

#[global] Instance check_ret : MRet check := fun A a => Ok (a, []).

#[global] Instance check_bind : MBind check := fun A B k m =>
  match m with
  | Raise e => Raise e
  | Ok (a, log) =>
      match k a with
      | Raise e => Raise e
      | Ok (b, log') => Ok (b, (log ++ log')%list)
      end
  end.

(** [fail(message, errors)] *)
Definition fail (message : string) : check unit := Ok (tt, [message]).

Definition lift {A} (r : result A) : check A :=
  match r with
  | Ok a => Ok (a, [])
  | Raise e => Raise e
  end.

Definition when (b : bool) (body : check unit) : check unit :=
  if b then body else mret tt.

Fixpoint for_each {A} (xs : list A) (body : A -> check unit) : check unit :=
  match xs with
  | [] => mret tt
  | x :: rest => body x ;; for_each rest body
  end.

Definition nonempty {A} (xs : list A) : bool :=
  match xs with [] => false | _ => true end.

Section Checks.

Variable repr : value -> string.

Abbreviation str := (py_str repr).

(** Lines 125-127 *)
Definition check_keys (name : string) (payload : list (string * value)) :
  check unit :=
  let missing :=
    sorted (List.filter (fun key => negb (has_key payload key)) REQUIRED_KEYS) in
  when (nonempty missing)
    (fail (name ++ ": missing keys " ++ join ", " missing)).

(** Lines 129-136; gives the updated [seen_ids]. *)
Definition check_id (name : string) (payload : list (string * value))
  (seen_ids : gset string) : check (gset string) :=
  let file_id := stem name in
  let cert_id := str (dict_get payload "id" (VStr "")) in
  when (negb (String.eqb cert_id file_id))
    (fail (name ++ ": id '" ++ cert_id ++ "' must match filename '"
           ++ file_id ++ "'")) ;;
  when (bool_decide (cert_id ∈ seen_ids))
    (fail (name ++ ": duplicate id '" ++ cert_id ++ "'")) ;;
  mret ({[cert_id]} ∪ seen_ids).

(** [payload.get(key) not in allowed], then the message (lines 138, 178, 181) *)
Definition check_member (name key : string) (allowed : list string)
  (payload : list (string * value)) : check unit :=
  ok ← lift (in_strings (dict_get payload key VNone) allowed);
  when (negb ok)
    (fail (name ++ ": invalid " ++ key ++ " '"
           ++ str (dict_get payload key VNone) ++ "'")).

(** [DOMAIN_SUBAREA_MAP.get(domain, set())] *)
Definition allowed_for (domain : value) : result (list string) :=
  match domain with
  | VStr d =>
      Ok (match find (fun kv => String.eqb kv.1 d) DOMAIN_SUBAREA_MAP with
          | Some kv => kv.2
          | None => []
          end)
  | VList _ | VDict _ => Raise TypeError
  | _ => Ok []
  end.

(** Lines 141-168 *)
Definition check_sub_areas (name : string) (payload : list (string * value)) :
  check unit :=
  match dict_get payload "sub_areas" VNone with
  | VList sub_areas =>
      for_each sub_areas (fun sub_area =>
        ok ← lift (in_strings sub_area VALID_SUB_AREAS);
        when (negb ok)
          (fail (name ++ ": invalid sub_area '" ++ str sub_area ++ "'"))) ;;
      let domain := dict_get payload "domain_area" VNone in
      allowed_sub_areas ← lift (allowed_for domain);
      if nonempty allowed_sub_areas then
        for_each sub_areas (fun sub_area =>
          ok ← lift (in_strings sub_area allowed_sub_areas);
          when (negb ok)
            (fail (name ++ ": sub_area '" ++ str sub_area
                   ++ "' is incompatible with domain_area '" ++ str domain
                   ++ "'")))
      else
        when (nonempty sub_areas)
          (fail (name ++ ": domain_area '" ++ str domain
                 ++ "' does not define sub-areas, so sub_areas must be empty"))
  | _ => fail (name ++ ": sub_areas must be a list")
  end.

(** Lines 170-176 *)
Definition check_role_groups (name : string)
  (payload : list (string * value)) : check unit :=
  match dict_get payload "role_groups" VNone with
  | VList ((_ :: _) as role_groups) =>
      for_each role_groups (fun role_group =>
        ok ← lift (in_strings role_group VALID_ROLE_GROUPS);
        when (negb ok)
          (fail (name ++ ": invalid role_group '" ++ str role_group ++ "'")))
  | _ => fail (name ++ ": role_groups must be a non-empty list")
  end.

(** Lines 184-193 *)
Definition check_types (name : string) (payload : list (string * value)) :
  check unit :=
  when (negb (is_bool (dict_get payload "ai_focus" VNone)))
    (fail (name ++ ": ai_focus must be boolean")) ;;
  when (negb (is_int (dict_get payload "introduced_year" VNone)))
    (fail (name ++ ": introduced_year must be integer")) ;;
  if negb (is_int (dict_get payload "price_usd" VNone))
  then fail (name ++ ": price_usd must be integer")
  else
    price ← lift (py_int (dict_get payload "price_usd" VNone));
    when (price <? 0)%Z (fail (name ++ ": price_usd must be >= 0")).

(** [str(payload.get(key, "")).strip()] *)
Definition text_of (payload : list (string * value)) (key : string) : string :=
  strip (str (dict_get payload key (VStr ""))).

(** Lines 195-228 *)
Definition check_texts (name : string) (payload : list (string * value)) :
  check unit :=
  when (is_empty (text_of payload "description"))
    (fail (name ++ ": description must not be empty")) ;;
  when (is_empty (text_of payload "price_label"))
    (fail (name ++ ": price_label must not be empty")) ;;
  let price_confidence := str (dict_get payload "price_confidence" (VStr "")) in
  when (negb (bool_decide (price_confidence ∈ VALID_PRICE_CONFIDENCE)))
    (fail (name ++ ": price_confidence '" ++ price_confidence
           ++ "' must be one of "
           ++ join ", " (sorted VALID_PRICE_CONFIDENCE))) ;;
  when (negb (url_re_match (text_of payload "url")))
    (fail (name ++ ": url must start with http:// or https://")) ;;
  match iso_date_re_match (text_of payload "last_updated") with
  | None => fail (name ++ ": last_updated must use YYYY-MM-DD")
  | Some ymd =>
      when (negb (valid_calendar_date ymd))
        (fail (name ++ ": last_updated is not a valid calendar date"))
  end ;;
  when (is_empty (text_of payload "summary"))
    (fail (name ++ ": summary must not be empty")).

(** Lines 230-245 *)
Definition check_tooltip (name : string) (payload : list (string * value)) :
  check unit :=
  let tooltip_legacy := text_of payload "tooltip_legacy" in
  let name_ := text_of payload "name" in
  let cert_code := text_of payload "cert_code" in
  let description_text := text_of payload "description" in
  if is_empty tooltip_legacy
  then fail (name ++ ": tooltip_legacy must not be empty")
  else
    let tooltip_lower := lower tooltip_legacy in
    let name_match :=
      negb (is_empty name_) && contains (lower name_) tooltip_lower in
    let code_match :=
      negb (is_empty cert_code) && contains (lower cert_code) tooltip_lower in
    let description_match :=
      negb (is_empty description_text)
      && contains (lower description_text) tooltip_lower in
    when (negb name_match && negb code_match && negb description_match)
      (fail (name
             ++ ": tooltip_legacy should contain name, cert_code, or description")).

Definition msg_price_zero (name : string) : string :=
  name ++ ": price_usd is 0 but price_label looks numeric; "
  ++ "set a numeric price_usd or use an unknown/free label".
Definition msg_price_no_digit (name : string) : string :=
  name ++ ": price_usd is > 0 but price_label has no numeric hint".
Definition msg_price_free (name : string) : string :=
  name ++ ": price_label says free but price_usd is not 0".

(** Lines 247-268 *)
Definition check_price (name : string) (payload : list (string * value)) :
  check unit :=
  let price_label := text_of payload "price_label" in
  price_usd ← lift (py_int (dict_get payload "price_usd" (VInt 0)));
  let price_label_lower := lower price_label in
  let label_has_number_or_dollar :=
    has_digit price_label || contains "$" price_label in
  when ((price_usd =? 0)%Z && label_has_number_or_dollar)
    (when (negb (existsb (fun marker => contains marker price_label_lower)
                   UNKNOWN_PRICE_LABEL_HINTS)
           && negb (contains "free" price_label_lower))
       (fail (msg_price_zero name))) ;;
  when ((0 <? price_usd)%Z && negb (has_digit price_label))
    (fail (msg_price_no_digit name)) ;;
  when (contains "free" price_label_lower && negb (price_usd =? 0)%Z)
    (fail (msg_price_free name)).

(** The body of the loop over the files, lines 120-268. *)
Definition check_file (name : string) (payload : value)
  (seen_ids : gset string) : check (gset string) :=
  match payload with
  | VDict items =>
      check_keys name items ;;
      seen_ids ← check_id name items seen_ids;
      check_member name "domain_area" VALID_DOMAINS items ;;
      check_sub_areas name items ;;
      check_role_groups name items ;;
      check_member name "level" VALID_LEVELS items ;;
      check_member name "status" VALID_STATUS items ;;
      check_types name items ;;
      check_texts name items ;;
      check_tooltip name items ;;
      check_price name items ;;
      mret seen_ids
  | _ =>
      fail (name ++ ": must contain a YAML object") ;;
      mret seen_ids
  end.

Fixpoint scan (files : list (string * value)) (seen_ids : gset string) :
  check unit :=
  match files with
  | [] => mret tt
  | (name, payload) :: rest =>
      seen_ids ← check_file name payload seen_ids;
      scan rest seen_ids
  end.

(** The error list [main] holds when the loop is over (lines 111-268). *)
Definition collect (dir : gmap string value) : check unit :=
  let files := sorted_files dir in
  when (negb (nonempty files))
    (fail "No YAML files found in data/certifications") ;;
  scan files ∅.

(** What a run of [main] prints and returns. *)
Record outcome : Type := { printed : list string; returned : Z }.

Definition main (dir : gmap string value) : result outcome :=
  match collect dir with
  | Raise e => Raise e
  | Ok (_, errors) =>
      if nonempty errors
      then Ok {| printed := "Catalog validation failed:"
                            :: map (fun message => "- " ++ message) errors;
                 returned := 1 |}
      else Ok {| printed := [ "Catalog validation passed for "
                              ++ dec_nat (length (sorted_files dir))
                              ++ " file(s)." ];
                 returned := 0 |}
  end.

End Checks.

End Validator.

(** ** The importer ([scripts/import_from_original.py]) *)

Module Importer.

Definition DOMAIN_LAYOUT : list string :=
  [ "Communication and Network Security";
    "IAM";
    "Security Architecture and Engineering";
    "Asset Security";
    "Security and Risk Management";
    "Security Assessment and Testing";
    "Software Security";
    "Security Operations" ].

Definition SUBAREA_LAYOUT : list string :=
  [ "Cloud/SysOps"; "*nix"; "ICS/IoT"; "GRC"; "Forensics";
    "Incident Handling"; "Penetration Testing"; "Exploitation" ].

Definition HOST_PROVIDER_MAP : list (string * string) :=
  [ ("offensive-security.com", "OffSec");
    ("giac.org", "GIAC");
    ("isaca.org", "ISACA");
    ("isc2.org", "ISC2");
    ("comptia.org", "CompTIA");
    ("learn.microsoft.com", "Microsoft");
    ("aws.amazon.com", "AWS");
    ("cloud.google.com", "Google Cloud");
    ("cisco.com", "Cisco");
    ("hackthebox.com", "Hack The Box");
    ("academy.hackthebox.com", "Hack The Box");
    ("certifications.tcm-sec.com", "TCM Security");
    ("tcm-sec.com", "TCM Security");
    ("pecb.com", "PECB");
    ("iapp.org", "IAPP");
    ("linuxfoundation.org", "Linux Foundation");
    ("training.linuxfoundation.org", "Linux Foundation");
    ("sans.org", "SANS");
    ("sabsa.org", "SABSA");
    ("pmi.org", "PMI");
    ("axelos.com", "Axelos");
    ("fortinet.com", "Fortinet");
    ("paloaltonetworks.com", "Palo Alto Networks");
    ("ec-council.org", "EC-Council");
    ("elearnsecurity.com", "INE");
    ("ine.com", "INE");
    ("securityblue.team", "Security Blue Team");
    ("cyberdefenders.org", "CyberDefenders");
    ("scrum.org", "Scrum.org");
    ("zachman.com", "Zachman") ].

Definition MAIN_TO_AREA : list (string * string) :=
  [ ("network", "Communication and Network Security");
    ("iam", "IAM");
    ("engineer", "Security Architecture and Engineering");
    ("asset", "Asset Security");
    ("mgmt", "Security and Risk Management");
    ("test", "Security Assessment and Testing");
    ("software", "Software Security");
    ("blueops", "Security Operations");
    ("redops", "Security Operations") ].

Definition SUB_TO_SUBAREA : list (string * string) :=
  [ ("cloud_sec_ops", "Cloud/SysOps");
    ("nix", "*nix");
    ("ics_iot", "ICS/IoT");
    ("grc", "GRC");
    ("forensics", "Forensics");
    ("incident_handling", "Incident Handling");
    ("pen_testing", "Penetration Testing");
    ("exploit", "Exploitation") ].

(** [table.get(key)] on a table kept in source order *)
Definition lookup_table {A} (table : list (string * A)) (key : string) :
  option A :=
  option_map snd (find (fun kv => String.eqb kv.1 key) table).

(** *** Slugs and identifiers *)

(** The class [[a-z0-9]] *)
Definition is_slug_char (c : ascii) : bool := is_lower c || is_digit c.

(** [re.sub(r"[^a-z0-9]+", "-", value)]: [in_run] holds while a run of
    characters outside the class is being replaced. *)
Fixpoint sub_runs (in_run : bool) (s : string) : string :=
  match s with
  | EmptyString => EmptyString
  | String c r =>
      if is_slug_char c then String c (sub_runs false r)
      else if in_run then sub_runs true r
      else String "-" (sub_runs true r)
  end.

Definition slugify (value : string) : string :=
  let value := strip (lower value) in
  let value := sub_runs false value in
  let value := strip_char "-" value in
  if is_empty value then "cert" else value.

(** [f"{base}-{idx}"] *)
Definition candidate (base : string) (idx : nat) : string :=
  base ++ "-" ++ dec_nat idx.

(** The loop [while f"{base}-{idx}" in used: idx += 1].  Every round that
    goes on has met one more member of [used], so the loop is over within
    [size used] rounds; [rounds] counts the rounds that are left. *)
Fixpoint next_free (rounds : nat) (base : string) (used : gset string)
  (idx : nat) : nat :=
  match rounds with
  | O => idx
  | S rounds' =>
      if bool_decide (candidate base idx ∈ used)
      then next_free rounds' base used (S idx)
      else idx
  end.

(** [unique_id(base, used)]: the identifier and the set [used] after the
    call. *)
Definition unique_id (base : string) (used : gset string) :
  string * gset string :=
  if bool_decide (base ∈ used) then
    let idx := next_free (size used) base used 2 in
    let candidate := candidate base idx in
    (candidate, {[candidate]} ∪ used)
  else (base, {[base]} ∪ used).

(** *** Provider inference *)

Definition is_scheme_char (c : ascii) : bool :=
  is_lower c || is_upper c || is_digit c
  || Ascii.eqb c "+" || Ascii.eqb c "-" || Ascii.eqb c ".".

Fixpoint drop_chars (p : ascii -> bool) (s : string) : string :=
  match s with
  | EmptyString => EmptyString
  | String c r => if p c then drop_chars p r else String c (drop_chars p r)
  end.

Fixpoint take_until (p : ascii -> bool) (s : string) : string :=
  match s with
  | EmptyString => EmptyString
  | String c r => if p c then EmptyString else String c (take_until p r)
  end.

(** The text after a leading [scheme:], when there is one *)
Fixpoint after_scheme (s : string) : option string :=
  match s with
  | EmptyString => None
  | String c r =>
      if Ascii.eqb c ":" then Some r
      else if is_scheme_char c then after_scheme r else None
  end.

(** [urlparse(url).netloc] as [urllib.parse] of CPython 3.11 computes it:
    leading control characters and blanks are dropped, TAB, CR and LF are
    removed, a scheme is split off, and the network location is what stands
    between a leading [//] and the next [/], [?] or [#].  [None] is the
    [ValueError] raised for unbalanced square brackets.  The check of the
    address written between balanced brackets is not modelled. *)
Definition urlparse_netloc (url : string) : option string :=
  let url := lstrip_by (fun c => (code c <=? 32)%N) url in
  let url :=
    drop_chars (fun c => Ascii.eqb c "009" || Ascii.eqb c "013"
                         || Ascii.eqb c "010") url in
  let url :=
    match url with
    | String c _ =>
        if is_lower c || is_upper c
        then match after_scheme url with Some rest => rest | None => url end
        else url
    | EmptyString => url
    end in
  match url with
  | String "/" (String "/" rest) =>
      let netloc :=
        take_until (fun c => Ascii.eqb c "/" || Ascii.eqb c "?"
                             || Ascii.eqb c "#") rest in
      if xorb (contains "[" netloc) (contains "]" netloc)
      then None else Some netloc
  | _ => Some EmptyString
  end.

(** Lines 154 ([.lower()]) and 158-169 of [parse_provider]: from the network
    location to the provider. *)
Definition provider_of_netloc (netloc : string) : string :=
  let host := lower netloc in
  let host := replace "www." "" host in
  match find (fun kv => String.eqb host kv.1 || ends_with ("." ++ kv.1) host)
             HOST_PROVIDER_MAP with
  | Some (_, provider) => provider
  | None =>
      let parts := split_on "." host in
      let base :=
        if (2 <=? length parts)%nat
        then nth (length parts - 2) parts EmptyString
        else host in
      if is_empty base then "Unknown" else title (replace "-" " " base)
  end.

Definition parse_provider (url : string) : string :=
  match urlparse_netloc url with
  | None => "Unknown"
  | Some netloc => provider_of_netloc netloc
  end.

(** *** Tooltip parsing *)

Definition LF : string := String "010" EmptyString.

Definition normalize_lines (tooltip : string) : list string :=
  let tooltip := replace "\n" LF tooltip in
  flat_map (fun raw =>
              let line := strip (join " " (split_blank raw)) in
              if is_empty line then [] else [line])
           (split_on "010" tooltip).

(** [re.search(r"(\$|€|£|free|subscription|travel|member|exam)", line,
    flags=re.IGNORECASE)] *)
Definition price_hint (line : string) : bool :=
  existsb (fun token => contains token (lower line))
    ["$"; "€"; "£"; "free"; "subscription"; "travel"; "member"; "exam"].

Fixpoint take_while (p : ascii -> bool) (s : string) : string :=
  match s with
  | EmptyString => EmptyString
  | String c r => if p c then String c (take_while p r) else EmptyString
  end.

(** Group 1 of [[0-9][0-9,]*(?:\.[0-9]+)?] matched at the head of [s] *)
Definition amount_at (s : string) : option string :=
  match s with
  | String c _ =>
      if is_digit c then
        let is_body c := is_digit c || Ascii.eqb c "," in
        let whole := take_while is_body s in
        match lstrip_by is_body s with
        | String "." rest =>
            let fraction := take_while is_digit rest in
            if is_empty fraction then Some whole
            else Some (whole ++ "." ++ fraction)
        | _ => Some whole
        end
      else None
  | EmptyString => None
  end.

(** Group 1 of the first match of [\$\s*([0-9][0-9,]*(?:\.[0-9]+)?)] *)
Fixpoint amount_search (s : string) : option string :=
  match s with
  | EmptyString => None
  | String c r =>
      if Ascii.eqb c "$" then
        match amount_at (lstrip_by is_space r) with
        | Some group => Some group
        | None => amount_search r
        end
      else amount_search r
  end.

Fixpoint digits_to_Z (acc : Z) (s : string) : Z :=
  match s with
  | EmptyString => acc
  | String c r => digits_to_Z (10 * acc + digit_value c)%Z r
  end.

(** [int(float(text))] for a matched amount without its commas *)
Definition int_float (text : string) : result Z :=
  let whole := take_while is_digit text in
  let fraction :=
    match lstrip_by is_digit text with
    | String "." rest => rest
    | _ => EmptyString
    end in
  int_of_float_decimal (digits_to_Z 0 (whole ++ fraction))
                       (10 ^ Z.of_nat (String.length fraction)).

Definition extract_price (lines : list string) : result (string * Z * string) :=
  match lines with
  | [] => Ok ("Price not listed", 0%Z, "estimated")
  | _ :: rest =>
      let price_lines := List.filter price_hint rest in
      let price_lines :=
        match price_lines, rest with
        | [], second :: _ => [second]
        | _, _ => price_lines
        end in
      match price_lines with
      | [] => Ok ("Price not listed", 0%Z, "estimated")
      | _ =>
          let label := join " | " (take 2 price_lines) in
          match amount_search label with
          | Some group =>
              match int_float (replace "," "" group) with
              | Ok amount => Ok (label, amount, "from-original-tooltip")
              | Raise e => Raise e
              end
          | None => Ok (label, 0%Z, "from-original-tooltip")
          end
      end
  end.

Definition skill_to_level (skill : Z) : string :=
  if (skill <=? 6)%Z then "expert"
  else if (skill <=? 12)%Z then "advanced"
  else if (skill <=? 18)%Z then "intermediate"
  else "foundational".

Definition category_to_domain (main_cat : string) (sub_cat : option string) :
  string * list string :=
  let area := default "Security Operations" (lookup_table MAIN_TO_AREA main_cat) in
  let sub_areas :=
    match sub_cat with
    | Some sub =>
        if is_empty sub then []
        else match lookup_table SUB_TO_SUBAREA sub with
             | Some sub_area => [sub_area]
             | None => []
             end
    | None => []
    end in
  (area, sub_areas).

(** *** Records *)

(** A raw record of the source data; [None] is an absent key, [content] is
    read with [record["content"]] and has to be there.  [adjacentCategory]
    only feeds fields that are left out of [cert] below. *)
Record raw_record : Type := {
  content : string;
  tooltiptext : option string;
  href : option string;
  mainCategory : option string;
  subCategory : option string;
  skillLevel : option Z
}.

(** A canonical record.  The fields that [build_cert] derives from the
    category codes alone ([tracks], [roles], [tags], [role_groups]), from the
    tooltip keywords ([delivery], [ai_focus], [prerequisites]) and the
    constant ones are left out: no property below reads them.  [cert_code]
    is [name] and [summary] is [description]. *)
Record cert : Type := {
  id : string;
  name : string;
  provider : string;
  url : string;
  domain_area : string;
  sub_areas : list string;
  level : string;
  description : string;
  price_usd : Z;
  price_label : string;
  price_confidence : string;
  tooltip_legacy : string
}.

Definition with_id (c : cert) (new_id : string) : cert :=
  {| id := new_id; name := name c; provider := provider c; url := url c;
     domain_area := domain_area c; sub_areas := sub_areas c; level := level c;
     description := description c; price_usd := price_usd c;
     price_label := price_label c; price_confidence := price_confidence c;
     tooltip_legacy := tooltip_legacy c |}.

(** [build_cert(record, used_ids)]: the record and [used_ids] after the
    call. *)
Definition build_cert (record : raw_record) (used_ids : gset string) :
  result (cert * gset string) :=
  let tooltip_lines := normalize_lines (default "" (tooltiptext record)) in
  let description :=
    match tooltip_lines with
    | first :: _ => first
    | [] => content record
    end in
  let '(area, sub_areas) :=
    category_to_domain (default "" (mainCategory record)) (subCategory record) in
  match extract_price tooltip_lines with
  | Raise e => Raise e
  | Ok (price_label, price_usd, price_confidence) =>
      let '(cert_id, used_ids) := unique_id (slugify (content record)) used_ids in
      let provider := parse_provider (default "" (href record)) in
      Ok ({| id := cert_id;
             name := strip (content record);
             provider := provider;
             url := strip (default "" (href record));
             domain_area := area;
             sub_areas := sub_areas;
             level := skill_to_level (default 26%Z (skillLevel record));
             description := description;
             price_usd := price_usd;
             price_label := price_label;
             price_confidence := price_confidence;
             tooltip_legacy := join " | " (take 3 tooltip_lines) |},
          used_ids)
  end.

Definition extras : list cert :=
  [ {| id := "comptia-secai-plus";
       name := "CompTIA SecAI+";
       provider := "CompTIA";
       url := "https://www.comptia.org/en/certifications/secai/";
       domain_area := "Security Operations";
       sub_areas := ["Incident Handling"];
       level := "intermediate";
       description := "AI-focused security certification for defending AI systems and handling AI-driven threats.";
       price_usd := 499;
       price_label := "$499 exam (list price, may vary by region)";
       price_confidence := "estimated";
       tooltip_legacy := "CompTIA SecAI+ | $499 exam (list price, may vary by region)" |};
    {| id := "isaca-aaia";
       name := "Advanced in AI Audit (AAIA)";
       provider := "ISACA";
       url := "https://www.isaca.org/credentialing/aaia";
       domain_area := "Security Assessment and Testing";
       sub_areas := ["GRC"];
       level := "advanced";
       description := "Advanced AI audit credential covering governance, controls, and assurance techniques.";
       price_usd := 575;
       price_label := "$575 member / $760 non-member";
       price_confidence := "estimated";
       tooltip_legacy := "Advanced in AI Audit (AAIA) | $575 member / $760 non-member" |};
    {| id := "isaca-aaism";
       name := "Advanced in AI Security Management (AAISM)";
       provider := "ISACA";
       url := "https://www.isaca.org/credentialing/aaism";
       domain_area := "Security and Risk Management";
       sub_areas := ["GRC"];
       level := "advanced";
       description := "AI security management credential for enterprise governance and risk execution.";
       price_usd := 575;
       price_label := "$575 member / $760 non-member";
       price_confidence := "estimated";
       tooltip_legacy := "Advanced in AI Security Management (AAISM) | $575 member / $760 non-member" |};
    {| id := "isaca-aair";
       name := "Advanced in AI Risk (AAIR)";
       provider := "ISACA";
       url := "https://www.isaca.org/credentialing/aair";
       domain_area := "Security and Risk Management";
       sub_areas := ["GRC"];
       level := "advanced";
       description := "AI risk credential focused on lifecycle risk decisions and governance controls.";
       price_usd := 575;
       price_label := "$575 member / $760 non-member (expected)";
       price_confidence := "estimated";
       tooltip_legacy := "Advanced in AI Risk (AAIR) | $575 member / $760 non-member (expected)" |};
    {| id := "iapp-aigp";
       name := "Artificial Intelligence Governance Professional (AIGP)";
       provider := "IAPP";
       url := "https://iapp.org/certify/aigp/";
       domain_area := "Security and Risk Management";
       sub_areas := ["GRC"];
       level := "advanced";
       description := "Governance-focused AI credential for responsible and compliant AI programs.";
       price_usd := 550;
       price_label := "$550 exam + $250 one-time fee";
       price_confidence := "estimated";
       tooltip_legacy := "AIGP | $550 exam + $250 one-time fee" |};
    {| id := "giac-goaa";
       name := "GIAC Offensive AI Analyst (GOAA)";
       provider := "GIAC";
       url := "https://www.giac.org/certifications/offensive-ai-analyst-goaa/";
       domain_area := "Security Operations";
       sub_areas := ["Exploitation"];
       level := "advanced";
       description := "New GIAC credential validating offensive AI tradecraft and adversarial workflows.";
       price_usd := 999;
       price_label := "$999 exam";
       price_confidence := "estimated";
       tooltip_legacy := "GIAC Offensive AI Analyst (GOAA) | $999 exam" |};
    {| id := "pecb-iso-42001-lead-auditor";
       name := "ISO/IEC 42001 Lead Auditor";
       provider := "PECB";
       url := "https://pecb.com/en/education-and-certification-for-individuals/iso-iec-42001";
       domain_area := "Security and Risk Management";
       sub_areas := ["GRC"];
       level := "advanced";
       description := "Audit track for assessing AI management systems against ISO/IEC 42001.";
       price_usd := 0;
       price_label := "Price varies by training partner";
       price_confidence := "estimated";
       tooltip_legacy := "ISO/IEC 42001 Lead Auditor | Price varies by training partner" |} ].

(** The loop of [build_extra_ai_certs] over a list of hand-written
    records *)
Fixpoint rename_all (certs : list cert) (used_ids : gset string) :
  list cert * gset string :=
  match certs with
  | [] => ([], used_ids)
  | c :: rest =>
      let '(cert_id, used_ids) := unique_id (id c) used_ids in
      let '(output, used_ids) := rename_all rest used_ids in
      (with_id c cert_id :: output, used_ids)
  end.

Definition build_extra_ai_certs (used_ids : gset string) :
  list cert * gset string :=
  rename_all extras used_ids.

(** [[build_cert(record, used_ids) for record in source_data]] *)
Fixpoint build_all (source_data : list raw_record) (used_ids : gset string) :
  result (list cert * gset string) :=
  match source_data with
  | [] => Ok ([], used_ids)
  | record :: rest =>
      match build_cert record used_ids with
      | Raise e => Raise e
      | Ok (c, used_ids) =>
          match build_all rest used_ids with
          | Raise e => Raise e
          | Ok (cs, used_ids) => Ok (c :: cs, used_ids)
          end
      end
  end.

(** Lines 613-615 of [main]: the records of a run, in the order they are
    written. *)
Definition certifications (source_data : list raw_record) :
  result (list cert) :=
  match build_all source_data ∅ with
  | Raise e => Raise e
  | Ok (certs, used_ids) => Ok (certs ++ (build_extra_ai_certs used_ids).1)%list
  end.

(** The index document; the constant entries ([catalog], [version],
    [schema], [searchable_fields]) are left out. *)
Record index : Type := {
  last_reviewed : string;
  domains : list string;
  index_sub_areas : list string;
  index_certifications : list string
}.

Definition TODAY : string := "2026-02-27".

Definition filename_of (c : cert) : string := id c ++ ".yaml".

(** The target directory after the run (it is emptied first, then every
    record is written under its file name, a later write replacing an earlier
    one of the same name) and the index. *)
Record output : Type := {
  written : gmap string cert;
  catalog_index : index
}.

(** The loop of lines 618-621 over the records *)
Definition write_all (dir : gmap string cert) (certs : list cert) :
  gmap string cert :=
  foldl (fun dir c => <[filename_of c := c]> dir) dir certs.

Definition main (source_data : list raw_record) : result output :=
  match certifications source_data with
  | Raise e => Raise e
  | Ok certs =>
      Ok {| written := write_all ∅ certs;
            catalog_index :=
              {| last_reviewed := TODAY;
                 domains := DOMAIN_LAYOUT;
                 index_sub_areas := SUBAREA_LAYOUT;
                 index_certifications := sorted (map filename_of certs) |} |}
  end.

End Importer.

(** ** The index rebuilder ([scripts/rebuild_index.py]) *)

Module Rebuilder.

Definition DOMAIN_ORDER : list string :=
  [ "Communication and Network Security";
    "IAM";
    "Security Architecture and Engineering";
    "Asset Security";
    "Security and Risk Management";
    "Security Assessment and Testing";
    "Software Security";
    "Security Operations" ].

Definition SUBAREA_ORDER : list string :=
  [ "Cloud/SysOps"; "*nix"; "ICS/IoT"; "GRC"; "Forensics";
    "Incident Handling"; "Penetration Testing"; "Exploitation" ].

(** What the rebuilder reads of a canonical record: [domain_area], a string,
    and [sub_areas], a list of strings; [None] stands for an absent key (and,
    for [sub_areas], for a null value). *)
Record payload : Type := {
  domain_area : option string;
  sub_areas : option (list string)
}.

(** The loop of lines 45-49 over the files: the two sets after it. *)
Definition collect_areas (files : list (string * payload)) :
  gset string * gset string :=
  foldl (fun '(domains, sub_areas_seen) '(filename, p) =>
           ({[ default "Security Operations" (domain_area p) ]} ∪ domains,
            list_to_set (default [] (sub_areas p)) ∪ sub_areas_seen))
        (∅, ∅) files.

(** [[x for x in order if x in present] + sorted(present - set(order))] *)
Definition ordered (order : list string) (present : gset string) : list string :=
  (List.filter (fun x => bool_decide (x ∈ present)) order
   ++ sorted (elements (present ∖ list_to_set order)))%list.

Record index : Type := {
  last_reviewed : string;
  domains : list string;
  index_sub_areas : list string;
  certifications : list string
}.

(** Lines 40-82 of [main], from the date of the day and the files that
    [glob] yields, in whatever order; the result is the index document
    without its constant entries ([catalog], [version], [schema],
    [searchable_fields]). *)
Definition rebuild (today : string) (listing : list (string * payload)) : index :=
  let files := sort_files listing in
  let '(domains, sub_areas) := collect_areas files in
  {| last_reviewed := today;
     domains := ordered DOMAIN_ORDER domains;
     index_sub_areas := ordered SUBAREA_ORDER sub_areas;
     certifications := files.*1 |}.

(** [main] on a certifications directory *)
Definition main (today : string) (dir : gmap string payload) : index :=
  rebuild today (map_to_list dir).

End Rebuilder.

(** ** Notions the properties are stated with *)

Module SlugSpec.
Import Importer.

(** A valid slug, as the catalog uses the word: not empty, made of lowercase
    letters, digits and hyphens, no two hyphens in a row, no hyphen at either
    end. *)
Definition valid_slug (s : string) : bool :=
  negb (is_empty s)
  && forall_chars (fun c => is_slug_char c || Ascii.eqb "-" c) s
  && negb (contains "--" s)
  && negb (String.prefix "-" s)
  && negb (ends_with "-" s).

(** The same, read from left to right: [after_hyphen] holds at the start and
    after a hyphen, where no hyphen and no end may follow. *)
Fixpoint slug_from (after_hyphen : bool) (s : string) : bool :=
  match s with
  | EmptyString => negb after_hyphen
  | String c r =>
      if is_slug_char c then slug_from false r
      else if Ascii.eqb "-" c then negb after_hyphen && slug_from true r
      else false
  end.

(** The output of [sub_runs]: as [slug_from], but a hyphen may end it. *)
Fixpoint runs_from (after_hyphen : bool) (s : string) : bool :=
  match s with
  | EmptyString => true
  | String c r =>
      if is_slug_char c then runs_from false r
      else if Ascii.eqb "-" c then negb after_hyphen && runs_from true r
      else false
  end.

End SlugSpec.

Module ImportSpec.
Import Importer.

(** The price of a raw record can be read: [extract_price] returns on its
    tooltip (it raises only on an amount too large for a float). *)
Definition priced (r : raw_record) : bool :=
  is_ok (extract_price (normalize_lines (default "" (tooltiptext r)))).

(** What a series of calls of [unique_id] leaves: identifiers that differ
    from each other and from those in use before, none empty, all in use
    afterwards. *)
Definition fresh_ids (ids : list string) (used used' : gset string) : Prop :=
  NoDup ids
  /\ (forall x, x ∈ ids -> (x ∉ used) /\ x <> "")
  /\ used' = list_to_set ids ∪ used.

(** A raw record to try the importer on *)
Definition sample_record : raw_record :=
  {| content := "CompTIA Security+";
     tooltiptext := Some "CompTIA Security+\n$370 exam voucher";
     href := Some "https://www.comptia.org/certifications/security";
     mainCategory := Some "blueops";
     subCategory := None;
     skillLevel := Some 20%Z |}.

End ImportSpec.

Module ValidatorSpec.
Import Validator.

(** The markers of an unknown or free price *)
Definition PRICE_MARKERS : list string :=
  ["not listed"; "unknown"; "tbd"; "see provider"; "n/a"; "varies"; "free"].

(** The label carries one of the markers, in whatever case. *)
Definition has_marker (label : string) : bool :=
  existsb (fun marker => contains marker (lower label)) PRICE_MARKERS.

(** The value is one of the strings of [S]. *)
Definition member (x : value) (S : list string) : bool :=
  match x with
  | VStr s => bool_decide (s ∈ S)
  | _ => false
  end.

(** A record that is in order but for its price, a string that is no
    number. *)
Definition unpriced_record : value :=
  VDict
    [ ("id", VStr "giac-goaa");
      ("name", VStr "GIAC Offensive AI Analyst (GOAA)");
      ("provider", VStr "GIAC");
      ("cert_code", VStr "GOAA");
      ("url", VStr "https://www.giac.org/certifications/offensive-ai-analyst-goaa/");
      ("domain_area", VStr "Security Operations");
      ("sub_areas", VList [VStr "Exploitation"]);
      ("tracks", VList [VStr "ai-security"; VStr "offensive-security"; VStr "exploitation"]);
      ("level", VStr "advanced");
      ("status", VStr "active");
      ("ai_focus", VBool true);
      ("introduced_year", VInt 2026);
      ("last_updated", VStr "2026-02-27");
      ("delivery", VStr "exam");
      ("renewal", VStr "4 years");
      ("language", VStr "en");
      ("role_groups", VList [VStr "Red Team Ops"]);
      ("roles", VList [VStr "offensive-ai-analyst"; VStr "red-team-operator"]);
      ("tags", VList [VStr "offensive-ai"; VStr "giac"; VStr "cyberlive"]);
      ("prerequisites", VList [VStr "Offensive security experience recommended"]);
      ("description", VStr "New GIAC credential validating offensive AI tradecraft and adversarial workflows.");
      ("summary", VStr "New GIAC credential validating offensive AI tradecraft and adversarial workflows.");
      ("price_usd", VStr "ask the provider");
      ("price_label", VStr "Price not listed");
      ("price_confidence", VStr "estimated");
      ("tooltip_legacy", VStr "GIAC Offensive AI Analyst (GOAA) | Price not listed") ].

(** The same record with a list for a price *)
Definition list_priced_record : value :=
  match unpriced_record with
  | VDict items =>
      VDict (map (fun kv => if String.eqb kv.1 "price_usd"
                            then (kv.1, VList [VInt 999]) else kv) items)
  | v => v
  end.

(** The same record with the integer price 0: it is in order. *)
Definition free_record : value :=
  match unpriced_record with
  | VDict items =>
      VDict (map (fun kv => if String.eqb kv.1 "price_usd"
                            then (kv.1, VInt 0) else kv) items)
  | v => v
  end.

(** [record] with the value [v] under [key] *)
Definition with_entry (key : string) (v : value) (record : value) : value :=
  match record with
  | VDict items =>
      VDict (map (fun kv => if String.eqb kv.1 key then (kv.1, v) else kv) items)
  | other => other
  end.

(** The record without a price, its label saying that it is free *)
Definition free_label_record : value :=
  with_entry "price_label" (VStr "Free for members") unpriced_record.

(** The same record with the integer price 575 *)
Definition free_label_priced_record : value :=
  with_entry "price_usd" (VInt 575) free_label_record.

(** The record in order, moved to the domain area [IAM], which defines no
    sub-area, with the sub-area [Forensics]: as a string, and inside a list
    of its own. *)
Definition iam_record : value :=
  with_entry "domain_area" (VStr "IAM")
    (with_entry "sub_areas" (VList [VStr "Forensics"]) free_record).

Definition iam_nested_record : value :=
  with_entry "sub_areas" (VList [VList [VStr "Forensics"]]) iam_record.

(** Two files that hold mappings without [id]: empty ones, and the first
    with a price that is no number. *)
Definition idless_catalog : gmap string value :=
  {[ "a.yaml" := VDict []; "b.yaml" := VDict [] ]}.

Definition idless_unpriced_catalog : gmap string value :=
  {[ "a.yaml" := VDict [("price_usd", VStr "n/a")]; "b.yaml" := VDict [] ]}.

End ValidatorSpec.

Module ProviderSpec.
Import Importer.

(** [host] without a leading [www.] *)
Definition strip_www (host : string) : string :=
  if String.prefix "www." host
  then String.substring 4 (String.length host - 4) host
  else host.

(** Provider inference as the specification words it: the host is lowered,
    a leading [www.] is stripped, the table is searched for a key the host
    equals or ends with after a dot, and without such a key the label before
    the last one (the host itself when it has a single label) is title-cased
    with its hyphens turned into spaces; an empty label gives [Unknown]. *)
Definition provider_of_netloc_spec (netloc : string) : string :=
  let host := strip_www (lower netloc) in
  match find (fun kv => String.eqb host kv.1 || ends_with ("." ++ kv.1) host)
             HOST_PROVIDER_MAP with
  | Some (_, provider) => provider
  | None =>
      let parts := split_on "." host in
      let base :=
        if (2 <=? length parts)%nat
        then nth (length parts - 2) parts EmptyString
        else host in
      if is_empty base then "Unknown" else title (replace "-" " " base)
  end.

Definition parse_provider_spec (url : string) : string :=
  match urlparse_netloc url with
  | None => "Unknown"
  | Some netloc => provider_of_netloc_spec netloc
  end.

End ProviderSpec.

Module RebuilderSpec.
Import Rebuilder.

(** What a file adds to the two sets: its domain area, [Security Operations]
    when the record has none, and its sub-areas. *)
Definition domain_of (kv : string * payload) : string :=
  default "Security Operations" (domain_area kv.2).

Definition sub_areas_of (kv : string * payload) : list string :=
  default [] (sub_areas kv.2).

(** The domain areas and the sub-areas in use in a directory, whatever the
    order of its files. *)
Definition domains_in_use (dir : gmap string payload) : gset string :=
  list_to_set (domain_of <$> map_to_list dir).

Definition sub_areas_in_use (dir : gmap string payload) : gset string :=
  list_to_set (flat_map sub_areas_of (map_to_list dir)).

(** [given] is [order] restricted to [present], then the members of
    [present] outside [order] in ascending order. *)
Definition priority_then_sorted (order : list string) (present : gset string)
  (given : list string) : Prop :=
  exists others,
    given = (List.filter (fun x => bool_decide (x ∈ present)) order ++ others)%list
    /\ StronglySorted str_le others
    /\ NoDup others
    /\ (forall x, x ∈ others <-> x ∈ present /\ x ∉ order).

(** A directory to try the rebuilder on *)
Definition sample_dir : gmap string payload :=
  {[ "giac-goaa.yaml" :=
       {| domain_area := Some "Security Operations";
          sub_areas := Some ["Exploitation"; "Wireless"] |};
     "iapp-aigp.yaml" :=
       {| domain_area := Some "Security and Risk Management";
          sub_areas := Some ["GRC"] |};
     "draft.yaml" :=
       {| domain_area := Some "Privacy"; sub_areas := None |} ]}.

End RebuilderSpec.

Module ProviderScope.

(** [www.] stands nowhere in the host but, at most, at its start. *)
Definition www_only_leading (host : string) : bool :=
  match host with
  | EmptyString => true
  | String _ rest => negb (contains "www." rest)
  end.

End ProviderScope.

(** ** The importer: the derived fields of a record *)

Module Derived.
Import Importer.

Definition ROLE_GROUP_MAP : list (string * string) :=
  [ ("network", "Network");
    ("asset", "Asset");
    ("engineer", "Engineer");
    ("mgmt", "Management");
    ("test", "Testing");
    ("software", "Software");
    ("blueops", "Blue Team Ops");
    ("redops", "Red Team Ops");
    ("iam", "IAM") ].

Definition AREA_TO_ROLE : list (string * list string) :=
  [ ("Communication and Network Security", ["network-security-engineer"]);
    ("IAM", ["iam-engineer"]);
    ("Security Architecture and Engineering", ["security-architect"]);
    ("Asset Security", ["asset-security-specialist"]);
    ("Security and Risk Management", ["grc-analyst"]);
    ("Security Assessment and Testing", ["security-assessor"]);
    ("Software Security", ["appsec-engineer"]);
    ("Security Operations", ["soc-analyst"]) ].

Definition SUBAREA_TO_ROLE : list (string * list string) :=
  [ ("Cloud/SysOps", ["cloud-security-engineer"]);
    ("*nix", ["linux-security-engineer"]);
    ("ICS/IoT", ["ot-security-engineer"]);
    ("GRC", ["compliance-analyst"]);
    ("Forensics", ["forensic-analyst"]);
    ("Incident Handling", ["incident-responder"]);
    ("Penetration Testing", ["penetration-tester"]);
    ("Exploitation", ["exploit-developer"]) ].

(** [track_map] and [sub_track_map] of [infer_tracks] *)
Definition track_map : list (string * string) :=
  [ ("Communication and Network Security", "communication-network-security");
    ("IAM", "iam");
    ("Security Architecture and Engineering", "security-architecture-and-engineering");
    ("Asset Security", "asset-security");
    ("Security and Risk Management", "security-and-risk-management");
    ("Security Assessment and Testing", "security-assessment-and-testing");
    ("Software Security", "software-security");
    ("Security Operations", "security-operations") ].

Definition sub_track_map : list (string * string) :=
  [ ("Cloud/SysOps", "cloud-sysops");
    ("*nix", "nix");
    ("ICS/IoT", "ics-iot");
    ("GRC", "grc");
    ("Forensics", "forensics");
    ("Incident Handling", "incident-handling");
    ("Penetration Testing", "penetration-testing");
    ("Exploitation", "exploitation") ].

(** [sorted(set(xs))] and [sorted(s)] for a set built from a list *)
Definition sorted_set (xs : list string) : list string :=
  sorted (elements (list_to_set xs : gset string)).

Definition infer_delivery (lines : list string) : string :=
  let text := lower (join " " lines) in
  if contains "interview" text then "interview"
  else if contains "lab" text && contains "exam" text then "exam+lab"
  else if contains "lab" text then "lab"
  else if contains "course" text && contains "exam" text then "course+exam"
  else if contains "course" text then "course"
  else "exam".

Definition infer_ai_focus (cert_code title summary : string)
  (tags : list string) : bool :=
  let text :=
    lower (cert_code ++ " " ++ title ++ " " ++ summary ++ " " ++ join " " tags) in
  existsb (fun keyword => contains keyword text)
    [" ai"; "machine learning"; "ml "; "llm"; "model"; "iso42001";
     "iso/iec 42001"; "aigp"].

Definition infer_tracks (area : string) (sub_areas : list string) : list string :=
  let tracks :=
    default (slugify area) (lookup_table track_map area)
    :: map (fun sub => default (slugify sub) (lookup_table sub_track_map sub))
         sub_areas in
  sorted_set tracks.

Definition infer_roles (area : string) (sub_areas : list string) : list string :=
  let roles :=
    (default ["security-professional"] (lookup_table AREA_TO_ROLE area)
     ++ flat_map (fun sub => default [] (lookup_table SUBAREA_TO_ROLE sub))
          sub_areas)%list in
  sorted_set roles.

(** [sub_cat] is [None] for a missing or null [subCategory]. *)
Definition infer_tags (main_cat : string) (sub_cat : option string)
  (adjacent : list string) (area : string) (sub_areas : list string) :
  list string :=
  let tags := [slugify main_cat; slugify area] in
  let tags :=
    match sub_cat with
    | Some sub => if is_empty sub then tags else (tags ++ [slugify sub])%list
    | None => tags
    end in
  let tags := (tags ++ map slugify sub_areas)%list in
  let tags := (tags ++ map slugify adjacent)%list in
  sorted_set tags.

Definition infer_prereqs (lines : list string) : list string :=
  let out :=
    List.filter (fun line =>
                   let l := lower line in
                   contains "require" l || contains "prereq" l
                   || contains "recommended" l)
      (tail lines) in
  match out with
  | [] => ["See provider requirements"]
  | _ => out
  end.

Definition infer_role_groups (main_cat : string) (adjacent : list string) :
  list string :=
  let groups :=
    (match lookup_table ROLE_GROUP_MAP main_cat with
     | Some group => [group]
     | None => []
     end
     ++ flat_map (fun cat => match lookup_table ROLE_GROUP_MAP cat with
                             | Some group => [group]
                             | None => []
                             end) adjacent)%list in
  match groups with
  | [] => ["Management"]
  | _ => sorted_set groups
  end.

End Derived.

(** ** Notions the further properties are stated with *)

Module LineSpec.

(** A word: not empty and without a blank. *)
Definition word (w : string) : Prop :=
  w <> "" /\ forall_chars (fun c => negb (is_space c)) w = true.

(** The only blank of the line is the space. *)
Definition spaced (line : string) : bool :=
  forall_chars (fun c => negb (is_space c) || Ascii.eqb c " ") line.

End LineSpec.

Module PriceSpec.

(** The characters of the integral part of an amount: digits and commas *)
Definition is_body (c : ascii) : bool := is_digit c || Ascii.eqb c ",".

Definition is_comma (c : ascii) : bool := Ascii.eqb c ",".

End PriceSpec.

Module TableSpec.
Import Importer.

(** The host matches the key of the provider table: it is the key or ends
    with a dot and the key. *)
Definition host_matches (host key : string) : bool :=
  String.eqb host key || ends_with ("." ++ key) host.

(** Two keys that one host can match: they are equal, or one ends the other
    after a dot. *)
Definition keys_overlap (k1 k2 : string) : bool :=
  String.eqb k1 k2
  || ends_with ("." ++ k2) k1 || ends_with ("." ++ k1) k2
  || ends_with ("." ++ k1) ("." ++ k2) || ends_with ("." ++ k2) ("." ++ k1).

(** Keys that overlap name one provider. *)
Definition table_coherent (table : list (string * string)) : bool :=
  forallb (fun kv1 =>
             forallb (fun kv2 => negb (keys_overlap kv1.1 kv2.1)
                                 || String.eqb kv1.2 kv2.2) table) table.

End TableSpec.

Module RecordSpec.
Import Importer.

(** What [build_cert] makes of [ImportSpec.sample_record] in an empty
    catalog *)
Definition sample_cert : cert :=
  {| id := "comptia-security";
     name := "CompTIA Security+";
     provider := "CompTIA";
     url := "https://www.comptia.org/certifications/security";
     domain_area := "Security Operations";
     sub_areas := [];
     level := "foundational";
     description := "CompTIA Security+";
     price_usd := 370;
     price_label := "$370 exam voucher";
     price_confidence := "from-original-tooltip";
     tooltip_legacy := "CompTIA Security+ | $370 exam voucher" |}.

End RecordSpec.

Module CatalogSpec.

(** What the rebuilder reads in the file that [write_yaml] writes for a
    record: the entries [domain_area] and [sub_areas] as they were written. *)
Definition read_back (c : Importer.cert) : Rebuilder.payload :=
  {| Rebuilder.domain_area := Some (Importer.domain_area c);
     Rebuilder.sub_areas := Some (Importer.sub_areas c) |}.

(** The areas of a record are among those the importer's index lists. *)
Definition areas_listed (c : Importer.cert) : Prop :=
  Importer.domain_area c ∈ Importer.DOMAIN_LAYOUT
  /\ Importer.sub_areas c ⊆ Importer.SUBAREA_LAYOUT.

End CatalogSpec.

Module AcceptedSpec.
Import Validator ValidatorSpec.

Definition items_of (v : value) : list (string * value) :=
  match v with VDict items => items | _ => [] end.

(** [record] under another identifier *)
Definition renamed (record : value) (new_id : string) : value :=
  VDict (map (fun kv => if String.eqb kv.1 "id" then (kv.1, VStr new_id) else kv)
             (items_of record)).

(** A catalog of two records in order *)
Definition sample_catalog : gmap string value :=
  {[ "giac-goaa.yaml" := free_record;
     "giac-gx.v2.yaml" := renamed free_record "giac-gx.v2" ]}.

Definition sample_outcome : outcome :=
  {| printed := ["Catalog validation passed for 2 file(s)."]; returned := 0 |}.

End AcceptedSpec.

Module ReportSpec.
Import Validator ValidatorSpec.

(** The message starts with the file name and a colon. *)
Definition names_file (name message : string) : bool :=
  String.prefix (name ++ ": ") message.

(** Every message a check leaves satisfies [P]. *)
Definition logs {A} (P : string -> Prop) (m : check A) : Prop :=
  forall a log, m = Ok (a, log) -> Forall P log.

(** The values of a file that the loop body hashes ([in] and [not in] on a
    set, [dict.get] on a dictionary) can be hashed, and [int] takes its
    price.  A file that holds no mapping is not looked into. *)
Definition readable (payload : value) : bool :=
  match payload with
  | VDict items =>
      hashable (dict_get items "domain_area" VNone)
      && match dict_get items "sub_areas" VNone with
         | VList sub_areas => forallb hashable sub_areas
         | _ => true
         end
      && match dict_get items "role_groups" VNone with
         | VList role_groups => forallb hashable role_groups
         | _ => true
         end
      && hashable (dict_get items "level" VNone)
      && hashable (dict_get items "status" VNone)
      && is_ok (py_int (dict_get items "price_usd" (VInt 0)))
  | _ => true
  end.

(** A catalog with a record in order and a file that holds no mapping *)
Definition rejected_catalog : gmap string value :=
  {[ "giac-goaa.yaml" := free_record; "notes.yaml" := VStr "to do" ]}.

Definition rejected_outcome : outcome :=
  {| printed := [ "Catalog validation failed:";
                  "- notes.yaml: must contain a YAML object" ];
     returned := 1 |}.

End ReportSpec.

(** * Properties *)

Import PyStr Py.

(** ** The string order and sorting *)

Section Order.

Lemma ascii_compare_lt_trans (a b c : ascii) :
  Ascii.compare a b = Lt -> Ascii.compare b c = Lt -> Ascii.compare a c = Lt.
Proof.
  unfold Ascii.compare. rewrite !N.compare_lt_iff. lia.
Qed.

Lemma leb_trans (a b c : string) :
  String.leb a b = true -> String.leb b c = true -> String.leb a c = true.
Proof.
  unfold String.leb. revert b c.
  induction a as [|x a IH]; intros [|y b] [|z c]; simpl; try easy.
  destruct (Ascii.compare x y) eqn:Hxy; try easy;
    destruct (Ascii.compare y z) eqn:Hyz; try easy; intros Hab Hbc.
  - apply Ascii.compare_eq_iff in Hxy, Hyz. subst.
    assert (Hzz : Ascii.compare z z = Eq).
    { unfold Ascii.compare. apply N.compare_refl. }
    rewrite Hzz. now apply IH with b.
  - apply Ascii.compare_eq_iff in Hxy. subst. now rewrite Hyz.
  - apply Ascii.compare_eq_iff in Hyz. subst. now rewrite Hxy.
  - now rewrite (ascii_compare_lt_trans x y z).
Qed.

#[global] Instance str_le_trans : Transitive str_le.
Proof. intros a b c. apply leb_trans. Qed.

#[global] Instance str_le_total : Total str_le.
Proof. intros a b. apply String.leb_total. Qed.

#[global] Instance str_le_antisym : AntiSymm eq str_le.
Proof. intros a b. apply String.leb_antisym. Qed.

#[global] Instance by_name_trans {A} : Transitive (@by_name A).
Proof. intros a b c. unfold by_name. apply str_le_trans. Qed.

#[global] Instance by_name_total {A} : Total (@by_name A).
Proof. intros a b. unfold by_name. apply str_le_total. Qed.

Lemma sorted_strongly (xs : list string) : StronglySorted str_le (sorted xs).
Proof. apply StronglySorted_merge_sort; apply _. Qed.

Lemma sorted_perm (xs : list string) : sorted xs ≡ₚ xs.
Proof. apply merge_sort_Permutation. Qed.

Lemma sorted_unique (xs ys : list string) : xs ≡ₚ ys -> sorted xs = sorted ys.
Proof.
  intros Hp. apply (StronglySorted_unique str_le); try apply sorted_strongly.
  now rewrite !sorted_perm.
Qed.

Lemma sort_files_strongly {A} (l : list (string * A)) :
  StronglySorted by_name (sort_files l).
Proof. apply StronglySorted_merge_sort; apply _. Qed.

Lemma sort_files_perm {A} (l : list (string * A)) : sort_files l ≡ₚ l.
Proof. apply merge_sort_Permutation. Qed.

Lemma StronglySorted_fmap {A B} (R : relation B) (f : A -> B) (l : list A) :
  StronglySorted (fun x y => R (f x) (f y)) l -> StronglySorted R (f <$> l).
Proof.
  induction 1 as [|x l Hs IH Hall]; simpl; constructor; [exact IH|].
  rewrite Forall_fmap. exact Hall.
Qed.

(** The names of the sorted files are the sorted names. *)
Lemma sort_files_names {A} (l : list (string * A)) :
  (sort_files l).*1 = sorted (l.*1).
Proof.
  apply (StronglySorted_unique str_le).
  - apply StronglySorted_fmap, sort_files_strongly.
  - apply sorted_strongly.
  - rewrite sorted_perm. now rewrite sort_files_perm.
Qed.

(** Two listings of one directory are sorted into the same list. *)
Lemma sort_files_unique {A} (l1 l2 : list (string * A)) :
  NoDup (l1.*1) -> l1 ≡ₚ l2 -> sort_files l1 = sort_files l2.
Proof.
  intros Hnd Hp.
  apply (StronglySorted_unique_strong by_name); try apply sort_files_strongly.
  - intros x1 x2 H1 H2 H12 H21.
    rewrite sort_files_perm in H1. rewrite sort_files_perm, <- Hp in H2.
    assert (Hfst : x1.1 = x2.1) by (apply (anti_symm str_le); assumption).
    apply list_elem_of_lookup in H1 as [i Hi], H2 as [j Hj].
    assert (i = j).
    { apply (NoDup_lookup (l1.*1) i j (x1.1)); [exact Hnd| |].
      - now rewrite list_lookup_fmap, Hi.
      - now rewrite list_lookup_fmap, Hj, Hfst. }
    subst. congruence.
  - now rewrite !sort_files_perm.
Qed.

Lemma sorted_files_names_NoDup {A} (dir : gmap string A) :
  NoDup ((sorted_files dir).*1).
Proof.
  unfold sorted_files. rewrite sort_files_perm. apply NoDup_fst_map_to_list.
Qed.

Lemma sorted_files_lookup {A} (dir : gmap string A) (name : string) (x : A) :
  (name, x) ∈ sorted_files dir <-> dir !! name = Some x.
Proof.
  unfold sorted_files. rewrite sort_files_perm. apply elem_of_map_to_list.
Qed.

End Order.

(** ** The embedding on small inputs *)

Module Examples.
Import Importer Validator.

Example lower_mixed : lower "CompTIA Security+" = "comptia security+".
Proof. reflexivity. Qed.

Example strip_blanks : strip "  a b  " = "a b".
Proof. reflexivity. Qed.

Example replace_all : replace "www." "" "www.awww.b" = "ab".
Proof. reflexivity. Qed.

Example split_keeps_empty : split_on "." "a..b" = ["a"; ""; "b"].
Proof. reflexivity. Qed.

Example split_blank_runs : split_blank "  a  bc d " = ["a"; "bc"; "d"].
Proof. reflexivity. Qed.

Example title_words : title "hack the bOX" = "Hack The Box".
Proof. reflexivity. Qed.

Example slugify_title : slugify "  CompTIA Security+ " = "comptia-security".
Proof. reflexivity. Qed.

Example slugify_symbols : slugify "--- !!" = "cert".
Proof. reflexivity. Qed.

Example stem_two_dots : stem "a.b.yaml" = "a.b".
Proof. reflexivity. Qed.

Example stem_hidden : stem ".yaml" = ".yaml".
Proof. reflexivity. Qed.

Example int_of_padded : py_int (VStr " 1_000 ") = Ok 1000%Z.
Proof. reflexivity. Qed.

Example int_of_words : py_int (VStr "ask the provider") = Raise ValueError.
Proof. reflexivity. Qed.

Example int_of_line_feed : py_int (VStr (String (ascii_of_N 10) "-42 ")) = Ok (-42)%Z.
Proof. reflexivity. Qed.

Example int_of_signs : py_int (VStr "+-5") = Raise ValueError.
Proof. reflexivity. Qed.

Example int_of_unit_separator :
  strip (String (ascii_of_N 31) "5") = "5"
  /\ py_int (VStr (String (ascii_of_N 31) "5")) = Raise ValueError.
Proof. split; reflexivity. Qed.

Example int_of_inner_blank : py_int (VStr "- 5") = Raise ValueError.
Proof. reflexivity. Qed.

Example int_of_half : py_int (VFloat (S754_finite false 1 (-1))) = Ok 0%Z.
Proof. reflexivity. Qed.

Example float_rounds_up : int_of_float_decimal 99999999999999999999 (10 ^ 20) = Ok 1%Z.
Proof. vm_compute. reflexivity. Qed.

Example float_rounds_even : int_of_float_decimal 9007199254740993 1 = Ok 9007199254740992%Z.
Proof. vm_compute. reflexivity. Qed.

Example float_overflows : int_of_float_decimal (10 ^ 309) 1 = Raise OverflowError.
Proof. vm_compute. reflexivity. Qed.

Example price_with_commas :
  extract_price ["x"; "costs $ 1,234.99 today"; "free for members"; "exam"]
  = Ok ("costs $ 1,234.99 today | free for members", 1234%Z,
        "from-original-tooltip").
Proof. vm_compute. reflexivity. Qed.

Example price_second_line : extract_price ["x"; "y"] = Ok ("y", 0%Z, "from-original-tooltip").
Proof. vm_compute. reflexivity. Qed.

Example price_absent : extract_price ["x"] = Ok ("Price not listed", 0%Z, "estimated").
Proof. vm_compute. reflexivity. Qed.

Example provider_www : parse_provider "https://www.comptia.org/x" = "CompTIA".
Proof. vm_compute. reflexivity. Qed.

Example provider_fallback : parse_provider "https://foo-bar.example.co.uk/x" = "Co".
Proof. vm_compute. reflexivity. Qed.

Example provider_no_host : parse_provider "certificates" = "Unknown".
Proof. vm_compute. reflexivity. Qed.

Example netloc_userinfo : urlparse_netloc "http://u@h:80/p" = Some "u@h:80".
Proof. vm_compute. reflexivity. Qed.

Example netloc_blanks : urlparse_netloc "  http://A.b/c" = Some "A.b".
Proof. vm_compute. reflexivity. Qed.

Example netloc_no_scheme : urlparse_netloc "//x.y?q" = Some "x.y".
Proof. vm_compute. reflexivity. Qed.

Example netloc_bad_scheme : urlparse_netloc "a b://x.y/" = Some "".
Proof. vm_compute. reflexivity. Qed.

Example netloc_bracket : urlparse_netloc "http://[::1/x" = None.
Proof. vm_compute. reflexivity. Qed.

Example calendar_leap : valid_calendar_date (2024, 2, 29)%Z = true.
Proof. reflexivity. Qed.

Example calendar_no_leap : valid_calendar_date (2026, 2, 29)%Z = false.
Proof. reflexivity. Qed.

End Examples.

(** ** Slugs *)

Module SlugFacts.
Import Importer SlugSpec.

#[local] Arguments Ascii.eqb : simpl never.

Local Ltac split_ranges :=
  unfold is_slug_char, is_space, is_upper, is_lower, is_digit, in_range in *;
  repeat match goal with
         | |- context [(?a <=? ?b)%N] => destruct (N.leb_spec a b)
         | H : context [(?a <=? ?b)%N] |- _ => destruct (N.leb_spec a b)
         end; simpl in *; try discriminate; try reflexivity; try lia.

Lemma slug_char_not_upper c : is_slug_char c = true -> is_upper c = false.
Proof. split_ranges. Qed.

Lemma slug_char_not_space c : is_slug_char c = true -> is_space c = false.
Proof. split_ranges. Qed.

Lemma slug_char_not_hyphen c : is_slug_char c = true -> Ascii.eqb "-" c = false.
Proof.
  intros H. destruct (Ascii.eqb_spec "-" c) as [<-|]; [discriminate H | reflexivity].
Qed.

Lemma lower_char_slug c : is_slug_char c = true -> lower_char c = c.
Proof. intros H. unfold lower_char. now rewrite (slug_char_not_upper c H). Qed.

Lemma hyphen_eqb c : Ascii.eqb "-" c = true -> c = "-"%char.
Proof. intros H. symmetry. now apply Ascii.eqb_eq. Qed.

(** Case analysis on the class of the head character. *)
Local Ltac head_class c :=
  let Hs := fresh "Hslug" in
  let Hh := fresh "Hhyph" in
  destruct (is_slug_char c) eqn:Hs;
  [ pose proof (slug_char_not_hyphen c Hs) as Hh
  | destruct (Ascii.eqb "-" c) eqn:Hh;
    [ apply hyphen_eqb in Hh; subst c | ] ].

Lemma slug_from_weaken s : slug_from true s = true -> slug_from false s = true.
Proof.
  destruct s as [|c r]; simpl; [discriminate|].
  head_class c; simpl; try easy.
Qed.

Lemma slug_from_lower s ph : slug_from ph s = true -> lower s = s.
Proof.
  revert ph. induction s as [|c r IH]; intros ph; simpl; [reflexivity|].
  head_class c; simpl.
  - intros H. unfold lower in *. simpl.
    rewrite (lower_char_slug c Hslug). f_equal. now apply IH with false.
  - rewrite andb_true_iff. intros [_ H]. unfold lower in *. simpl.
    f_equal. now apply IH with true.
  - discriminate.
Qed.

Lemma slug_from_lstrip (p : ascii -> bool) s :
  (forall c, is_slug_char c = true -> p c = false) ->
  slug_from true s = true -> lstrip_by p s = s.
Proof.
  intros Hp. destruct s as [|c r]; simpl; [reflexivity|].
  head_class c; simpl; try discriminate.
  intros _. now rewrite (Hp c Hslug).
Qed.

Lemma slug_from_rstrip (p : ascii -> bool) s ph :
  (forall c, is_slug_char c = true -> p c = false) ->
  slug_from ph s = true -> rstrip_by p s = s.
Proof.
  intros Hp. revert ph. induction s as [|c r IH]; intros ph; simpl; [reflexivity|].
  head_class c; simpl.
  - intros H. rewrite (IH false H), (Hp c Hslug). now destruct r.
  - rewrite andb_true_iff. intros [_ H]. rewrite (IH true H).
    destruct r; [discriminate H | reflexivity].
  - discriminate.
Qed.

Lemma slug_from_sub_runs s ph : slug_from ph s = true -> sub_runs ph s = s.
Proof.
  revert ph. induction s as [|c r IH]; intros ph; simpl; [reflexivity|].
  head_class c; simpl.
  - intros H. f_equal. now apply IH.
  - rewrite andb_true_iff, negb_true_iff. intros [-> H]. f_equal. now apply IH.
  - discriminate.
Qed.

Lemma slug_from_nonempty s : slug_from true s = true -> is_empty s = false.
Proof. now destruct s. Qed.

(** [slugify] leaves a string of the slug shape as it is. *)
Lemma slugify_slug_from s : slug_from true s = true -> slugify s = s.
Proof.
  intros H. unfold slugify, strip, strip_char, strip_by.
  rewrite (slug_from_lower s true H).
  rewrite (slug_from_lstrip is_space s slug_char_not_space H).
  rewrite (slug_from_rstrip is_space s true slug_char_not_space H).
  rewrite (slug_from_sub_runs s false (slug_from_weaken s H)).
  rewrite (slug_from_lstrip (Ascii.eqb "-") s slug_char_not_hyphen H).
  rewrite (slug_from_rstrip (Ascii.eqb "-") s true slug_char_not_hyphen H).
  now rewrite (slug_from_nonempty s H).
Qed.

Lemma sub_runs_shape s in_run : runs_from in_run (sub_runs in_run s) = true.
Proof.
  revert in_run. induction s as [|c r IH]; intros in_run; simpl; [reflexivity|].
  destruct (is_slug_char c) eqn:Hslug; simpl.
  - rewrite Hslug. apply IH.
  - destruct in_run; simpl; [apply IH|]. apply IH.
Qed.

Lemma runs_from_lstrip s ph :
  runs_from ph s = true -> runs_from true (lstrip_by (Ascii.eqb "-") s) = true.
Proof.
  revert ph. induction s as [|c r IH]; intros ph; simpl; [reflexivity|].
  head_class c; simpl.
  - intros H. rewrite Hhyph. simpl. now rewrite Hslug.
  - rewrite andb_true_iff. intros [_ H]. now apply IH with true.
  - discriminate.
Qed.

Lemma runs_from_rstrip s ph :
  runs_from ph s = true ->
  rstrip_by (Ascii.eqb "-") s = EmptyString
  \/ slug_from ph (rstrip_by (Ascii.eqb "-") s) = true.
Proof.
  revert ph. induction s as [|c r IH]; intros ph; simpl; [now left|].
  head_class c; simpl.
  - intros H. right. rewrite Hhyph.
    destruct (IH false H) as [-> | Hr].
    + simpl. now rewrite Hslug.
    + destruct (rstrip_by (Ascii.eqb "-") r) eqn:E; simpl; now rewrite Hslug.
  - rewrite andb_true_iff, negb_true_iff. intros [-> H].
    destruct (IH true H) as [-> | Hr]; [now left|]. right.
    destruct (rstrip_by (Ascii.eqb "-") r) eqn:E; [discriminate Hr|].
    simpl in *. exact Hr.
  - discriminate.
Qed.

(** [slugify] always gives a string of the slug shape. *)
Lemma slugify_shape s : slug_from true (slugify s) = true.
Proof.
  unfold slugify, strip_char, strip_by.
  set (t := sub_runs false (strip (lower s))).
  pose proof (sub_runs_shape (strip (lower s)) false) as Ht. fold t in Ht.
  apply runs_from_lstrip in Ht. apply runs_from_rstrip in Ht.
  destruct Ht as [-> | Ht]; [reflexivity|].
  destruct (rstrip_by _ _) eqn:E; [discriminate Ht | exact Ht].
Qed.

(** The two readings of "valid slug" agree. *)
Lemma prefix_empty s : String.prefix "" s = true.
Proof. now destruct s. Qed.

Lemma eqb_single c r :
  String.eqb (String c EmptyString) (String c r) = is_empty r.
Proof. cbn [String.eqb]. rewrite Ascii.eqb_refl. now destruct r. Qed.

Lemma slug_from_spec s ph :
  slug_from ph s =
  forall_chars (fun c => is_slug_char c || Ascii.eqb "-" c) s
  && negb (contains "--" s)
  && negb (ends_with "-" s)
  && (negb ph || (negb (is_empty s) && negb (String.prefix "-" s))).
Proof.
  revert ph. induction s as [|c r IH]; intros ph.
  - simpl. now destruct ph.
  - cbn [slug_from forall_chars contains ends_with is_empty String.prefix].
    head_class c.
    + rewrite (IH false).
      destruct (ascii_dec "-" c) as [E|E];
        [subst c; rewrite Ascii.eqb_refl in Hhyph; discriminate|].
      cbn [String.eqb]. rewrite Hhyph. simpl.
      destruct (forall_chars _ r), (contains "--" r), (ends_with "-" r), ph;
        reflexivity.
    + rewrite (IH true), eqb_single, prefix_empty.
      destruct (ascii_dec "-" "-") as [_|E]; [|congruence].
      destruct (forall_chars _ r), (contains "--" r), (ends_with "-" r),
        (is_empty r), (String.prefix "-" r), ph; reflexivity.
    + reflexivity.
Qed.

Lemma valid_slug_slug_from s : valid_slug s = slug_from true s.
Proof.
  rewrite slug_from_spec. unfold valid_slug. simpl.
  destruct (is_empty s), (forall_chars _ s), (contains "--" s),
    (String.prefix "-" s), (ends_with "-" s); reflexivity.
Qed.

(** C6 -- Slug generation is idempotent: slugifying the result of [slugify]
    gives it back, and a string that already is a valid slug (not empty,
    lowercase letters, digits and single hyphens, no hyphen at either end) is
    returned unchanged. *)
Theorem slugify_idempotent :
  (forall s, slugify (slugify s) = slugify s)
  /\ (forall s, valid_slug s = true -> slugify s = s).
Proof.
  split; intros s.
  - apply slugify_slug_from, slugify_shape.
  - rewrite valid_slug_slug_from. apply slugify_slug_from.
Qed.

Lemma slugify_idempotent_witness :
  valid_slug "comptia-security" = true
  /\ slugify "comptia-security" = "comptia-security".
Proof.
  split; [reflexivity | apply (proj2 slugify_idempotent); reflexivity].
Defined.

Lemma slugify_valid s : valid_slug (slugify s) = true.
Proof. rewrite valid_slug_slug_from. apply slugify_shape. Qed.

End SlugFacts.

(** ** Identifiers *)

Module IdFacts.
Import Importer.

Lemma append_inv_head (s a b : string) : s ++ a = s ++ b -> a = b.
Proof. induction s as [|c s IH]; simpl; [easy|]. intros [= H]. now apply IH. Qed.

Lemma append_length (a b : string) :
  String.length (a ++ b) = String.length a + String.length b.
Proof. induction a as [|c a IH]; simpl; [reflexivity|]. now rewrite IH. Qed.

Lemma append_inv_tail (a b t : string) : a ++ t = b ++ t -> a = b.
Proof.
  revert b. induction a as [|c a IH]; intros [|d b] H; simpl in *.
  - reflexivity.
  - apply (f_equal String.length) in H.
    rewrite !append_length in H. simpl in H. lia.
  - apply (f_equal String.length) in H.
    rewrite !append_length in H. simpl in H. lia.
  - injection H as -> H. f_equal. now apply IH.
Qed.

Lemma dec_nat_inj (i j : nat) : dec_nat i = dec_nat j -> i = j.
Proof.
  unfold dec_nat. intros H. apply Unsigned.to_uint_inj.
  apply (f_equal NilEmpty.uint_of_string) in H.
  rewrite !NilEmpty.usu in H. congruence.
Qed.

Lemma candidate_inj (base : string) (i j : nat) :
  candidate base i = candidate base j -> i = j.
Proof.
  unfold candidate. intros H.
  apply append_inv_head, append_inv_head in H. now apply dec_nat_inj.
Qed.

(** The loop of [unique_id] stops at the least free index: [seen] holds the
    members of [used] the loop can still meet. *)
Lemma next_free_least (base : string) (used : gset string) (rounds : nat) :
  forall (idx : nat) (seen : gset string),
    (forall j, idx <= j -> candidate base j ∈ used -> candidate base j ∈ seen) ->
    size seen <= rounds ->
    let k := next_free rounds base used idx in
    idx <= k
    /\ (candidate base k ∉ used)
    /\ (forall j, idx <= j < k -> candidate base j ∈ used).
Proof.
  induction rounds as [|rounds IH]; intros idx seen Hseen Hsize; simpl.
  - assert (seen = ∅) as ->.
    { apply leibniz_equiv, size_empty_inv. lia. }
    split; [lia|]. split; [|intros j Hj; lia].
    intros Hin. apply (Hseen idx) in Hin; [|lia]. now apply not_elem_of_empty in Hin.
  - case_bool_decide as Hin.
    + pose proof (Hseen idx (le_n _) Hin) as Hin'.
      destruct (IH (S idx) (seen ∖ {[candidate base idx]})) as (Hle & Hfree & Hbelow).
      * intros j Hj Hju. apply elem_of_difference. split; [apply Hseen; [lia|exact Hju]|].
        rewrite elem_of_singleton. intros Heq. apply candidate_inj in Heq. lia.
      * rewrite size_difference by (now apply singleton_subseteq_l).
        rewrite size_singleton.
        assert (size seen <> 0); [|lia].
        intros Hz. apply size_empty_inv in Hz. apply leibniz_equiv in Hz.
        subst seen. now apply not_elem_of_empty in Hin'.
      * split; [lia|]. split; [exact Hfree|].
        intros j Hj. destruct (decide (j = idx)) as [->|Hne]; [exact Hin|].
        apply Hbelow. lia.
    + split; [lia|]. split; [exact Hin|]. intros j Hj. lia.
Qed.

Lemma unique_id_taken (base : string) (used : gset string) :
  base ∈ used ->
  exists k, 2 <= k
    /\ unique_id base used = (candidate base k, {[candidate base k]} ∪ used)
    /\ (candidate base k ∉ used)
    /\ (forall j, 2 <= j < k -> candidate base j ∈ used).
Proof.
  intros Hin. unfold unique_id. rewrite bool_decide_eq_true_2 by exact Hin.
  destruct (next_free_least base used (size used) 2 used) as (Hle & Hfree & Hbelow);
    [tauto | lia |].
  exists (next_free (size used) base used 2). auto.
Qed.

Lemma unique_id_free (base : string) (used : gset string) :
  base ∉ used -> unique_id base used = (base, {[base]} ∪ used).
Proof. intros Hin. unfold unique_id. now rewrite bool_decide_eq_false_2. Qed.

(** What every call gives: an identifier that was not in use and is in use
    afterwards. *)
Lemma unique_id_fresh (base : string) (used : gset string) :
  ((unique_id base used).1 ∉ used)
  /\ (unique_id base used).2 = {[(unique_id base used).1]} ∪ used.
Proof.
  destruct (decide (base ∈ used)) as [Hin|Hin].
  - destruct (unique_id_taken base used Hin) as (k & _ & -> & Hfree & _). auto.
  - rewrite (unique_id_free base used Hin). auto.
Qed.

Lemma append_nonempty (a b : string) : a <> "" -> a ++ b <> "".
Proof. now destruct a. Qed.

Lemma unique_id_nonempty (base : string) (used : gset string) :
  base <> "" -> (unique_id base used).1 <> "".
Proof.
  intros Hne. unfold unique_id. case_bool_decide; simpl; [|exact Hne].
  now apply append_nonempty.
Qed.

End IdFacts.

(** ** Runs of the importer *)

Module ImportFacts.
Import Importer SlugSpec ImportSpec SlugFacts IdFacts.

#[local] Set Warnings "-clear-no-such-hyp".

Lemma slugify_nonempty (s : string) : slugify s <> "".
Proof.
  intros H. pose proof (slugify_shape s) as Hs. rewrite H in Hs. discriminate.
Qed.

Lemma build_cert_ok (r : raw_record) (used : gset string) :
  priced r = true ->
  exists c,
    build_cert r used = Ok (c, (unique_id (slugify (content r)) used).2)
    /\ id c = (unique_id (slugify (content r)) used).1
    /\ name c = strip (content r).
Proof.
  unfold priced, build_cert. intros Hp.
  destruct (category_to_domain _ _) as [area subs].
  destruct (extract_price _) as [[[label usd] conf]|e]; [|discriminate].
  destruct (unique_id _ _) as [cid used']. simpl. eauto.
Qed.

Lemma fresh_ids_cons (x : string) (ids : list string) (used used' : gset string) :
  x ∉ used -> x <> "" -> fresh_ids ids ({[x]} ∪ used) used' ->
  fresh_ids (x :: ids) used used'.
Proof.
  intros Hx Hne (Hnd & Hfresh & ->). split; [|split].
  - constructor; [|exact Hnd]. intros Hin. apply Hfresh in Hin. set_solver.
  - intros y Hy. apply elem_of_cons in Hy as [->|Hy]; [auto|].
    apply Hfresh in Hy. set_solver.
  - set_solver.
Qed.

Lemma build_all_ok (source : list raw_record) :
  Forall (fun r => priced r = true) source ->
  forall used, exists certs used',
    build_all source used = Ok (certs, used')
    /\ fresh_ids (id <$> certs) used used'
    /\ Forall2 (fun r c => name c = strip (content r)) source certs.
Proof.
  induction 1 as [|r source Hr Hrest IH]; intros used; simpl.
  - exists [], used. split; [reflexivity|]. split; [|constructor].
    split; [constructor|]. split; [intros x Hx; inversion Hx | set_solver].
  - destruct (build_cert_ok r used Hr) as (c & -> & Hid & Hname).
    destruct (unique_id_fresh (slugify (content r)) used) as [Hfresh Hused].
    destruct (IH (unique_id (slugify (content r)) used).2)
      as (certs & used' & -> & Hids & Hnames).
    exists (c :: certs), used'. split; [reflexivity|]. split.
    + simpl. rewrite Hid. apply fresh_ids_cons.
      * exact Hfresh.
      * apply unique_id_nonempty, slugify_nonempty.
      * now rewrite <- Hused.
    + now constructor.
Qed.

Lemma rename_all_ok (certs : list cert) :
  Forall (fun c => id c <> "") certs ->
  forall used,
    fresh_ids (id <$> (rename_all certs used).1) used (rename_all certs used).2
    /\ Forall2 (fun c c' => c' = with_id c (id c')) certs (rename_all certs used).1.
Proof.
  induction 1 as [|c certs Hc Hrest IH]; intros used; simpl.
  - split; [|constructor].
    split; [constructor|]. split; [intros x Hx; inversion Hx | set_solver].
  - destruct (unique_id_fresh (id c) used) as [Hfresh Hused].
    pose proof (unique_id_nonempty (id c) used Hc) as Hne.
    destruct (unique_id (id c) used) as [cid used1]. simpl in *.
    destruct (IH used1) as [Hids Hsame].
    destruct (rename_all certs used1) as [out used2]. simpl in *. split.
    + apply fresh_ids_cons; [exact Hfresh | exact Hne |]. now rewrite <- Hused.
    + constructor; [reflexivity | exact Hsame].
Qed.

Lemma extras_named : Forall (fun c => id c <> "") extras.
Proof. unfold extras. repeat constructor; discriminate. Qed.

Lemma fresh_ids_app (ids1 ids2 : list string) (used0 used1 used2 : gset string) :
  fresh_ids ids1 used0 used1 -> fresh_ids ids2 used1 used2 ->
  fresh_ids (ids1 ++ ids2)%list used0 used2.
Proof.
  intros (Hnd1 & Hf1 & ->) (Hnd2 & Hf2 & ->). split; [|split].
  - apply NoDup_app. split; [exact Hnd1|]. split; [|exact Hnd2].
    intros x Hx1 Hx2. apply Hf2 in Hx2. set_solver.
  - intros x Hx. apply elem_of_app in Hx as [Hx|Hx]; [auto|].
    apply Hf2 in Hx. set_solver.
  - rewrite list_to_set_app_L. set_solver.
Qed.

Lemma certifications_ok (source : list raw_record) :
  Forall (fun r => priced r = true) source ->
  exists imported renamed,
    certifications source = Ok (imported ++ renamed)%list
    /\ NoDup (id <$> (imported ++ renamed)%list)
    /\ (forall c, c ∈ (imported ++ renamed)%list -> id c <> "")
    /\ Forall2 (fun r c => name c = strip (content r)) source imported
    /\ Forall2 (fun c c' => c' = with_id c (id c')) extras renamed.
Proof.
  intros Hp. unfold certifications, build_extra_ai_certs.
  destruct (build_all_ok source Hp ∅) as (imported & used & -> & Hids & Hnames).
  destruct (rename_all_ok extras extras_named used) as [Hids' Hsame].
  exists imported, (rename_all extras used).1.
  pose proof (fresh_ids_app _ _ _ _ _ Hids Hids') as (Hnd & Hf & _).
  rewrite fmap_app. split; [reflexivity|]. split; [exact Hnd|].
  split; [|split; assumption].
  intros c Hc. apply (Hf (id c)). rewrite <- fmap_app.
  now apply list_elem_of_fmap_2.
Qed.

(** *** The files written *)

Lemma rfind_dot_yaml (s : string) :
  rfind_dot (s ++ ".yaml") = Some (String.length s).
Proof. induction s as [|c s IH]; simpl; [reflexivity|]. now rewrite IH. Qed.

Lemma substring_append (s t : string) :
  String.substring 0 (String.length s) (s ++ t) = s.
Proof.
  induction s as [|c s IH]; simpl; [now destruct t|]. now rewrite IH.
Qed.

Lemma stem_yaml (s : string) : s <> "" -> stem (s ++ ".yaml") = s.
Proof.
  intros Hne. unfold stem. rewrite rfind_dot_yaml, append_length. simpl.
  destruct s as [|c s]; [congruence|].
  replace ((0 <? String.length (String c s))
           && (String.length (String c s) <? String.length (String c s) + 5 - 1))%nat
    with true.
  - apply substring_append.
  - symmetry. apply andb_true_iff. split; apply Nat.ltb_lt; simpl; lia.
Qed.

#[global] Instance yaml_suffix_inj : Inj (=) (=) (fun s : string => s ++ ".yaml").
Proof. intros a b. apply append_inv_tail. Qed.

Lemma filenames_NoDup (certs : list cert) :
  NoDup (id <$> certs) -> NoDup (filename_of <$> certs).
Proof.
  intros Hnd.
  change (NoDup ((fun s : string => s ++ ".yaml") ∘ id <$> certs)).
  rewrite list_fmap_compose. now apply (NoDup_fmap_2 _).
Qed.

Lemma write_all_other (certs : list cert) :
  forall (dir : gmap string cert) (key : string),
    key ∉ filename_of <$> certs -> write_all dir certs !! key = dir !! key.
Proof.
  induction certs as [|c certs IH]; intros dir key Hkey; simpl; [reflexivity|].
  rewrite fmap_cons, not_elem_of_cons in Hkey. destruct Hkey as [Hne Hkey].
  unfold write_all in *. simpl. rewrite IH by exact Hkey.
  now apply lookup_insert_ne.
Qed.

Lemma write_all_lookup (certs : list cert) :
  forall (dir : gmap string cert) (c : cert),
    NoDup (filename_of <$> certs) -> c ∈ certs ->
    write_all dir certs !! filename_of c = Some c.
Proof.
  induction certs as [|c0 certs IH]; intros dir c Hnd Hc.
  - inversion Hc.
  - rewrite fmap_cons in Hnd. apply NoDup_cons in Hnd as [Hnew Hnd].
    apply elem_of_cons in Hc as [->|Hc].
    + unfold write_all. simpl. fold (write_all (<[filename_of c0:=c0]> dir) certs).
      rewrite write_all_other by exact Hnew. apply lookup_insert_eq.
    + unfold write_all. simpl. fold (write_all (<[filename_of c0:=c0]> dir) certs).
      now apply IH.
Qed.

End ImportFacts.

(** ** The importer: identifiers of a run, collisions, tooltip parsing *)

Module ImportClaims.
Import Importer SlugSpec ImportSpec SlugFacts IdFacts ImportFacts.

#[local] Set Warnings "-clear-no-such-hyp".

(** C3 -- In a run of the importer every raw record and every hand-written
    extra record gets an identifier, the identifiers of the run differ from
    each other (both phases draw on one set of used identifiers), and every
    record is written to the file whose stem is its identifier.  A run
    completes when the price of every raw record can be read. *)
Theorem import_ids_unique (source : list raw_record) :
  Forall (fun r => priced r = true) source ->
  exists imported renamed out,
    certifications source = Ok (imported ++ renamed)%list
    /\ main source = Ok out
    /\ Forall2 (fun r c => name c = strip (content r)) source imported
    /\ Forall2 (fun c c' => c' = with_id c (id c')) extras renamed
    /\ NoDup (id <$> (imported ++ renamed)%list)
    /\ (forall c, c ∈ (imported ++ renamed)%list ->
          written out !! filename_of c = Some c
          /\ stem (filename_of c) = id c).
Proof.
  intros Hp.
  destruct (certifications_ok source Hp)
    as (imported & renamed & Hrun & Hnd & Hne & Hnames & Hsame).
  exists imported, renamed.
  eexists. split; [exact Hrun|]. unfold main. rewrite Hrun.
  split; [reflexivity|]. split; [exact Hnames|]. split; [exact Hsame|].
  split; [exact Hnd|]. intros c Hc. simpl. split.
  - apply write_all_lookup; [|exact Hc]. now apply filenames_NoDup.
  - unfold filename_of. apply stem_yaml. now apply Hne.
Qed.

Lemma import_ids_unique_witness :
  exists imported renamed out,
    certifications [sample_record; sample_record] = Ok (imported ++ renamed)%list
    /\ main [sample_record; sample_record] = Ok out
    /\ Forall2 (fun r c => name c = strip (content r))
               [sample_record; sample_record] imported
    /\ Forall2 (fun c c' => c' = with_id c (id c')) extras renamed
    /\ NoDup (id <$> (imported ++ renamed)%list)
    /\ (forall c, c ∈ (imported ++ renamed)%list ->
          written out !! filename_of c = Some c
          /\ stem (filename_of c) = id c).
Proof.
  apply (import_ids_unique [sample_record; sample_record]).
  repeat constructor.
Defined.

Lemma append_neq (b s : string) : s <> "" -> b ++ s <> b.
Proof.
  intros Hs H. apply (f_equal String.length) in H. rewrite append_length in H.
  destruct s; [congruence | simpl in H; lia].
Qed.

Lemma same_base_twice (base : string) (r1 r2 : raw_record) :
  priced r1 = true -> priced r2 = true ->
  slugify (content r1) = base -> slugify (content r2) = base ->
  exists c1 c2 rest,
    certifications [r1; r2] = Ok (c1 :: c2 :: rest)
    /\ id c1 = base /\ id c2 = base ++ "-2".
Proof.
  intros Hp1 Hp2 Hb1 Hb2. unfold certifications. simpl.
  destruct (build_cert_ok r1 ∅ Hp1) as (c1 & -> & Hid1 & _).
  rewrite Hb1 in *. rewrite (unique_id_free base ∅) in * by apply not_elem_of_empty.
  simpl in *.
  destruct (build_cert_ok r2 ({[base]} ∪ ∅) Hp2) as (c2 & -> & Hid2 & _).
  rewrite Hb2 in *.
  destruct (unique_id_taken base ({[base]} ∪ ∅)) as (k & Hk & Hu & Hfree & Hbelow);
    [set_solver|].
  assert (k = 2) as ->.
  { destruct (decide (k = 2)) as [|Hne]; [assumption|].
    assert (Hin : candidate base 2 ∈ ({[base]} ∪ ∅ : gset string))
      by (apply Hbelow; lia).
    apply elem_of_union in Hin as [Hin|Hin]; [|now apply not_elem_of_empty in Hin].
    apply elem_of_singleton in Hin. now apply append_neq in Hin. }
  rewrite Hu in *. simpl in *.
  exists c1, c2. eexists. split; [reflexivity|]. split; [exact Hid1|exact Hid2].
Qed.

(** C5 -- [unique_id] returns the base when it is not in use, and otherwise
    the base followed by a hyphen and the least [k >= 2] for which that
    string is not in use; the identifier returned is added to the set.  So two
    raw records with one slug, imported into an empty catalog, get the base
    and the base followed by [-2]. *)
Theorem unique_id_first_unused (base : string) (used : gset string) :
  (base ∉ used -> unique_id base used = (base, {[base]} ∪ used))
  /\ (base ∈ used ->
      exists k, 2 <= k
        /\ (unique_id base used).1 = candidate base k
        /\ (candidate base k ∉ used)
        /\ (forall j, 2 <= j < k -> candidate base j ∈ used))
  /\ (unique_id base used).2 = {[(unique_id base used).1]} ∪ used
  /\ (forall r1 r2,
        priced r1 = true -> priced r2 = true ->
        slugify (content r1) = base -> slugify (content r2) = base ->
        exists c1 c2 rest,
          certifications [r1; r2] = Ok (c1 :: c2 :: rest)
          /\ id c1 = base /\ id c2 = base ++ "-2").
Proof.
  split; [apply unique_id_free|]. split.
  - intros Hin. destruct (unique_id_taken base used Hin) as (k & Hk & -> & Hrest).
    exists k. auto.
  - split; [apply unique_id_fresh|]. apply same_base_twice.
Qed.

Lemma unique_id_first_unused_witness :
  (exists k, 2 <= k
     /\ (unique_id "cissp" {["cissp"; "cissp-2"]}).1 = candidate "cissp" k
     /\ (candidate "cissp" k ∉ ({["cissp"; "cissp-2"]} : gset string))
     /\ (forall j, 2 <= j < k ->
           candidate "cissp" j ∈ ({["cissp"; "cissp-2"]} : gset string)))
  /\ (exists c1 c2 rest,
        certifications [sample_record; sample_record] = Ok (c1 :: c2 :: rest)
        /\ id c1 = "comptia-security" /\ id c2 = "comptia-security-2").
Proof.
  split.
  - apply (proj1 (proj2 (unique_id_first_unused "cissp" {["cissp"; "cissp-2"]}))).
    vm_compute. reflexivity.
  - apply (proj2 (proj2 (proj2
             (unique_id_first_unused "comptia-security" ∅))));
      reflexivity.
Defined.

Example unique_id_third :
  (unique_id "cissp" {["cissp"; "cissp-2"]}).1 = "cissp-3".
Proof. vm_compute. reflexivity. Qed.

(** C9 -- The tooltip [CompTIA Security+\n$370 exam voucher], its line break
    written as a backslash and an [n] or as a line feed, is normalized to the
    two lines [CompTIA Security+] and [$370 exam voucher]; the record built
    from it has the first line as its description, a price label that
    contains [$370 exam voucher], the price 370 and the price confidence
    [from-original-tooltip]. *)
Theorem tooltip_example :
  normalize_lines "CompTIA Security+\n$370 exam voucher"
    = ["CompTIA Security+"; "$370 exam voucher"]
  /\ normalize_lines ("CompTIA Security+" ++ LF ++ "$370 exam voucher")
    = ["CompTIA Security+"; "$370 exam voucher"]
  /\ extract_price ["CompTIA Security+"; "$370 exam voucher"]
    = Ok ("$370 exam voucher", 370%Z, "from-original-tooltip")
  /\ (forall r used,
        tooltiptext r = Some "CompTIA Security+\n$370 exam voucher"
        \/ tooltiptext r = Some ("CompTIA Security+" ++ LF ++ "$370 exam voucher") ->
        exists c used',
          build_cert r used = Ok (c, used')
          /\ description c = "CompTIA Security+"
          /\ contains "$370 exam voucher" (price_label c) = true
          /\ price_usd c = 370%Z
          /\ price_confidence c = "from-original-tooltip").
Proof.
  assert (H1 : normalize_lines "CompTIA Security+\n$370 exam voucher"
               = ["CompTIA Security+"; "$370 exam voucher"])
    by (vm_compute; reflexivity).
  assert (H2 : normalize_lines ("CompTIA Security+" ++ LF ++ "$370 exam voucher")
               = ["CompTIA Security+"; "$370 exam voucher"])
    by (vm_compute; reflexivity).
  assert (H3 : extract_price ["CompTIA Security+"; "$370 exam voucher"]
               = Ok ("$370 exam voucher", 370%Z, "from-original-tooltip"))
    by (vm_compute; reflexivity).
  repeat split; try assumption.
  intros r used Hr. unfold build_cert.
  assert (Hl : normalize_lines (default "" (tooltiptext r))
               = ["CompTIA Security+"; "$370 exam voucher"]).
  { destruct Hr as [Hr|Hr]; rewrite Hr; cbn [from_option id];
      [exact H1 | exact H2]. }
  rewrite Hl, H3.
  destruct (category_to_domain _ _) as [area subs].
  destruct (unique_id _ _) as [cid used'].
  eexists. eexists. split; [reflexivity|]. simpl. repeat split; reflexivity.
Qed.

Lemma tooltip_example_witness :
  exists c used',
    build_cert sample_record ∅ = Ok (c, used')
    /\ description c = "CompTIA Security+"
    /\ contains "$370 exam voucher" (price_label c) = true
    /\ price_usd c = 370%Z
    /\ price_confidence c = "from-original-tooltip".
Proof.
  apply (proj2 (proj2 (proj2 tooltip_example)) sample_record ∅).
  left. reflexivity.
Defined.

End ImportClaims.

(** ** The validator *)

Module ValidatorFacts.
Import Validator ValidatorSpec.

#[local] Set Warnings "-clear-no-such-hyp".

Section Facts.

Variable repr : value -> string.

(** *** Checks *)

Lemma bind_ok {A B} (m : check A) (k : A -> check B) (b : B) (log : list string) :
  m ≫= k = Ok (b, log) ->
  exists a log1 log2, m = Ok (a, log1) /\ k a = Ok (b, log2)
                      /\ log = (log1 ++ log2)%list.
Proof.
  unfold mbind, check_bind. destruct m as [[a log1]|e]; [|discriminate].
  destruct (k a) as [[b' log2]|e] eqn:Hk; [|discriminate].
  intros [= <- <-]. eauto 6.
Qed.

Lemma bind_of_ok {A B} (m : check A) (k : A -> check B) a log1 :
  m = Ok (a, log1) ->
  m ≫= k = match k a with
           | Ok (b, log2) => Ok (b, (log1 ++ log2)%list)
           | Raise e => Raise e
           end.
Proof. intros ->. reflexivity. Qed.

Lemma ret_ok {A} (a b : A) (log : list string) :
  (mret a : check A) = Ok (b, log) -> b = a /\ log = [].
Proof. intros [= <- <-]. auto. Qed.

(** A loop that tests every element against a set of strings and records a
    message for those outside it. *)
Lemma for_each_members (xs : list value) (S : list string) (msg : value -> string) :
  Forall (fun x => hashable x = true) xs ->
  for_each xs (fun x => ok ← lift (in_strings x S); when (negb ok) (fail (msg x)))
  = Ok (tt, msg <$> List.filter (fun x => negb (member x S)) xs).
Proof.
  induction 1 as [|x xs Hx Hxs IH]; [reflexivity|].
  cbn [for_each List.filter]. rewrite IH.
  destruct x; try discriminate Hx; simpl; try reflexivity.
  unfold mbind, check_bind, lift, when. simpl.
  now destruct (bool_decide _).
Qed.

Lemma allowed_for_hashable (domain : value) :
  hashable domain = true -> exists allowed, allowed_for domain = Ok allowed.
Proof. destruct domain; try discriminate; simpl; eauto. Qed.

Lemma allowed_for_valid (domain : value) (allowed : list string) :
  allowed_for domain = Ok allowed -> allowed ⊆ VALID_SUB_AREAS.
Proof.
  assert (Hall : Forall (fun kv : string * list string => kv.2 ⊆ VALID_SUB_AREAS)
                        DOMAIN_SUBAREA_MAP).
  { apply (bool_decide_unpack _). vm_compute. reflexivity. }
  destruct domain as [| | | |d| | |]; cbn [allowed_for];
    try (intros [= <-]; intros x Hx; now apply elem_of_nil in Hx).
  destruct (find (fun kv : string * list string => String.eqb kv.1 d)
              DOMAIN_SUBAREA_MAP) as [kv|] eqn:Hf; intros [= <-].
  - apply find_some in Hf as [Hin _].
    rewrite Forall_forall in Hall. apply Hall. now apply list_elem_of_In.
  - intros x Hx. now apply elem_of_nil in Hx.
Qed.

Lemma member_subseteq (x : value) (S T : list string) :
  S ⊆ T -> member x S = true -> member x T = true.
Proof.
  intros Hsub. destruct x; simpl; try discriminate.
  rewrite !bool_decide_eq_true. apply Hsub.
Qed.

Lemma filter_none {A} (p : A -> bool) (xs : list A) :
  Forall (fun x => p x = false) xs -> List.filter p xs = [].
Proof. induction 1 as [|x xs Hx _ IH]; simpl; [reflexivity|]. now rewrite Hx. Qed.

Lemma sub_areas_log (name : string) (payload : list (string * value))
  (xs : list value) (allowed : list string) :
  dict_get payload "sub_areas" VNone = VList xs ->
  Forall (fun x => hashable x = true) xs ->
  allowed_for (dict_get payload "domain_area" VNone) = Ok allowed ->
  check_sub_areas repr name payload =
  Ok (tt,
      List.app
        ((fun x => name ++ ": invalid sub_area '" ++ py_str repr x ++ "'")
           <$> List.filter (fun x => negb (member x VALID_SUB_AREAS)) xs)
        (if nonempty allowed then
           (fun x => name ++ ": sub_area '" ++ py_str repr x
                     ++ "' is incompatible with domain_area '"
                     ++ py_str repr (dict_get payload "domain_area" VNone) ++ "'")
             <$> List.filter (fun x => negb (member x allowed)) xs
         else if nonempty xs then
           [name ++ ": domain_area '"
            ++ py_str repr (dict_get payload "domain_area" VNone)
            ++ "' does not define sub-areas, so sub_areas must be empty"]
         else [])).
Proof.
  intros Hsub Hhash Hallowed. unfold check_sub_areas. rewrite Hsub.
  erewrite bind_of_ok by (apply for_each_members; exact Hhash).
  rewrite Hallowed. cbn [lift]. unfold mbind at 1, check_bind at 1.
  destruct (nonempty allowed).
  - rewrite for_each_members by exact Hhash. now rewrite app_nil_l.
  - destruct (nonempty xs); reflexivity.
Qed.

(** *** Price coherence *)

Lemma has_marker_split (label : string) :
  has_marker label =
  existsb (fun marker => contains marker (lower label)) UNKNOWN_PRICE_LABEL_HINTS
  || contains "free" (lower label).
Proof.
  unfold has_marker, PRICE_MARKERS, UNKNOWN_PRICE_LABEL_HINTS.
  cbn [existsb]. rewrite !orb_false_r, !orb_assoc. reflexivity.
Qed.

Lemma price_log (name : string) (payload : list (string * value)) (price : Z) :
  py_int (dict_get payload "price_usd" (VInt 0)) = Ok price ->
  let label := text_of repr payload "price_label" in
  check_price repr name payload =
  Ok (tt,
      (if (price =? 0)%Z && (has_digit label || contains "$" label)
          && negb (has_marker label)
       then [msg_price_zero name] else [])
      ++ (if (0 <? price)%Z && negb (has_digit label)
          then [msg_price_no_digit name] else [])
      ++ (if contains "free" (lower label) && negb (price =? 0)%Z
          then [msg_price_free name] else []))%list.
Proof.
  intros Hprice label. unfold check_price. fold label. rewrite Hprice.
  rewrite has_marker_split.
  generalize (existsb (fun marker => contains marker (lower label))
                UNKNOWN_PRICE_LABEL_HINTS) as hinted.
  generalize (contains "free" (lower label)) as free.
  generalize (has_digit label) as digit.
  generalize (contains "$" label) as dollar.
  intros dollar digit free hinted.
  unfold lift. unfold mbind at 1, check_bind at 1. cbv beta iota.
  destruct (price =? 0)%Z, (0 <? price)%Z, dollar, digit, free, hinted;
    reflexivity.
Qed.

(** *** The loop over the files *)

Lemma when_ok (b : bool) (body : check unit) u log :
  when b body = Ok (u, log) -> b = false /\ log = [] \/ b = true /\ body = Ok (u, log).
Proof. destruct b; simpl; [auto|]. intros [= <- <-]. auto. Qed.

Local Ltac invert_binds :=
  repeat match goal with
         | H : _ ≫= _ = Ok _ |- _ =>
             let a := fresh "a" in
             let l1 := fresh "log" in
             let l2 := fresh "log" in
             let H1 := fresh "Hrun" in
             let H2 := fresh "Hrest" in
             let H3 := fresh "Hlog" in
             apply bind_ok in H as (a & l1 & l2 & H1 & H2 & H3)
         | H : mret _ = Ok _ |- _ => apply ret_ok in H as [? ?]
         end.

(** What the loop body gives for a mapping: the three checks the properties
    below are about have run, and their messages are in the list. *)
Lemma check_file_dict (name : string) (items : list (string * value))
  (seen seen' : gset string) (log : list string) :
  check_file repr name (VDict items) seen = Ok (seen', log) ->
  exists log_id log_sub log_price,
    check_id repr name items seen = Ok (seen', log_id)
    /\ check_sub_areas repr name items = Ok (tt, log_sub)
    /\ check_price repr name items = Ok (tt, log_price)
    /\ log_id ⊆ log /\ log_sub ⊆ log /\ log_price ⊆ log.
Proof.
  unfold check_file. intros H. invert_binds. subst.
  repeat match goal with u : unit |- _ => destruct u end.
  do 3 eexists. repeat split; try eassumption; set_solver.
Qed.

Lemma check_id_run (name : string) (items : list (string * value))
  (seen : gset string) :
  let cert_id := py_str repr (dict_get items "id" (VStr "")) in
  exists log,
    check_id repr name items seen = Ok ({[cert_id]} ∪ seen, log)
    /\ (cert_id ∈ seen -> (name ++ ": duplicate id '" ++ cert_id ++ "'") ∈ log).
Proof.
  intros cert_id. unfold check_id. fold cert_id.
  destruct (negb (String.eqb cert_id (stem name)));
    destruct (bool_decide (cert_id ∈ seen)) eqn:Hdup;
    (eexists; split; [reflexivity|]);
    try (intros _; set_solver);
    apply bool_decide_eq_false in Hdup; intros Hin; contradiction.
Qed.

Lemma missing_id (items : list (string * value)) :
  has_key items "id" = false -> dict_get items "id" (VStr "") = VStr "".
Proof.
  induction items as [|[k v] items IH]; simpl; [reflexivity|].
  destruct (String.eqb k "id"); simpl; [discriminate | exact IH].
Qed.

Lemma check_file_seen (name : string) (payload : value)
  (seen seen' : gset string) (log : list string) :
  check_file repr name payload seen = Ok (seen', log) ->
  seen ⊆ seen'
  /\ (forall items, payload = VDict items ->
        py_str repr (dict_get items "id" (VStr "")) ∈ seen').
Proof.
  intros H. destruct payload as [| | | | | | |items];
    try (unfold check_file in H; invert_binds; subst;
         split; [set_solver | discriminate]).
  apply check_file_dict in H as (l1 & l2 & l3 & Hid & _).
  destruct (check_id_run name items seen) as (l & Hid' & _).
  rewrite Hid' in Hid. injection Hid as <- <-.
  split; [set_solver|]. intros items' [= <-]. set_solver.
Qed.

Lemma scan_at (before after : list (string * value)) (name : string)
  (payload : value) :
  forall (seen : gset string) (errors : list string),
    scan repr (before ++ (name, payload) :: after)%list seen = Ok (tt, errors) ->
    exists seen0 seen1 log,
      check_file repr name payload seen0 = Ok (seen1, log)
      /\ log ⊆ errors
      /\ seen ⊆ seen0
      /\ (forall n items, (n, VDict items) ∈ before ->
            py_str repr (dict_get items "id" (VStr "")) ∈ seen0).
Proof.
  induction before as [|[n p] before IH]; intros seen errors H; simpl in H.
  - invert_binds. subst. exists seen, a, log. split; [assumption|].
    split; [set_solver|]. split; [set_solver|].
    intros n items Hin. now apply elem_of_nil in Hin.
  - invert_binds. subst.
    destruct (IH _ _ Hrest) as (seen0 & seen1 & l & Hrun' & Hsub & Hmono & Hids).
    apply check_file_seen in Hrun as [Hgrow Hid].
    exists seen0, seen1, l. split; [assumption|]. split; [set_solver|].
    split; [set_solver|].
    intros n' items Hin. apply elem_of_cons in Hin as [Heq|Hin].
    + injection Heq as -> <-. apply Hmono. now apply Hid.
    + now apply Hids with n'.
Qed.

Lemma collect_at (dir : gmap string value) (name : string) (payload : value)
  (errors : list string) :
  dir !! name = Some payload ->
  collect repr dir = Ok (tt, errors) ->
  exists seen0 seen1 log,
    check_file repr name payload seen0 = Ok (seen1, log)
    /\ log ⊆ errors
    /\ (forall n items, dir !! n = Some (VDict items) -> n <> name ->
          str_le n name -> py_str repr (dict_get items "id" (VStr "")) ∈ seen0).
Proof.
  intros Hname Hrun. unfold collect in Hrun.
  pose proof (sort_files_strongly (map_to_list dir)) as Hsorted.
  fold (sorted_files dir) in Hsorted.
  apply sorted_files_lookup in Hname.
  apply list_elem_of_split in Hname as (before & after & Hsplit).
  rewrite Hsplit in Hrun, Hsorted. invert_binds. subst.
  apply scan_at in Hrest as (seen0 & seen1 & l & Hfile & Hsub & _ & Hids).
  exists seen0, seen1, l. split; [assumption|]. split; [set_solver|].
  intros n items Hn Hne Hle. apply Hids with n.
  apply sorted_files_lookup in Hn. rewrite Hsplit in Hn.
  apply elem_of_app in Hn as [Hn|Hn]; [exact Hn|].
  apply elem_of_cons in Hn as [[= -> _]|Hn]; [contradiction|].
  apply StronglySorted_app_1_r in Hsorted.
  apply StronglySorted_inv in Hsorted as [_ Hall].
  rewrite Forall_forall in Hall. apply Hall in Hn. unfold by_name in Hn.
  simpl in Hn. exfalso. apply Hne. now apply (anti_symm str_le).
Qed.

Lemma main_outcome (dir : gmap string value) (errors : list string) :
  collect repr dir = Ok (tt, errors) ->
  main repr dir =
  Ok (if nonempty errors
      then {| printed := "Catalog validation failed:"
                         :: map (fun message => "- " ++ message) errors;
              returned := 1 |}
      else {| printed := [ "Catalog validation passed for "
                           ++ dec_nat (length (sorted_files dir))
                           ++ " file(s)." ];
              returned := 0 |}).
Proof. intros H. unfold main. rewrite H. now destruct (nonempty errors). Qed.

Lemma main_raises (dir : gmap string value) (e : exn) :
  collect repr dir = Raise e -> main repr dir = Raise e.
Proof. intros H. unfold main. now rewrite H. Qed.

(** In a run that gets to its end, the messages of the three checks on a
    file are among the errors, and a non-empty error list makes [main]
    return 1. *)
Lemma reported (dir : gmap string value) (name : string)
  (items : list (string * value)) (errors : list string) :
  dir !! name = Some (VDict items) ->
  collect repr dir = Ok (tt, errors) ->
  exists seen seen' log_id log_sub log_price,
    check_id repr name items seen = Ok (seen', log_id)
    /\ check_sub_areas repr name items = Ok (tt, log_sub)
    /\ check_price repr name items = Ok (tt, log_price)
    /\ log_id ⊆ errors /\ log_sub ⊆ errors /\ log_price ⊆ errors.
Proof.
  intros Hname Hrun.
  destruct (collect_at dir name (VDict items) errors Hname Hrun)
    as (seen0 & seen1 & log & Hfile & Hsub & _).
  apply check_file_dict in Hfile
    as (l1 & l2 & l3 & Hid & Hsa & Hpr & H1 & H2 & H3).
  exists seen0, seen1, l1, l2, l3. repeat split; try assumption; set_solver.
Qed.

Lemma main_rejects (dir : gmap string value) (errors : list string)
  (message : string) :
  collect repr dir = Ok (tt, errors) -> message ∈ errors ->
  exists lines, main repr dir = Ok {| printed := lines; returned := 1 |}
                /\ ("- " ++ message) ∈ lines.
Proof.
  intros Hrun Hin. rewrite (main_outcome dir errors Hrun).
  destruct errors as [|e errors]; [now apply elem_of_nil in Hin|].
  eexists. split; [reflexivity|]. apply elem_of_cons. right.
  apply list_elem_of_In, in_map, list_elem_of_In. exact Hin.
Qed.

(** *** The properties *)

(** X18 -- Price coherence, for a record whose [price_usd] the conversion
    [int] of line 247 turns into the integer [price] and whose stripped
    [price_label] is [label]: a violation is reported when [price] is 0 and
    the label has a digit or a dollar sign but none of the markers of an
    unknown or free price; one when [price] is above 0 and the label has no
    digit; one when the label says free and [price] is not 0; and no other.
    So a price of 0 with the label [$499 exam] is rejected and a price of 0
    with the label [Price not listed] is accepted.  In a run that gets to
    its end these messages are among the errors printed, and [main] returns
    1. *)
Theorem price_coherence :
  (forall name payload price,
     py_int (dict_get payload "price_usd" (VInt 0)) = Ok price ->
     let label := text_of repr payload "price_label" in
     check_price repr name payload =
     Ok (tt,
         (if (price =? 0)%Z && (has_digit label || contains "$" label)
             && negb (has_marker label)
          then [msg_price_zero name] else [])
         ++ (if (0 <? price)%Z && negb (has_digit label)
             then [msg_price_no_digit name] else [])
         ++ (if contains "free" (lower label) && negb (price =? 0)%Z
             then [msg_price_free name] else []))%list)
  /\ (forall name payload,
        dict_get payload "price_usd" (VInt 0) = VInt 0 ->
        dict_get payload "price_label" (VStr "") = VStr "$499 exam" ->
        check_price repr name payload = Ok (tt, [msg_price_zero name]))
  /\ (forall name payload,
        dict_get payload "price_usd" (VInt 0) = VInt 0 ->
        dict_get payload "price_label" (VStr "") = VStr "Price not listed" ->
        check_price repr name payload = Ok (tt, []))
  /\ (forall dir name payload errors,
        dir !! name = Some (VDict payload) ->
        collect repr dir = Ok (tt, errors) ->
        exists log,
          check_price repr name payload = Ok (tt, log)
          /\ (forall message, message ∈ log ->
                message ∈ errors
                /\ exists lines,
                     main repr dir = Ok {| printed := lines; returned := 1 |}
                     /\ ("- " ++ message) ∈ lines)).
Proof.
  split; [exact price_log|].
  split; [|split]; [intros name payload Hp Hl..|].
  - rewrite (price_log name payload 0%Z) by (now rewrite Hp).
    unfold text_of. rewrite Hl. reflexivity.
  - rewrite (price_log name payload 0%Z) by (now rewrite Hp).
    unfold text_of. rewrite Hl. reflexivity.
  - intros dir name payload errors Hname Hrun.
    destruct (reported dir name payload errors Hname Hrun)
      as (s0 & s1 & l1 & l2 & l3 & _ & _ & Hpr & _ & _ & H3).
    exists l3. split; [exact Hpr|]. intros message Hin. split; [now apply H3|].
    apply (main_rejects dir errors message Hrun). now apply H3.
Qed.



(** C4 -- The validator is to collect every violation and return 1 or 0; it
    does not on a record whose [price_usd] is no number.  The type check has
    recorded its message for such a record, and then the conversion of line
    247 raises: [ValueError] for a string that is no number, [TypeError] for
    a list.  With an integer price the same record passes. *)
Theorem main_aborts_on_price :
  main repr {["giac-goaa.yaml" := unpriced_record]} = Raise ValueError
  /\ main repr {["giac-goaa.yaml" := list_priced_record]} = Raise TypeError
  /\ (forall items, unpriced_record = VDict items ->
        check_types "giac-goaa.yaml" items
        = Ok (tt, ["giac-goaa.yaml: price_usd must be integer"]))
  /\ main repr {["giac-goaa.yaml" := free_record]}
     = Ok {| printed := ["Catalog validation passed for 1 file(s)."];
             returned := 0 |}.
Proof.
  split; [vm_compute; reflexivity|].
  split; [vm_compute; reflexivity|].
  split; [|vm_compute; reflexivity].
  intros items [= <-]. vm_compute. reflexivity.
Qed.

(** C1 -- Price coherence is not enforced on every record.  A record whose
    label says that it is free and whose [price_usd] is the text
    [ask the provider], which is not 0, is to be reported.  The conversion
    of line 247 raises [ValueError] on it instead: the check leaves no
    message, and [main] neither prints nor returns.  The type check of
    lines 190-191 has recorded its message for the price before.  With the
    integer price 575 the same record gets the two messages of the rules. *)
Theorem price_check_aborts :
  (forall items, free_label_record = VDict items ->
     dict_get items "price_usd" (VInt 0) = VStr "ask the provider"
     /\ contains "free" (lower (text_of repr items "price_label")) = true
     /\ check_types "giac-goaa.yaml" items
        = Ok (tt, ["giac-goaa.yaml: price_usd must be integer"])
     /\ check_price repr "giac-goaa.yaml" items = Raise ValueError)
  /\ main repr {["giac-goaa.yaml" := free_label_record]} = Raise ValueError
  /\ main repr {["giac-goaa.yaml" := free_label_priced_record]}
     = Ok {| printed :=
               [ "Catalog validation failed:";
                 "- giac-goaa.yaml: price_usd is > 0 but price_label has no numeric hint";
                 "- giac-goaa.yaml: price_label says free but price_usd is not 0" ];
             returned := 1 |}.
Proof.
  split; [|split; vm_compute; reflexivity].
  intros items [= <-]. repeat split; vm_compute; reflexivity.
Qed.

(** C2 -- The sub-areas are not checked against the domain on every record
    whose [sub_areas] is a list.  The domain area [IAM] defines no sub-area,
    so a list that is not empty is to be reported; when its entry is itself
    a list, the membership test of line 146 raises [TypeError] on it: the
    check leaves no message, and [main] neither prints nor returns.  With
    the entry [Forensics] as a string the record is reported, and a
    [sub_areas] that is no list at all is reported by the guard of line
    142. *)
Theorem sub_area_check_aborts :
  (forall items, iam_nested_record = VDict items ->
     dict_get items "domain_area" VNone = VStr "IAM"
     /\ allowed_for (VStr "IAM") = Ok []
     /\ dict_get items "sub_areas" VNone = VList [VList [VStr "Forensics"]]
     /\ check_sub_areas repr "giac-goaa.yaml" items = Raise TypeError)
  /\ (forall name items s,
        dict_get items "sub_areas" VNone = VStr s ->
        check_sub_areas repr name items
        = Ok (tt, [name ++ ": sub_areas must be a list"]))
  /\ main repr {["giac-goaa.yaml" := iam_nested_record]} = Raise TypeError
  /\ main repr {["giac-goaa.yaml" := iam_record]}
     = Ok {| printed :=
               [ "Catalog validation failed:";
                 "- giac-goaa.yaml: domain_area 'IAM' does not define sub-areas, "
                 ++ "so sub_areas must be empty" ];
             returned := 1 |}.
Proof.
  split; [|split; [|split; vm_compute; reflexivity]].
  - intros items [= <-]. repeat split; vm_compute; reflexivity.
  - intros name items s Hs. unfold check_sub_areas. now rewrite Hs.
Qed.

(** C10 -- Two files without [id] are not always reported as duplicates.
    In the catalog of [a.yaml], whose [price_usd] is the text [n/a], and
    [b.yaml], neither mapping has an [id]; the conversion of line 247 raises
    [ValueError] in [a.yaml], so [b.yaml] is never looked at and [main]
    neither prints nor returns.  When [a.yaml] has no price either, the run
    gets to its end and reports [b.yaml] as a duplicate of the identifier
    ['']. *)
Theorem missing_id_run_aborts :
  idless_unpriced_catalog !! "a.yaml" = Some (VDict [("price_usd", VStr "n/a")])
  /\ idless_unpriced_catalog !! "b.yaml" = Some (VDict [])
  /\ has_key [("price_usd", VStr "n/a")] "id" = false
  /\ has_key [] "id" = false
  /\ main repr idless_unpriced_catalog = Raise ValueError
  /\ exists o,
       main repr idless_catalog = Ok o
       /\ returned o = 1%Z
       /\ "- b.yaml: duplicate id ''" ∈ printed o.
Proof.
  do 5 (split; [vm_compute; reflexivity|]).
  eexists. split; [vm_compute; reflexivity|]. split; [reflexivity|].
  cbn [printed]. do 20 apply list_elem_of_further. apply list_elem_of_here.
Qed.

End Facts.

End ValidatorFacts.

Module ValidatorWitnesses.
Import Validator ValidatorSpec ValidatorFacts.

Lemma price_coherence_witness :
  py_int (dict_get [("price_usd", VInt 575); ("price_label", VStr "free for members")]
            "price_usd" (VInt 0)) = Ok 575%Z
  /\ check_price (fun _ => "") "isaca-aaia.yaml"
       [("price_usd", VInt 575); ("price_label", VStr "free for members")]
     = Ok (tt, [msg_price_no_digit "isaca-aaia.yaml";
                msg_price_free "isaca-aaia.yaml"]).
Proof.
  split; [reflexivity|].
  apply (proj1 (price_coherence (fun _ => "")) "isaca-aaia.yaml"
           [("price_usd", VInt 575); ("price_label", VStr "free for members")]
           575%Z).
  reflexivity.
Defined.



End ValidatorWitnesses.

(** ** Provider inference *)

Module ProviderFacts.
Import Importer ProviderSpec ProviderScope.

Lemma replace_absent (old new s : string) :
  contains old s = false -> replace_from old new 0 s = s.
Proof.
  induction s as [|c s IH]; [reflexivity|].
  cbn [contains replace_from]. intros H. apply orb_false_elim in H as [Hp Hc].
  rewrite Hp. f_equal. now apply IH.
Qed.

Lemma contains_tail (needle : string) (c : ascii) (s : string) :
  contains needle (String c s) = false -> contains needle s = false.
Proof. cbn [contains]. intros H. now apply orb_false_elim in H as [_ H]. Qed.

Lemma substring_all (s : string) : String.substring 0 (String.length s) s = s.
Proof. induction s as [|c s IH]; simpl; [reflexivity|]. now rewrite IH. Qed.

(** Where [www.] only leads, removing every [www.] and stripping a leading
    one are the same. *)
Lemma replace_www_leading (host : string) :
  www_only_leading host = true -> replace "www." "" host = strip_www host.
Proof.
  unfold www_only_leading, strip_www, replace.
  destruct host as [|c1 rest]; [reflexivity|].
  rewrite negb_true_iff. intros Hrest.
  destruct (String.prefix "www." (String c1 rest)) eqn:Hp.
  - apply String.prefix_correct in Hp.
    destruct rest as [|c2 [|c3 [|c4 rest]]]; try discriminate Hp.
    cbn [String.length String.substring] in Hp.
    injection Hp as -> -> -> -> _.
    do 3 apply contains_tail in Hrest.
    cbn. rewrite (replace_absent "www." "" rest Hrest).
    rewrite Nat.sub_0_r, substring_all. now destruct rest.
  - cbn [replace_from]. rewrite Hp. f_equal. now apply replace_absent.
Qed.

(** On such hosts the importer infers the provider the specification
    describes. *)
Lemma provider_agrees (netloc : string) :
  www_only_leading (lower netloc) = true ->
  provider_of_netloc netloc = provider_of_netloc_spec netloc.
Proof.
  intros H. unfold provider_of_netloc, provider_of_netloc_spec.
  now rewrite (replace_www_leading _ H).
Qed.

(** C8 -- Provider inference is to strip a leading [www.] from the host; the
    importer removes [www.] wherever it stands.  For
    [https://mywww.comptia.org/cert] the host [mywww.comptia.org] ends with
    [.comptia.org], so the specification gives [CompTIA]; the importer turns
    the host into [mycomptia.org] and gives [Mycomptia].  For
    [https://academy.hackthebox.com/cert] it gives [Hack The Box]. *)
Theorem parse_provider_www_inside :
  parse_provider "https://mywww.comptia.org/cert" = "Mycomptia"
  /\ parse_provider_spec "https://mywww.comptia.org/cert" = "CompTIA"
  /\ parse_provider "https://academy.hackthebox.com/cert" = "Hack The Box"
  /\ parse_provider "http://[::1/cert" = "Unknown".
Proof. repeat split; vm_compute; reflexivity. Qed.

End ProviderFacts.

(** ** The index rebuilder *)

Module RebuilderFacts.
Import Rebuilder RebuilderSpec.

#[local] Set Warnings "-clear-no-such-hyp".

Lemma collect_areas_from (files : list (string * payload)) :
  forall (D S : gset string),
    foldl (fun '(domains, sub_areas_seen) '(filename, p) =>
             ({[ default "Security Operations" (domain_area p) ]} ∪ domains,
              list_to_set (default [] (sub_areas p)) ∪ sub_areas_seen))
          (D, S) files
    = (list_to_set (domain_of <$> files) ∪ D,
       list_to_set (flat_map sub_areas_of files) ∪ S).
Proof.
  induction files as [|[name p] files IH]; intros D S; simpl.
  - f_equal; set_solver.
  - rewrite IH. unfold domain_of at 2, sub_areas_of at 2. simpl.
    rewrite list_to_set_app_L. f_equal; set_solver.
Qed.

Lemma collect_areas_sets (files : list (string * payload)) :
  collect_areas files
  = (list_to_set (domain_of <$> files), list_to_set (flat_map sub_areas_of files)).
Proof.
  unfold collect_areas. rewrite collect_areas_from. f_equal; set_solver.
Qed.

(** The two sets do not depend on the order of the files. *)
Lemma collect_areas_perm (l1 l2 : list (string * payload)) :
  l1 ≡ₚ l2 -> collect_areas l1 = collect_areas l2.
Proof.
  intros Hp. rewrite !collect_areas_sets. f_equal.
  - apply list_to_set_perm_L. now rewrite Hp.
  - apply list_to_set_perm_L. now apply Permutation_flat_map.
Qed.

Lemma collect_areas_in_use (dir : gmap string payload) :
  collect_areas (sorted_files dir) = (domains_in_use dir, sub_areas_in_use dir).
Proof.
  unfold sorted_files. rewrite (collect_areas_perm _ (map_to_list dir)).
  - apply collect_areas_sets.
  - apply sort_files_perm.
Qed.

Lemma ordered_spec (order : list string) (present : gset string) :
  priority_then_sorted order present (ordered order present).
Proof.
  exists (sorted (elements (present ∖ list_to_set order))).
  split; [reflexivity|]. split; [apply sorted_strongly|]. split.
  - rewrite sorted_perm. apply NoDup_elements.
  - intros x. rewrite sorted_perm, elem_of_elements, elem_of_difference.
    now rewrite elem_of_list_to_set.
Qed.

Lemma names_perm {A} (dir : gmap string A) :
  (map_to_list dir).*1 ≡ₚ elements (dom dir).
Proof.
  apply NoDup_Permutation.
  - apply NoDup_fst_map_to_list.
  - apply NoDup_elements.
  - intros x. rewrite elem_of_elements, dom_alt, elem_of_list_to_set. reflexivity.
Qed.

(** The index of a directory does not depend on the order in which its
    files are listed. *)
Lemma rebuild_listing (today today' : string) (dir : gmap string payload)
  (listing : list (string * payload)) :
  listing ≡ₚ map_to_list dir ->
  domains (rebuild today' listing) = domains (main today dir)
  /\ index_sub_areas (rebuild today' listing) = index_sub_areas (main today dir)
  /\ certifications (rebuild today' listing) = certifications (main today dir).
Proof.
  intros Hp. unfold main, rebuild.
  assert (Hs : sort_files listing = sort_files (map_to_list dir)).
  { symmetry. apply sort_files_unique; [apply NoDup_fst_map_to_list | now symmetry]. }
  rewrite Hs. destruct (collect_areas _) as [D S]. simpl. auto.
Qed.

(** C7 -- The index the rebuilder emits for a directory of canonical
    records: its domain list is the canonical order restricted to the domains
    in use, followed by the other domains in use in ascending order; its
    sub-area list is built the same way; its list of certifications is the
    list of all file names in ascending order.  The three lists are functions
    of the records alone: another run, on another day and with the files
    listed in another order, gives the same lists. *)
Theorem rebuild_index_lists (today : string) (dir : gmap string payload) :
  priority_then_sorted DOMAIN_ORDER (domains_in_use dir)
    (domains (main today dir))
  /\ priority_then_sorted SUBAREA_ORDER (sub_areas_in_use dir)
       (index_sub_areas (main today dir))
  /\ (StronglySorted str_le (certifications (main today dir))
      /\ certifications (main today dir) ≡ₚ elements (dom dir))
  /\ (forall today' listing,
        listing ≡ₚ map_to_list dir ->
        domains (rebuild today' listing) = domains (main today dir)
        /\ index_sub_areas (rebuild today' listing)
           = index_sub_areas (main today dir)
        /\ certifications (rebuild today' listing)
           = certifications (main today dir)).
Proof.
  assert (Hmain : main today dir
                  = {| last_reviewed := today;
                       domains := ordered DOMAIN_ORDER (domains_in_use dir);
                       index_sub_areas := ordered SUBAREA_ORDER (sub_areas_in_use dir);
                       certifications := (sorted_files dir).*1 |}).
  { unfold main, rebuild. fold (sorted_files dir).
    now rewrite collect_areas_in_use. }
  split; [rewrite Hmain; apply ordered_spec|].
  split; [rewrite Hmain; apply ordered_spec|].
  split; [|intros today' listing; apply rebuild_listing].
  rewrite Hmain. simpl. unfold sorted_files. rewrite sort_files_names. split.
  - apply sorted_strongly.
  - rewrite sorted_perm. apply names_perm.
Qed.

Lemma rebuild_index_lists_witness :
  domains (rebuild "2026-03-02" (reverse (map_to_list sample_dir)))
  = domains (main "2026-03-01" sample_dir)
  /\ index_sub_areas (rebuild "2026-03-02" (reverse (map_to_list sample_dir)))
     = index_sub_areas (main "2026-03-01" sample_dir)
  /\ certifications (rebuild "2026-03-02" (reverse (map_to_list sample_dir)))
     = certifications (main "2026-03-01" sample_dir).
Proof.
  apply (proj2 (proj2 (proj2 (rebuild_index_lists "2026-03-01" sample_dir)))).
  apply reverse_Permutation.
Defined.

Example rebuild_sample :
  main "2026-03-01" sample_dir
  = {| last_reviewed := "2026-03-01";
       domains := ["Security and Risk Management"; "Security Operations";
                   "Privacy"];
       index_sub_areas := ["GRC"; "Exploitation"; "Wireless"];
       certifications := ["draft.yaml"; "giac-goaa.yaml"; "iapp-aigp.yaml"] |}.
Proof. vm_compute. reflexivity. Qed.

End RebuilderFacts.

(** * Further properties of the importer *)

(** ** Slugs and tooltip lines *)

Module LineFacts.
Import Importer SlugSpec SlugFacts LineSpec.

#[local] Arguments is_space : simpl never.

(** X1 -- For every string, [slugify] returns a valid slug: it is never
    empty, holds only lowercase letters, digits and hyphens, has no two
    hyphens in a row and no hyphen at either end. *)
Theorem slugify_always_valid (s : string) :
  valid_slug (slugify s) = true
  /\ slugify s <> ""
  /\ forall_chars (fun c => is_slug_char c || Ascii.eqb "-" c) (slugify s) = true.
Proof.
  assert (H : valid_slug (slugify s) = true).
  { rewrite valid_slug_slug_from. apply slugify_shape. }
  split; [exact H|]. unfold valid_slug in H.
  repeat (apply andb_true_iff in H as [H ?]).
  split; [|assumption]. intros He. rewrite He in H. discriminate H.
Qed.

Lemma split_blank_words (s : string) : Forall word (split_blank s).
Proof.
  induction s as [|c r IH]; cbn [split_blank]; [constructor|].
  destruct (is_space c) eqn:Hc; [exact IH|].
  destruct r as [|c' r']; [repeat constructor; [discriminate | simpl; now rewrite Hc]|].
  destruct (is_space c') eqn:Hc'.
  - constructor; [|exact IH]. split; [discriminate | simpl; now rewrite Hc].
  - destruct (split_blank (String c' r')) as [|w ws] eqn:Hsplit.
    + repeat constructor; [discriminate | simpl; now rewrite Hc].
    + apply Forall_cons in IH as [[Hw1 Hw2] Hws]. constructor; [|exact Hws].
      split; [discriminate | simpl; now rewrite Hc, Hw2].
Qed.

Lemma rstrip_word (w : string) :
  forall_chars (fun c => negb (is_space c)) w = true -> rstrip_by is_space w = w.
Proof.
  induction w as [|c r IH]; simpl; [reflexivity|].
  intros H. apply andb_true_iff in H as [Hc Hr]. rewrite (IH Hr).
  apply negb_true_iff in Hc. rewrite Hc. now destruct r.
Qed.

Lemma rstrip_append (p : ascii -> bool) (a b : string) :
  b <> "" -> rstrip_by p b = b -> rstrip_by p (a ++ b) = a ++ b.
Proof.
  intros Hb Hr. induction a as [|c a IH]; [exact Hr|].
  change (String c a ++ b) with (String c (a ++ b)).
  cbn [rstrip_by]. rewrite IH.
  destruct (a ++ b) eqn:E; [|reflexivity].
  destruct a; simpl in E; [contradiction | discriminate].
Qed.

Lemma append_empty (s : string) : s ++ "" = s.
Proof.
  induction s as [|c s IH]; [reflexivity|].
  change (String c s ++ "") with (String c (s ++ "")). now rewrite IH.
Qed.

Lemma join_cons2 (sep w w' : string) (ws : list string) :
  join sep (w :: w' :: ws) = w ++ sep ++ join sep (w' :: ws).
Proof. reflexivity. Qed.

Lemma join_words_nonempty (w : string) (ws : list string) :
  w <> "" -> join " " (w :: ws) <> "".
Proof. intros Hw. destruct ws; [exact Hw|]. rewrite join_cons2. now destruct w. Qed.

Lemma rstrip_join (ws : list string) :
  Forall word ws -> rstrip_by is_space (join " " ws) = join " " ws.
Proof.
  induction 1 as [|w ws [Hw1 Hw2] Hws IH]; [reflexivity|].
  destruct ws as [|w' ws]; [now apply rstrip_word|].
  rewrite join_cons2.
  assert (Hne : join " " (w' :: ws) <> "").
  { apply join_words_nonempty. now apply Forall_inv in Hws as [? _]. }
  apply rstrip_append; [discriminate|].
  apply (rstrip_append is_space " "); assumption.
Qed.

Lemma lstrip_join (ws : list string) :
  Forall word ws -> lstrip_by is_space (join " " ws) = join " " ws.
Proof.
  destruct 1 as [|w rest [Hw1 Hw2] Hws]; [reflexivity|].
  assert (Hl : forall tl, lstrip_by is_space (w ++ tl) = w ++ tl).
  { intros tl. destruct w as [|c w]; [contradiction|].
    change (String c w ++ tl) with (String c (w ++ tl)).
    cbn [forall_chars] in Hw2.
    apply andb_true_iff in Hw2 as [Hc _]. apply negb_true_iff in Hc.
    cbn [lstrip_by]. now rewrite Hc. }
  destruct rest as [|w' rest]; [|rewrite join_cons2; apply Hl].
  specialize (Hl ""). rewrite append_empty in Hl. exact Hl.
Qed.

Lemma spaced_append (a b : string) :
  spaced (a ++ b) = spaced a && spaced b.
Proof.
  unfold spaced. induction a as [|c a IH]; simpl; [reflexivity|].
  now rewrite IH, andb_assoc.
Qed.

Lemma spaced_word (w : string) : word w -> spaced w = true.
Proof.
  intros [_ H]. unfold spaced. induction w as [|c w IH]; simpl in *; [reflexivity|].
  apply andb_true_iff in H as [Hc Hw]. rewrite Hc. simpl. now apply IH.
Qed.

Lemma spaced_join (ws : list string) : Forall word ws -> spaced (join " " ws) = true.
Proof.
  induction 1 as [|w ws Hw Hws IH]; [reflexivity|].
  destruct ws as [|w' ws]; [now apply spaced_word|].
  rewrite join_cons2, !spaced_append, IH, (spaced_word w Hw). reflexivity.
Qed.

Lemma spaced_no_line_feed (l : string) : spaced l = true -> contains LF l = false.
Proof.
  unfold spaced, LF. induction l as [|c l IH]; [reflexivity|].
  cbn [forall_chars contains String.prefix]. intros H.
  apply andb_true_iff in H as [Hc Hl]. rewrite (IH Hl), orb_false_r.
  destruct (ascii_dec "010" c) as [<-|_]; [|reflexivity].
  vm_compute in Hc. discriminate Hc.
Qed.

(** What [normalize_lines] makes of one raw line *)
Lemma line_of_raw (raw : string) :
  let line := strip (join " " (split_blank raw)) in
  line = join " " (split_blank raw)
  /\ strip line = line
  /\ spaced line = true.
Proof.
  pose proof (split_blank_words raw) as Hw.
  assert (Hs : strip (join " " (split_blank raw)) = join " " (split_blank raw)).
  { unfold strip, strip_by. now rewrite lstrip_join, rstrip_join. }
  cbv zeta. rewrite Hs. split; [reflexivity|]. split; [exact Hs|].
  now apply spaced_join.
Qed.

Lemma normalize_lines_clean_lines (tooltip : string) :
  Forall (fun line =>
            line <> ""
            /\ strip line = line
            /\ spaced line = true
            /\ contains LF line = false)
         (normalize_lines tooltip).
Proof.
  unfold normalize_lines. apply Forall_forall. intros line Hin.
  apply list_elem_of_In, in_flat_map in Hin as (raw & _ & Hin).
  destruct (line_of_raw raw) as (_ & Hstrip & Hspaced).
  destruct (is_empty _) eqn:He; [inversion Hin|].
  destruct Hin as [<-|[]].
  split; [intros H; rewrite H in He; discriminate|].
  split; [exact Hstrip|]. split; [exact Hspaced|].
  now apply spaced_no_line_feed.
Qed.

(** X2 -- Every line [normalize_lines] gives is not empty, has no blank at
    either end ([strip] leaves it as it is), holds no blank but the space
    and, in particular, no line feed. *)
Theorem normalize_lines_clean (tooltip : string) :
  Forall (fun line =>
            line <> ""
            /\ strip line = line
            /\ spaced line = true
            /\ contains LF line = false)
         (normalize_lines tooltip).
Proof. apply normalize_lines_clean_lines. Qed.

End LineFacts.

(** ** Prices *)

Module PriceFacts.
Import Importer PriceSpec.

#[local] Arguments is_space : simpl never.
#[local] Arguments is_digit : simpl never.
#[local] Arguments Ascii.eqb : simpl never.

Lemma has_digit_lstrip (p : ascii -> bool) (s : string) :
  has_digit (lstrip_by p s) = true -> has_digit s = true.
Proof.
  unfold has_digit. induction s as [|c r IH]; simpl; [easy|].
  destruct (p c); [|easy]. intros H. rewrite (IH H). apply orb_true_r.
Qed.

Lemma amount_at_digit (s g : string) :
  amount_at s = Some g -> has_digit s = true.
Proof.
  unfold amount_at, has_digit. destruct s as [|c r]; [discriminate|].
  destruct (is_digit c) eqn:Hc; [|discriminate]. intros _. simpl. now rewrite Hc.
Qed.

(** A matched amount stands after a dollar sign and starts with a digit. *)
Lemma amount_search_found (s g : string) :
  amount_search s = Some g -> has_digit s = true /\ contains "$" s = true.
Proof.
  induction s as [|c r IH]; [discriminate|].
  cbn [amount_search]. unfold has_digit in *. cbn [exists_char contains String.prefix].
  destruct (Ascii.eqb_spec c "$") as [->|Hne].
  - destruct (amount_at (lstrip_by is_space r)) as [g'|] eqn:Hat.
    + intros _. apply amount_at_digit, has_digit_lstrip in Hat.
      unfold has_digit in Hat. rewrite Hat, orb_true_r.
      split; [reflexivity|]. destruct (ascii_dec "$" "$"); [|congruence].
      now destruct r.
    + intros H. destruct (IH H) as [-> ->]. now rewrite !orb_true_r.
  - intros H. destruct (IH H) as [-> ->]. now rewrite !orb_true_r.
Qed.

(** *** The shape of a matched amount *)


Lemma int_of_float_decimal_nonneg (N D r : Z) :
  (0 <= N)%Z -> (0 < D)%Z -> int_of_float_decimal N D = Ok r -> (0 <= r)%Z.
Proof.
  intros HN HD. unfold int_of_float_decimal.
  destruct (N =? 0)%Z; [intros [= <-]; lia|].
  set (e := Z.max _ _). cbv zeta.
  destruct (0 <=? e)%Z eqn:He.
  - apply Z.leb_le in He.
    assert (Hb : (0 < D * 2 ^ e)%Z) by (apply Z.mul_pos_pos; [lia | now apply Z.pow_pos_nonneg]).
    assert (Hq : (0 <= N / (D * 2 ^ e))%Z) by (apply Z.div_pos; lia).
    assert (Hp : (0 <= 2 ^ e)%Z) by (apply Z.pow_nonneg; lia).
    repeat match goal with |- context [if ?b then _ else _] => destruct b end;
      intros [= <-]; try apply Z.mul_nonneg_nonneg; lia.
  - apply Z.leb_gt in He.
    assert (Hp : (0 < 2 ^ (- e))%Z) by (apply Z.pow_pos_nonneg; lia).
    assert (Hq : (0 <= N * 2 ^ (- e) / D)%Z)
      by (apply Z.div_pos; [apply Z.mul_nonneg_nonneg; lia | lia]).
    repeat match goal with |- context [if ?b then _ else _] => destruct b end;
      intros [= <-]; apply Z.div_pos; lia.
Qed.

Lemma digits_to_Z_nonneg (s : string) :
  forall acc, (0 <= acc)%Z -> forall_chars is_digit s = true ->
              (0 <= digits_to_Z acc s)%Z.
Proof.
  induction s as [|c r IH]; intros acc Hacc; simpl; [easy|].
  intros H. apply andb_true_iff in H as [Hc Hr]. apply IH; [|exact Hr].
  unfold digit_value. unfold is_digit, in_range in Hc.
  apply andb_true_iff in Hc as [Hlo _]. apply N.leb_le in Hlo. lia.
Qed.

Lemma forall_chars_append (p : ascii -> bool) (a b : string) :
  forall_chars p (a ++ b) = forall_chars p a && forall_chars p b.
Proof.
  induction a as [|c a IH]; [reflexivity|].
  change (String c a ++ b) with (String c (a ++ b)). simpl.
  now rewrite IH, andb_assoc.
Qed.

Lemma take_while_all (p : ascii -> bool) (s : string) :
  forall_chars p (take_while p s) = true.
Proof.
  induction s as [|c r IH]; simpl; [reflexivity|].
  destruct (p c) eqn:Hc; simpl; [now rewrite Hc|reflexivity].
Qed.

(** Splitting at the first character outside a class *)
Lemma take_while_append (p : ascii -> bool) (a b : string) :
  forall_chars p a = true -> take_while p b = "" -> take_while p (a ++ b) = a.
Proof.
  intros Ha Hb. induction a as [|c a IH]; [exact Hb|].
  change (String c a ++ b) with (String c (a ++ b)). simpl in *.
  apply andb_true_iff in Ha as [-> Ha]. now rewrite IH.
Qed.

Lemma lstrip_append (p : ascii -> bool) (a b : string) :
  forall_chars p a = true -> lstrip_by p b = b -> lstrip_by p (a ++ b) = b.
Proof.
  intros Ha Hb. induction a as [|c a IH]; [exact Hb|].
  change (String c a ++ b) with (String c (a ++ b)). simpl in *.
  apply andb_true_iff in Ha as [-> Ha]. now apply IH.
Qed.

Lemma replace_comma (s : string) : replace "," "" s = drop_chars is_comma s.
Proof.
  unfold replace, is_comma. induction s as [|c r IH]; [reflexivity|].
  cbn [replace_from drop_chars String.prefix String.length Nat.sub].
  destruct (Ascii.eqb_spec c ",") as [->|Hne].
  - destruct (ascii_dec "," ","); [|congruence].
    replace (String.prefix "" r) with true by (now destruct r). exact IH.
  - destruct (ascii_dec "," c) as [<-|_]; [congruence|]. now rewrite IH.
Qed.

Lemma drop_chars_append (p : ascii -> bool) (a b : string) :
  drop_chars p (a ++ b) = drop_chars p a ++ drop_chars p b.
Proof.
  induction a as [|c a IH]; [reflexivity|].
  change (String c a ++ b) with (String c (a ++ b)). simpl.
  destruct (p c); [exact IH|]. now rewrite IH.
Qed.

Lemma drop_commas_body (s : string) :
  forall_chars is_body s = true ->
  forall_chars is_digit (drop_chars is_comma s) = true.
Proof.
  unfold is_body, is_comma. induction s as [|c r IH]; simpl; [reflexivity|].
  intros H. apply andb_true_iff in H as [Hc Hr].
  destruct (Ascii.eqb c ","); [now apply IH|]. simpl.
  rewrite orb_false_r in Hc. now rewrite Hc, IH.
Qed.

Lemma drop_commas_digits (s : string) :
  forall_chars is_digit s = true -> drop_chars is_comma s = s.
Proof.
  unfold is_comma. induction s as [|c r IH]; simpl; [reflexivity|].
  intros H. apply andb_true_iff in H as [Hc Hr].
  destruct (Ascii.eqb_spec c ",") as [->|_]; [discriminate Hc|]. now rewrite IH.
Qed.

(** A matched amount is digits and commas, then perhaps a point and
    digits. *)
Lemma amount_at_shape (s g : string) :
  amount_at s = Some g ->
  exists whole fraction,
    forall_chars is_body whole = true
    /\ forall_chars is_digit fraction = true
    /\ (g = whole \/ g = whole ++ "." ++ fraction).
Proof.
  unfold amount_at. destruct s as [|c r]; [discriminate|].
  destruct (is_digit c); [|discriminate].
  fold is_body.
  set (whole := take_while _ _).
  assert (Hw : forall_chars is_body whole = true) by apply take_while_all.
  destruct (lstrip_by _ _) as [|d rest].
  - intros [= <-]. exists whole, "". auto.
  - destruct (Ascii.eqb_spec d ".") as [->|Hne].
    + destruct (is_empty (take_while is_digit rest)) eqn:He; intros [= <-].
      * exists whole, "". auto.
      * exists whole, (take_while is_digit rest).
        split; [exact Hw|]. split; [apply take_while_all | now right].
    + intros H. exists whole, "". split; [exact Hw|]. split; [reflexivity|]. left.
      destruct d as [[] [] [] [] [] [] [] []];
        try (now injection H as <-); exfalso; apply Hne; reflexivity.
Qed.

Lemma int_float_nonneg (s g : string) (r : Z) :
  amount_at s = Some g -> int_float (replace "," "" g) = Ok r -> (0 <= r)%Z.
Proof.
  intros Hat. apply amount_at_shape in Hat as (whole & fraction & Hw & Hf & Hg).
  rewrite replace_comma. unfold int_float.
  set (digits := drop_chars is_comma whole).
  assert (Hd : forall_chars is_digit digits = true) by now apply drop_commas_body.
  destruct Hg as [-> | ->].
  - fold digits. rewrite <- (LineFacts.append_empty digits) at 1 2.
    rewrite take_while_append, lstrip_append by (exact Hd || reflexivity).
    apply int_of_float_decimal_nonneg.
    + apply digits_to_Z_nonneg; [lia|]. now rewrite LineFacts.append_empty.
    + simpl. lia.
  - rewrite !drop_chars_append. fold digits.
    change (drop_chars is_comma ".") with ".".
    rewrite (drop_commas_digits fraction Hf).
    rewrite take_while_append, lstrip_append by (exact Hd || reflexivity).
    change (match "." ++ fraction with String "."%char rest => rest | _ => "" end)
      with fraction.
    apply int_of_float_decimal_nonneg.
    + apply digits_to_Z_nonneg; [lia|].
      now rewrite forall_chars_append, Hd, Hf.
    + apply Z.pow_pos_nonneg; lia.
Qed.

Lemma amount_search_at (s g : string) :
  amount_search s = Some g -> exists t, amount_at t = Some g.
Proof.
  induction s as [|c r IH]; [discriminate|]. cbn [amount_search].
  destruct (Ascii.eqb c "$"); [|exact IH].
  destruct (amount_at (lstrip_by is_space r)) as [g'|] eqn:Hat; [|exact IH].
  intros [= <-]. eauto.
Qed.

Lemma extract_price_facts (lines : list string) (label : string)
  (amount : Z) (confidence : string) :
  extract_price lines = Ok (label, amount, confidence) ->
  (0 <= amount)%Z
  /\ (amount <> 0%Z -> has_digit label = true /\ contains "$" label = true)
  /\ (length lines <= 1 ->
      label = "Price not listed" /\ amount = 0%Z /\ confidence = "estimated")
  /\ (2 <= length lines -> confidence = "from-original-tooltip").
Proof.
  unfold extract_price. destruct lines as [|first rest].
  { intros [= <- <- <-]. simpl. repeat split; try lia; congruence. }
  match goal with
  | |- match ?c with [] => _ | _ :: _ => _ end = _ -> _ => set (chosen := c)
  end.
  assert (Hchosen : rest = [] -> chosen = []).
  { intros ->. reflexivity. }
  assert (Hsome : rest <> [] -> chosen <> []).
  { unfold chosen. destruct rest as [|second rest']; [congruence|].
    intros _. now destruct (List.filter price_hint (second :: rest')). }
  destruct chosen as [|line chosen'] eqn:Hc.
  { intros [= <- <- <-]. destruct rest as [|second rest'].
    - simpl. repeat split; try lia; congruence.
    - exfalso. now apply Hsome. }
  assert (Hlen : 2 <= length (first :: rest)).
  { destruct rest; [now specialize (Hchosen eq_refl) | simpl; lia]. }
  destruct (amount_search _) as [group|] eqn:Hsearch.
  - destruct (int_float _) as [n|e] eqn:Hfloat; [|discriminate].
    intros [= <- <- <-].
    destruct (amount_search_at _ _ Hsearch) as [t Hat].
    apply amount_search_found in Hsearch.
    split; [now apply (int_float_nonneg t group)|].
    split; [intros _; exact Hsearch|]. split; [lia | reflexivity].
  - intros [= <- <- <-]. split; [lia|]. split; [congruence|].
    split; [lia | reflexivity].
Qed.

(** X3 -- Whenever [extract_price] returns, the amount is not negative; an
    amount other than 0 comes with a label that shows a dollar sign and a
    digit; the confidence is [estimated] exactly when there are fewer than
    two lines, and then the label is [Price not listed] and the amount 0,
    otherwise it is [from-original-tooltip]. *)
Theorem extract_price_sound (lines : list string) (label : string)
  (amount : Z) (confidence : string) :
  extract_price lines = Ok (label, amount, confidence) ->
  (0 <= amount)%Z
  /\ (amount <> 0%Z -> has_digit label = true /\ contains "$" label = true)
  /\ (length lines <= 1 ->
      label = "Price not listed" /\ amount = 0%Z /\ confidence = "estimated")
  /\ (2 <= length lines -> confidence = "from-original-tooltip").
Proof. apply extract_price_facts. Qed.

Lemma extract_price_sound_witness :
  (0 <= 1234)%Z
  /\ (1234%Z <> 0%Z ->
      has_digit "costs $ 1,234.99 today | free for members" = true
      /\ contains "$" "costs $ 1,234.99 today | free for members" = true)
  /\ (length ["x"; "costs $ 1,234.99 today"; "free for members"; "exam"] <= 1 ->
      "costs $ 1,234.99 today | free for members" = "Price not listed"
      /\ 1234%Z = 0%Z /\ "from-original-tooltip" = "estimated")
  /\ (2 <= length ["x"; "costs $ 1,234.99 today"; "free for members"; "exam"] ->
      "from-original-tooltip" = "from-original-tooltip").
Proof.
  apply (extract_price_sound
           ["x"; "costs $ 1,234.99 today"; "free for members"; "exam"]).
  vm_compute. reflexivity.
Defined.

End PriceFacts.

(** ** The provider table *)

Module TableFacts.
Import Importer TableSpec.

Lemma table_providers_named :
  Forall (fun kv : string * string => kv.2 <> "") HOST_PROVIDER_MAP.
Proof. unfold HOST_PROVIDER_MAP. repeat constructor; discriminate. Qed.

Lemma replace_nonempty (old new s : string) :
  new <> "" -> s <> "" -> replace old new s <> "".
Proof.
  intros Hnew Hs. unfold replace. destruct s as [|c r]; [contradiction|].
  cbn [replace_from]. destruct (String.prefix old (String c r)); [|discriminate].
  destruct new; [contradiction | discriminate].
Qed.

Lemma title_nonempty (s : string) : s <> "" -> title s <> "".
Proof.
  unfold title. destruct s as [|c r]; [contradiction|]. intros _. simpl.
  destruct (is_upper c || is_lower c); discriminate.
Qed.

Lemma provider_of_netloc_named (netloc : string) : provider_of_netloc netloc <> "".
Proof.
  unfold provider_of_netloc.
  destruct (find _ HOST_PROVIDER_MAP) as [[key provider]|] eqn:Hfind.
  - apply find_some in Hfind as [Hin _].
    pose proof table_providers_named as Hall. rewrite Forall_forall in Hall.
    apply list_elem_of_In in Hin. now apply (Hall _ Hin).
  - match goal with |- (if is_empty ?b then _ else _) <> _ => destruct b eqn:Hb end;
      [discriminate|].
    apply title_nonempty, replace_nonempty; discriminate.
Qed.

Lemma parse_provider_nonempty (url : string) : parse_provider url <> "".
Proof.
  unfold parse_provider. destruct (urlparse_netloc url) as [netloc|]; [|discriminate].
  apply provider_of_netloc_named.
Qed.

(** X4 -- Provider inference never returns the empty string: it returns a
    provider of the table, [Unknown], or the title-cased form of a label
    that is not empty. *)
Theorem parse_provider_named (url : string) : parse_provider url <> "".
Proof. apply parse_provider_nonempty. Qed.

Lemma ends_with_empty (a : string) : ends_with a "" = String.eqb a "".
Proof. simpl. apply orb_false_r. Qed.

(** Two endings of one string: one ends the other. *)
Lemma ends_with_comparable (a b s : string) :
  ends_with a s = true -> ends_with b s = true ->
  ends_with a b = true \/ ends_with b a = true.
Proof.
  induction s as [|c r IH]; cbn [ends_with]; rewrite ?orb_false_r.
  - intros Ha Hb. apply String.eqb_eq in Ha, Hb. subst. left.
    reflexivity.
  - intros Ha Hb. apply orb_true_iff in Ha as [Ha|Ha], Hb as [Hb|Hb].
    + apply String.eqb_eq in Ha, Hb. subst. left.
      cbn [ends_with]. now rewrite String.eqb_refl.
    + apply String.eqb_eq in Ha. subst. right.
      cbn [ends_with]. rewrite Hb. apply orb_true_r.
    + apply String.eqb_eq in Hb. subst. left.
      cbn [ends_with]. rewrite Ha. apply orb_true_r.
    + now apply IH.
Qed.

Lemma ends_with_refl (a : string) : ends_with a a = true.
Proof. destruct a; cbn [ends_with]; now rewrite String.eqb_refl. Qed.

Lemma matches_overlap (host k1 k2 : string) :
  host_matches host k1 = true -> host_matches host k2 = true ->
  keys_overlap k1 k2 = true.
Proof.
  unfold host_matches, keys_overlap. intros H1 H2.
  apply orb_true_iff in H1 as [H1|H1], H2 as [H2|H2].
  - apply String.eqb_eq in H1, H2. subst. now rewrite String.eqb_refl.
  - apply String.eqb_eq in H1. subst. rewrite H2. now rewrite !orb_true_r.
  - apply String.eqb_eq in H2. subst. rewrite H1. now rewrite !orb_true_r.
  - destruct (ends_with_comparable _ _ _ H1 H2) as [H|H]; rewrite H;
      now rewrite !orb_true_r.
Qed.

Lemma host_provider_map_coherent : table_coherent HOST_PROVIDER_MAP = true.
Proof. vm_compute. reflexivity. Qed.

(** X5 -- The provider table can be searched in any order: a host that
    matches a key of the table (it is the key, or ends with a dot and the
    key) gets the provider of that key, also when it matches other keys that
    stand earlier in the table. *)
Theorem provider_of_matching_key (netloc key provider : string) :
  (key, provider) ∈ HOST_PROVIDER_MAP ->
  host_matches (replace "www." "" (lower netloc)) key = true ->
  provider_of_netloc netloc = provider.
Proof.
  intros Hin Hmatch. unfold provider_of_netloc.
  fold (host_matches (replace "www." "" (lower netloc))).
  set (host := replace "www." "" (lower netloc)) in *.
  change (fun kv : string * string => String.eqb host kv.1
                                      || ends_with ("." ++ kv.1) host)
    with (fun kv : string * string => host_matches host kv.1).
  destruct (find _ HOST_PROVIDER_MAP) as [[key' provider']|] eqn:Hfind.
  - apply find_some in Hfind as [Hin' Hmatch']. simpl in Hmatch'.
    pose proof (matches_overlap host key' key Hmatch' Hmatch) as Hover.
    pose proof host_provider_map_coherent as Hco. unfold table_coherent in Hco.
    rewrite forallb_forall in Hco. specialize (Hco _ Hin').
    rewrite forallb_forall in Hco. apply list_elem_of_In in Hin.
    specialize (Hco _ Hin). simpl in Hco. rewrite Hover in Hco. simpl in Hco.
    now apply String.eqb_eq in Hco.
  - apply list_elem_of_In in Hin.
    apply (find_none _ _ Hfind) in Hin. simpl in Hin. congruence.
Qed.

Lemma provider_of_matching_key_witness :
  provider_of_netloc "labs.Training.LinuxFoundation.org" = "Linux Foundation".
Proof.
  apply (provider_of_matching_key "labs.Training.LinuxFoundation.org"
           "training.linuxfoundation.org" "Linux Foundation").
  - apply (bool_decide_unpack _). vm_compute. reflexivity.
  - vm_compute. reflexivity.
Defined.

End TableFacts.

(** ** The records the importer builds *)

Module RecordFacts.
Import Importer Derived SlugSpec ImportSpec RecordSpec SlugFacts IdFacts ImportFacts.

#[local] Set Warnings "-clear-no-such-hyp".

Lemma lookup_table_in {A} (table : list (string * A)) (key : string) (v : A) :
  lookup_table table key = Some v -> exists k, (k, v) ∈ table.
Proof.
  unfold lookup_table. destruct (find _ table) as [[k v']|] eqn:Hf; [|discriminate].
  intros [= <-]. apply find_some in Hf as [Hin _].
  exists k. now apply list_elem_of_In.
Qed.

(** The record built from [sample_record] in an empty catalog *)
Lemma sample_cert_built :
  build_cert sample_record ∅ = Ok (sample_cert, {["comptia-security"]} ∪ ∅).
Proof. vm_compute. reflexivity. Qed.

Lemma skill_to_level_valid (skill : Z) :
  skill_to_level skill ∈ Validator.VALID_LEVELS.
Proof.
  unfold skill_to_level, Validator.VALID_LEVELS.
  repeat match goal with |- context [if ?b then _ else _] => destruct b end;
    set_solver.
Qed.

Lemma category_to_domain_valid (main_cat : string) (sub_cat : option string) :
  (category_to_domain main_cat sub_cat).1 ∈ Validator.VALID_DOMAINS
  /\ (category_to_domain main_cat sub_cat).2 ⊆ Validator.VALID_SUB_AREAS
  /\ length (category_to_domain main_cat sub_cat).2 <= 1.
Proof.
  unfold category_to_domain. cbn [fst snd]. split; [|split].
  - destruct (lookup_table MAIN_TO_AREA main_cat) as [area|] eqn:Hl.
    + apply lookup_table_in in Hl as [k Hin]. simpl.
      assert (Hall : Forall (fun kv : string * string =>
                               kv.2 ∈ Validator.VALID_DOMAINS) MAIN_TO_AREA)
        by (apply (bool_decide_unpack _); vm_compute; reflexivity).
      rewrite Forall_forall in Hall. apply (Hall _ Hin).
    + simpl. apply (bool_decide_unpack _). vm_compute. reflexivity.
  - destruct sub_cat as [sub|]; [|set_solver].
    destruct (is_empty sub); [set_solver|].
    destruct (lookup_table SUB_TO_SUBAREA sub) as [sub_area|] eqn:Hl; [|set_solver].
    apply lookup_table_in in Hl as [k Hin].
    assert (Hall : Forall (fun kv : string * string =>
                             kv.2 ∈ Validator.VALID_SUB_AREAS) SUB_TO_SUBAREA)
      by (apply (bool_decide_unpack _); vm_compute; reflexivity).
    rewrite Forall_forall in Hall. specialize (Hall _ Hin). set_solver.
  - destruct sub_cat as [sub|]; [|simpl; lia].
    destruct (is_empty sub); [simpl; lia|].
    destruct (lookup_table SUB_TO_SUBAREA sub); simpl; lia.
Qed.

Lemma build_cert_areas (r : raw_record) (used used' : gset string) (c : cert) :
  build_cert r used = Ok (c, used') ->
  (domain_area c, sub_areas c)
  = category_to_domain (default "" (mainCategory r)) (subCategory r).
Proof.
  unfold build_cert. destruct (category_to_domain _ _) as [area subs].
  destruct (extract_price _) as [[[label usd] conf]|e]; [|discriminate].
  destruct (unique_id _ _) as [cid used1]. now intros [= <- <-].
Qed.

(** X6 -- Every record [build_cert] returns carries values the validator
    takes: a level, a domain area and a price confidence of the validator's
    enumerations, at most one sub-area and that one of the validator's
    list, a price that is not negative, a provider that is not empty, and an
    identifier that is a slug or a slug with a numeric suffix, not in use
    before and in use afterwards. *)
Theorem build_cert_fields (r : raw_record) (used used' : gset string) (c : cert) :
  build_cert r used = Ok (c, used') ->
  level c ∈ Validator.VALID_LEVELS
  /\ domain_area c ∈ Validator.VALID_DOMAINS
  /\ sub_areas c ⊆ Validator.VALID_SUB_AREAS
  /\ length (sub_areas c) <= 1
  /\ price_confidence c ∈ Validator.VALID_PRICE_CONFIDENCE
  /\ (0 <= price_usd c)%Z
  /\ provider c <> ""
  /\ id c <> "" /\ (id c ∉ used) /\ used' = {[id c]} ∪ used
  /\ (id c = slugify (content r)
      \/ exists k, 2 <= k /\ id c = candidate (slugify (content r)) k).
Proof.
  unfold build_cert.
  pose proof (category_to_domain_valid (default "" (mainCategory r)) (subCategory r))
    as (Hdom & Hsub & Hlen).
  destruct (category_to_domain _ _) as [area subs]. cbn [fst snd] in *.
  destruct (extract_price _) as [[[label usd] conf]|e] eqn:Hprice; [|discriminate].
  apply PriceFacts.extract_price_facts in Hprice as (Hnonneg & _ & Hfew & Hmany).
  pose proof (unique_id_fresh (slugify (content r)) used) as [Hfresh Hused].
  pose proof (unique_id_nonempty (slugify (content r)) used (slugify_nonempty _)) as Hne.
  assert (Hform : (unique_id (slugify (content r)) used).1 = slugify (content r)
                  \/ exists k, 2 <= k
                       /\ (unique_id (slugify (content r)) used).1
                          = candidate (slugify (content r)) k).
  { destruct (decide (slugify (content r) ∈ used)) as [Hin|Hin].
    - destruct (unique_id_taken _ _ Hin) as (k & Hk & -> & _). right. eauto.
    - rewrite (unique_id_free _ _ Hin). now left. }
  destruct (unique_id _ _) as [cid used1]. cbn [fst snd] in *.
  intros [= <- <-]. cbn.
  split; [apply skill_to_level_valid|]. split; [exact Hdom|].
  split; [exact Hsub|]. split; [exact Hlen|]. split.
  { destruct (le_lt_dec (length (normalize_lines (default "" (tooltiptext r)))) 1)
      as [Hl|Hl].
    - destruct (Hfew Hl) as (_ & _ & ->). set_solver.
    - rewrite Hmany by lia. set_solver. }
  split; [exact Hnonneg|].
  split; [apply TableFacts.parse_provider_nonempty|].
  auto.
Qed.

Lemma build_cert_fields_witness :
  level sample_cert ∈ Validator.VALID_LEVELS
  /\ domain_area sample_cert ∈ Validator.VALID_DOMAINS
  /\ sub_areas sample_cert ⊆ Validator.VALID_SUB_AREAS
  /\ length (sub_areas sample_cert) <= 1
  /\ price_confidence sample_cert ∈ Validator.VALID_PRICE_CONFIDENCE
  /\ (0 <= price_usd sample_cert)%Z
  /\ provider sample_cert <> ""
  /\ id sample_cert <> "" /\ (id sample_cert ∉ (∅ : gset string))
  /\ {["comptia-security"]} ∪ ∅ = {[id sample_cert]} ∪ (∅ : gset string)
  /\ (id sample_cert = slugify (content sample_record)
      \/ exists k, 2 <= k
           /\ id sample_cert = candidate (slugify (content sample_record)) k).
Proof.
  apply (build_cert_fields sample_record ∅ ({["comptia-security"]} ∪ ∅) sample_cert).
  vm_compute. reflexivity.
Defined.

End RecordFacts.

(** ** The derived fields *)

Module DerivedFacts.
Import Importer Derived SlugSpec ImportSpec RecordSpec SlugFacts.

#[local] Set Warnings "-clear-no-such-hyp".

Lemma prefix_append (a b : string) : String.prefix a (a ++ b) = true.
Proof.
  induction a as [|c a IH]; [now destruct b|].
  change (String c a ++ b) with (String c (a ++ b)). cbn [String.prefix].
  destruct (ascii_dec c c); [exact IH | congruence].
Qed.

Lemma contains_prefix (a b : string) : String.prefix a b = true -> contains a b = true.
Proof. intros H. destruct b; cbn [contains]; now rewrite H. Qed.

Lemma lower_append (a b : string) : lower (a ++ b) = lower a ++ lower b.
Proof.
  unfold lower. induction a as [|c a IH]; [reflexivity|].
  change (String c a ++ b) with (String c (a ++ b)). cbn [map_chars].
  now rewrite IH.
Qed.

Lemma join_head (sep first : string) (rest : list string) :
  exists tl, join sep (first :: rest) = first ++ tl.
Proof.
  destruct rest as [|second rest].
  - exists "". simpl. now rewrite LineFacts.append_empty.
  - eexists. apply LineFacts.join_cons2.
Qed.

(** X7 -- The description and the legacy tooltip of a built record.  Without
    a tooltip line the description is the raw title, the legacy tooltip is
    empty and the price is the default one.  With tooltip lines the
    description is the first line, which is not empty and has no blank at
    either end, and the legacy tooltip starts with it, so that the tooltip
    contains the description in any case of letters. *)
Theorem build_cert_tooltip (r : raw_record) (used used' : gset string) (c : cert) :
  build_cert r used = Ok (c, used') ->
  (normalize_lines (default "" (tooltiptext r)) = [] ->
   description c = content r /\ tooltip_legacy c = ""
   /\ price_label c = "Price not listed" /\ price_usd c = 0%Z
   /\ price_confidence c = "estimated")
  /\ (normalize_lines (default "" (tooltiptext r)) <> [] ->
      description c <> "" /\ strip (description c) = description c
      /\ String.prefix (description c) (tooltip_legacy c) = true
      /\ contains (lower (description c)) (lower (tooltip_legacy c)) = true).
Proof.
  unfold build_cert.
  pose proof (LineFacts.normalize_lines_clean_lines (default "" (tooltiptext r)))
    as Hclean.
  destruct (category_to_domain _ _) as [area subs].
  destruct (normalize_lines _) as [|first rest] eqn:Hlines.
  - cbn. destruct (unique_id _ _) as [cid used1]. intros [= <- <-]. cbn.
    split; [auto | congruence].
  - destruct (extract_price _) as [[[label usd] conf]|e]; [|discriminate].
    destruct (unique_id _ _) as [cid used1]. intros [= <- <-].
    cbn [description tooltip_legacy price_label price_usd price_confidence].
    split; [congruence|]. intros _.
    apply Forall_inv in Hclean as (Hne & Hstrip & _).
    split; [exact Hne|]. split; [exact Hstrip|].
    destruct (join_head " | " first (take 2 rest)) as [tl Htl].
    assert (Hlegacy : join " | " (take 3 (first :: rest)) = first ++ tl)
      by exact Htl.
    cbn [join take] in Hlegacy |- *. rewrite Hlegacy.
    split; [apply prefix_append|].
    rewrite lower_append. apply contains_prefix, prefix_append.
Qed.

Lemma build_cert_tooltip_witness :
  description sample_cert <> ""
  /\ strip (description sample_cert) = description sample_cert
  /\ String.prefix (description sample_cert) (tooltip_legacy sample_cert) = true
  /\ contains (lower (description sample_cert))
       (lower (tooltip_legacy sample_cert)) = true.
Proof.
  apply (proj2 (build_cert_tooltip sample_record ∅ ({["comptia-security"]} ∪ ∅)
                  sample_cert RecordFacts.sample_cert_built)).
  vm_compute. discriminate.
Defined.

(** *** Lists made by [sorted(set(...))] *)

Lemma sorted_set_spec (xs : list string) :
  StronglySorted str_le (sorted_set xs)
  /\ NoDup (sorted_set xs)
  /\ (forall x, x ∈ sorted_set xs <-> x ∈ xs).
Proof.
  unfold sorted_set. split; [apply sorted_strongly|]. split.
  - rewrite sorted_perm. apply NoDup_elements.
  - intros x. now rewrite sorted_perm, elem_of_elements, elem_of_list_to_set.
Qed.

Lemma sorted_set_nonempty (xs : list string) : xs <> [] -> sorted_set xs <> [].
Proof.
  intros Hne Hnil. destruct xs as [|x xs]; [congruence|].
  assert (Hin : x ∈ sorted_set (x :: xs)) by (apply sorted_set_spec; set_solver).
  rewrite Hnil in Hin. now apply elem_of_nil in Hin.
Qed.

Lemma role_group_valid (cat group : string) :
  lookup_table ROLE_GROUP_MAP cat = Some group ->
  group ∈ Validator.VALID_ROLE_GROUPS.
Proof.
  intros Hl. apply RecordFacts.lookup_table_in in Hl as [k Hin].
  assert (Hall : Forall (fun kv : string * string =>
                           kv.2 ∈ Validator.VALID_ROLE_GROUPS) ROLE_GROUP_MAP)
    by (apply (bool_decide_unpack _); vm_compute; reflexivity).
  rewrite Forall_forall in Hall. apply (Hall _ Hin).
Qed.

(** X8 -- For every primary category and every list of adjacent categories,
    [infer_role_groups] gives a list that is not empty, ascending and without
    duplicates, each member a role group of the validator's enumeration. *)
Theorem infer_role_groups_valid (main_cat : string) (adjacent : list string) :
  infer_role_groups main_cat adjacent <> []
  /\ StronglySorted str_le (infer_role_groups main_cat adjacent)
  /\ NoDup (infer_role_groups main_cat adjacent)
  /\ (forall group, group ∈ infer_role_groups main_cat adjacent ->
        group ∈ Validator.VALID_ROLE_GROUPS).
Proof.
  unfold infer_role_groups.
  set (groups := (_ ++ _)%list).
  assert (Hvalid : forall group, group ∈ groups -> group ∈ Validator.VALID_ROLE_GROUPS).
  { intros group Hin. unfold groups in Hin. apply elem_of_app in Hin as [Hin|Hin].
    - destruct (lookup_table ROLE_GROUP_MAP main_cat) as [g|] eqn:Hl;
        [|now apply elem_of_nil in Hin].
      apply list_elem_of_singleton in Hin as ->. now apply role_group_valid with main_cat.
    - apply list_elem_of_In, in_flat_map in Hin as (cat & _ & Hin).
      destruct (lookup_table ROLE_GROUP_MAP cat) as [g|] eqn:Hl; [|inversion Hin].
      destruct Hin as [<-|[]]. now apply role_group_valid with cat. }
  destruct groups as [|g groups'] eqn:Hg.
  - split; [discriminate|]. split; [repeat constructor|].
    split; [repeat constructor; set_solver|].
    intros group Hin. apply list_elem_of_singleton in Hin as ->.
    apply (bool_decide_unpack _). vm_compute. reflexivity.
  - destruct (sorted_set_spec (g :: groups')) as (Hs & Hnd & Hmem).
    split; [apply sorted_set_nonempty; discriminate|].
    split; [exact Hs|]. split; [exact Hnd|].
    intros group Hin. apply Hvalid, Hmem, Hin.
Qed.

Lemma table_slugs (table : list (string * string)) :
  forallb (fun kv => valid_slug kv.2) table = true ->
  forall key v, lookup_table table key = Some v -> valid_slug v = true.
Proof.
  intros Hall key v Hl. apply RecordFacts.lookup_table_in in Hl as [k Hin].
  rewrite forallb_forall in Hall. apply list_elem_of_In in Hin.
  apply (Hall _ Hin).
Qed.

Lemma table_slug_lists (table : list (string * list string)) :
  forallb (fun kv => forallb valid_slug kv.2) table = true ->
  forall key vs v, lookup_table table key = Some vs -> v ∈ vs -> valid_slug v = true.
Proof.
  intros Hall key vs v Hl Hv. apply RecordFacts.lookup_table_in in Hl as [k Hin].
  rewrite forallb_forall in Hall. apply list_elem_of_In in Hin.
  specialize (Hall _ Hin). simpl in Hall. rewrite forallb_forall in Hall.
  apply Hall. now apply list_elem_of_In.
Qed.

Lemma track_map_slugs : forallb (fun kv => valid_slug kv.2) track_map = true.
Proof. vm_compute. reflexivity. Qed.

Lemma sub_track_map_slugs : forallb (fun kv => valid_slug kv.2) sub_track_map = true.
Proof. vm_compute. reflexivity. Qed.

Lemma area_roles_slugs :
  forallb (fun kv => forallb valid_slug kv.2) AREA_TO_ROLE = true.
Proof. vm_compute. reflexivity. Qed.

Lemma subarea_roles_slugs :
  forallb (fun kv => forallb valid_slug kv.2) SUBAREA_TO_ROLE = true.
Proof. vm_compute. reflexivity. Qed.

(** X9 -- The tracks, the roles and the tags of a record are lists that are
    not empty, ascending and without duplicates, and each member is a valid
    slug, whatever the domain area, the sub-areas and the category codes. *)
Theorem derived_slug_lists (main_cat area : string) (sub_cat : option string)
  (adjacent sub_areas : list string) :
  Forall (fun l : list string =>
            l <> [] /\ StronglySorted str_le l /\ NoDup l
            /\ Forall (fun x => valid_slug x = true) l)
    [ infer_tracks area sub_areas;
      infer_roles area sub_areas;
      infer_tags main_cat sub_cat adjacent area sub_areas ].
Proof.
  assert (Hset : forall xs, xs <> [] -> Forall (fun x => valid_slug x = true) xs ->
                 sorted_set xs <> [] /\ StronglySorted str_le (sorted_set xs)
                 /\ NoDup (sorted_set xs)
                 /\ Forall (fun x => valid_slug x = true) (sorted_set xs)).
  { intros xs Hne Hall. destruct (sorted_set_spec xs) as (Hs & Hnd & Hmem).
    split; [now apply sorted_set_nonempty|]. split; [exact Hs|].
    split; [exact Hnd|]. rewrite Forall_forall in *.
    intros x Hx. apply Hall, Hmem, Hx. }
  assert (Htrack : forall table key, forallb (fun kv => valid_slug kv.2) table = true ->
                   valid_slug (default (slugify key) (lookup_table table key)) = true).
  { intros table key Htable. destruct (lookup_table table key) as [v|] eqn:Hl.
    - exact (table_slugs table Htable key v Hl).
    - apply slugify_valid. }
  constructor; [|constructor; [|constructor; [|constructor]]].
  - unfold infer_tracks. apply Hset; [discriminate|].
    constructor; [apply Htrack, track_map_slugs|].
    apply Forall_forall. intros x Hx.
    apply list_elem_of_In, in_map_iff in Hx as (sub & <- & _).
    apply Htrack, sub_track_map_slugs.
  - unfold infer_roles. apply Hset.
    + destruct (lookup_table AREA_TO_ROLE area) as [roles|] eqn:Hl; [|discriminate].
      apply RecordFacts.lookup_table_in in Hl as [k Hin].
      assert (Hall : Forall (fun kv : string * list string => kv.2 <> [])
                            AREA_TO_ROLE)
        by (unfold AREA_TO_ROLE; repeat constructor; discriminate).
      rewrite Forall_forall in Hall. specialize (Hall _ Hin). simpl in *.
      now destruct roles.
    + apply Forall_app. split.
      * destruct (lookup_table AREA_TO_ROLE area) as [roles|] eqn:Hl.
        -- apply Forall_forall. intros x Hx.
           now apply (table_slug_lists AREA_TO_ROLE area_roles_slugs area roles).
        -- constructor; [vm_compute; reflexivity | constructor].
      * apply Forall_forall. intros x Hx.
        apply list_elem_of_In, in_flat_map in Hx as (sub & _ & Hx).
        destruct (lookup_table SUBAREA_TO_ROLE sub) as [roles|] eqn:Hl; [|inversion Hx].
        apply (table_slug_lists SUBAREA_TO_ROLE subarea_roles_slugs sub roles); [exact Hl|].
        now apply list_elem_of_In.
  - unfold infer_tags. apply Hset.
    + destruct sub_cat as [sub|]; [destruct (is_empty sub)|]; discriminate.
    + assert (Hmap : forall ys, Forall (fun x => valid_slug x = true) (map slugify ys)).
      { intros ys. apply Forall_forall. intros x Hx.
        apply list_elem_of_In, in_map_iff in Hx as (y & <- & _). apply slugify_valid. }
      apply Forall_app_2; [apply Forall_app_2|]; try apply Hmap.
      destruct sub_cat as [sub|]; [destruct (is_empty sub)|];
        repeat (constructor; [apply slugify_valid|]); constructor.
Qed.

(** X10 -- The prerequisites read from a tooltip: the list is never empty,
    every entry is a non-empty text without a blank at either end, and the
    list is either the one default entry or a sub-list, in the tooltip's
    order, of the lines after the first. *)
Theorem infer_prereqs_entries (tooltip : string) :
  let lines := normalize_lines tooltip in
  infer_prereqs lines <> []
  /\ Forall (fun p => p <> "" /\ strip p = p) (infer_prereqs lines)
  /\ (infer_prereqs lines = ["See provider requirements"]
      \/ (sublist (infer_prereqs lines) (tail lines)
          /\ Forall (fun p => (contains "require" (lower p)
                               || contains "prereq" (lower p)
                               || contains "recommended" (lower p)) = true)
                    (infer_prereqs lines))).
Proof.
  intros lines. unfold infer_prereqs.
  pose proof (LineFacts.normalize_lines_clean_lines tooltip) as Hclean.
  fold lines in Hclean.
  set (keep := fun line : string => _).
  assert (Htail : Forall (fun p => p <> "" /\ strip p = p) (List.filter keep (tail lines))).
  { apply Forall_forall. intros p Hp.
    apply list_elem_of_In, filter_In in Hp as [Hp _].
    assert (Hin : In p lines) by (destruct lines; [inversion Hp | now right]).
    rewrite Forall_forall in Hclean.
    apply list_elem_of_In, Hclean in Hin as (Hne & Hstrip & _). now split. }
  destruct (List.filter keep (tail lines)) as [|p out] eqn:Hf.
  - split; [discriminate|]. split; [|now left].
    constructor; [|constructor]. split; [discriminate | vm_compute; reflexivity].
  - split; [discriminate|]. split; [exact Htail|]. right. split.
    + rewrite <- Hf. clear. induction (tail lines) as [|x xs IH]; simpl.
      * constructor.
      * destruct (keep x); [now constructor | now constructor].
    + rewrite <- Hf. apply Forall_forall. intros x Hx.
      now apply list_elem_of_In, filter_In in Hx as [_ Hx].
Qed.

(** *** Keywords *)

Lemma lower_join (sep : string) (parts : list string) :
  lower (join sep parts) = join (lower sep) (map lower parts).
Proof.
  induction parts as [|w ws IH]; [reflexivity|].
  destruct ws as [|w' ws]; [reflexivity|].
  rewrite LineFacts.join_cons2, !lower_append, IH. reflexivity.
Qed.

(** X17 -- The keyword searches do not look at the case of letters: the
    delivery format depends on the tooltip lines through their lowercase
    forms only, and the AI focus on the code, the title, the summary and the
    tags through their lowercase forms only. *)
Theorem keywords_case_blind :
  (forall lines lines',
     map lower lines = map lower lines' ->
     infer_delivery lines = infer_delivery lines')
  /\ (forall cert_code cert_code' title title' summary summary' tags tags',
        lower cert_code = lower cert_code' -> lower title = lower title' ->
        lower summary = lower summary' -> map lower tags = map lower tags' ->
        infer_ai_focus cert_code title summary tags
        = infer_ai_focus cert_code' title' summary' tags').
Proof.
  split.
  - intros lines lines' H. unfold infer_delivery.
    now rewrite !lower_join, H.
  - intros c c' t t' s s' tags tags' Hc Ht Hs Htags. unfold infer_ai_focus.
    now rewrite !lower_append, !lower_join, Hc, Ht, Hs, Htags.
Qed.

End DerivedFacts.

(** ** The importer's catalog read by the rebuilder *)

Module CatalogFacts.
Import Importer ImportSpec CatalogSpec ImportFacts.

#[local] Set Warnings "-clear-no-such-hyp".

Lemma filter_sublist {A} (p : A -> bool) (l : list A) : sublist (List.filter p l) l.
Proof.
  induction l as [|x l IH]; simpl; [constructor|].
  destruct (p x); now constructor.
Qed.

(** Every value in use is in [order]: the list is [order] restricted to the
    values in use. *)
Lemma ordered_known (order : list string) (present : gset string) :
  (forall x, x ∈ present -> x ∈ order) ->
  Rebuilder.ordered order present
  = List.filter (fun x => bool_decide (x ∈ present)) order.
Proof.
  intros Hsub. unfold Rebuilder.ordered.
  assert (Hnone : present ∖ list_to_set order = (∅ : gset string)).
  { apply set_eq. intros x. rewrite elem_of_difference, elem_of_list_to_set.
    split; [intros [Hx Hn]; destruct Hn; auto | intros Hx; now apply elem_of_empty in Hx]. }
  rewrite Hnone, elements_empty. apply app_nil_r.
Qed.

Lemma valid_domains_layout (d : string) :
  d ∈ Validator.VALID_DOMAINS -> d ∈ DOMAIN_LAYOUT.
Proof.
  assert (H : Validator.VALID_DOMAINS ⊆ DOMAIN_LAYOUT)
    by (apply (bool_decide_unpack _); vm_compute; reflexivity).
  apply H.
Qed.

Lemma valid_sub_areas_layout (s : string) :
  s ∈ Validator.VALID_SUB_AREAS -> s ∈ SUBAREA_LAYOUT.
Proof.
  assert (H : Validator.VALID_SUB_AREAS ⊆ SUBAREA_LAYOUT)
    by (apply (bool_decide_unpack _); vm_compute; reflexivity).
  apply H.
Qed.

Lemma build_all_areas (source : list raw_record) :
  forall used certs used',
    build_all source used = Ok (certs, used') -> Forall areas_listed certs.
Proof.
  induction source as [|r source IH]; intros used certs used'; simpl.
  - intros [= <- _]. constructor.
  - destruct (build_cert r used) as [[c used1]|e] eqn:Hc; [|discriminate].
    destruct (build_all source used1) as [[cs used2]|e] eqn:Hcs; [|discriminate].
    intros [= <- _]. constructor; [|now apply (IH used1 cs used2)].
    apply RecordFacts.build_cert_areas in Hc.
    pose proof (RecordFacts.category_to_domain_valid
                  (default "" (mainCategory r)) (subCategory r)) as (Hd & Hs & _).
    rewrite <- Hc in Hd, Hs. cbn [fst snd] in Hd, Hs. split.
    + now apply valid_domains_layout.
    + intros s Hin. now apply valid_sub_areas_layout, Hs.
Qed.

Lemma rename_all_areas (certs : list cert) :
  Forall areas_listed certs ->
  forall used, Forall areas_listed (rename_all certs used).1.
Proof.
  induction 1 as [|c certs Hc Hrest IH]; intros used; simpl; [constructor|].
  destruct (unique_id (id c) used) as [cid used1].
  specialize (IH used1). destruct (rename_all certs used1) as [output used2].
  simpl in *. constructor; [exact Hc | exact IH].
Qed.

Lemma extras_areas : Forall areas_listed extras.
Proof.
  unfold extras, areas_listed.
  repeat (apply List.Forall_cons;
          [split; apply (bool_decide_unpack _); vm_compute; reflexivity|]).
  apply List.Forall_nil.
Qed.

Lemma certifications_areas (source : list raw_record) (certs : list cert) :
  certifications source = Ok certs -> Forall areas_listed certs.
Proof.
  unfold certifications, build_extra_ai_certs.
  destruct (build_all source ∅) as [[imported used]|e] eqn:Hb; [|discriminate].
  pose proof (rename_all_areas extras extras_areas used) as Hren.
  destruct (rename_all extras used) as [renamed used2]. cbn [fst] in *.
  intros [= <-]. apply Forall_app_2; [|exact Hren].
  now apply (build_all_areas source ∅ imported used).
Qed.

(** The directory written holds one file per record, under its file name. *)
Lemma write_all_files (certs : list cert) :
  NoDup (filename_of <$> certs) ->
  map_to_list (write_all ∅ certs) ≡ₚ (fun c => (filename_of c, c)) <$> certs.
Proof.
  intros Hnd.
  assert (Hkeys : ((fun c => (filename_of c, c)) <$> certs).*1 = filename_of <$> certs).
  { rewrite <- list_fmap_compose. reflexivity. }
  assert (Heq : write_all ∅ certs
                = list_to_map ((fun c => (filename_of c, c)) <$> certs)).
  { apply map_eq. intros key.
    destruct (decide (key ∈ filename_of <$> certs)) as [Hin|Hout].
    - apply list_elem_of_fmap in Hin as (c & -> & Hc).
      rewrite (write_all_lookup certs ∅ c Hnd Hc). symmetry.
      apply elem_of_list_to_map; [now rewrite Hkeys|].
      apply list_elem_of_fmap. now exists c.
    - rewrite (write_all_other certs ∅ key Hout), lookup_empty. symmetry.
      apply not_elem_of_list_to_map. now rewrite Hkeys. }
  rewrite Heq. apply map_to_list_to_map. now rewrite Hkeys.
Qed.

Lemma read_back_files (certs : list cert) :
  NoDup (filename_of <$> certs) ->
  map_to_list (read_back <$> write_all ∅ certs)
  ≡ₚ (fun c => (filename_of c, read_back c)) <$> certs.
Proof.
  intros Hnd. rewrite map_to_list_fmap, (write_all_files certs Hnd).
  rewrite <- list_fmap_compose. reflexivity.
Qed.

(** X11 -- The index of a completed import is the one the rebuilder gives
    for the files written: the rebuilder, run on any day over the directory
    the importer wrote, lists the same certification files in the same
    order, one per raw record and per extra record; its domain and sub-area
    lists hold no value beyond the importer's fixed lists and keep their
    order. *)
Theorem import_then_rebuild (source : list raw_record) (today : string) :
  Forall (fun r => priced r = true) source ->
  exists out,
    main source = Ok out
    /\ Rebuilder.certifications (Rebuilder.main today (read_back <$> written out))
       = index_certifications (catalog_index out)
    /\ length (index_certifications (catalog_index out))
       = (length source + length extras)%nat
    /\ sublist (Rebuilder.domains (Rebuilder.main today (read_back <$> written out)))
               (domains (catalog_index out))
    /\ sublist (Rebuilder.index_sub_areas
                  (Rebuilder.main today (read_back <$> written out)))
               (index_sub_areas (catalog_index out)).
Proof.
  intros Hp.
  destruct (certifications_ok source Hp)
    as (imported & renamed & Hrun & Hnd & _ & Himp & Hext).
  pose proof (certifications_areas source _ Hrun) as Hareas.
  set (certs := (imported ++ renamed)%list) in *.
  apply filenames_NoDup in Hnd.
  unfold main. rewrite Hrun. eexists. split; [reflexivity|].
  cbn [written catalog_index index_certifications domains index_sub_areas].
  set (listing := (fun c => (filename_of c, read_back c)) <$> certs).
  destruct (RebuilderFacts.rebuild_listing today today (read_back <$> write_all ∅ certs)
              listing) as (Hdom & Hsub & Hfiles).
  { symmetry. now apply read_back_files. }
  rewrite <- Hdom, <- Hsub, <- Hfiles. clear Hdom Hsub Hfiles.
  assert (Hnames : listing.*1 = filename_of <$> certs).
  { unfold listing. rewrite <- list_fmap_compose. reflexivity. }
  unfold Rebuilder.rebuild. rewrite RebuilderFacts.collect_areas_sets.
  cbn [Rebuilder.certifications Rebuilder.domains Rebuilder.index_sub_areas].
  split; [|split; [|split]].
  - rewrite sort_files_names, Hnames. reflexivity.
  - rewrite sorted_perm, length_map. unfold certs.
    rewrite length_app. apply Forall2_length in Himp, Hext. lia.
  - rewrite ordered_known; [apply filter_sublist|].
    intros d Hd. apply elem_of_list_to_set, list_elem_of_fmap in Hd as (kv & -> & Hkv).
    rewrite sort_files_perm in Hkv.
    apply list_elem_of_fmap in Hkv as (c & -> & Hc).
    rewrite Forall_forall in Hareas. now apply Hareas in Hc as [Hc _].
  - rewrite ordered_known; [apply filter_sublist|].
    intros s Hs. apply elem_of_list_to_set, list_elem_of_In, in_flat_map in Hs
      as (kv & Hkv & Hs).
    apply list_elem_of_In in Hkv. rewrite sort_files_perm in Hkv.
    apply list_elem_of_fmap in Hkv as (c & -> & Hc).
    rewrite Forall_forall in Hareas. apply Hareas in Hc as [_ Hc].
    apply Hc. now apply list_elem_of_In.
Qed.

Lemma import_then_rebuild_witness :
  exists out,
    main [sample_record; sample_record] = Ok out
    /\ Rebuilder.certifications
         (Rebuilder.main "2026-03-01" (read_back <$> written out))
       = index_certifications (catalog_index out)
    /\ length (index_certifications (catalog_index out))
       = (length [sample_record; sample_record] + length extras)%nat
    /\ sublist (Rebuilder.domains
                  (Rebuilder.main "2026-03-01" (read_back <$> written out)))
               (domains (catalog_index out))
    /\ sublist (Rebuilder.index_sub_areas
                  (Rebuilder.main "2026-03-01" (read_back <$> written out)))
               (index_sub_areas (catalog_index out)).
Proof.
  apply (import_then_rebuild [sample_record; sample_record] "2026-03-01").
  repeat constructor.
Defined.

End CatalogFacts.

(** ** Catalogs the validator accepts *)

Module AcceptedFacts.
Import Validator ValidatorSpec ValidatorFacts.

#[local] Set Warnings "-clear-no-such-hyp".

Section Accepted.

Variable repr : value -> string.

Lemma when_fail_clean (b : bool) (message : string) (u : unit) :
  when b (fail message) = Ok (u, []) -> b = false.
Proof. destruct b; [discriminate | reflexivity]. Qed.

(** A run that leaves no message: every step of it leaves none. *)
Local Ltac clean_run :=
  repeat match goal with
         | H : _ ≫= _ = Ok _ |- _ =>
             let a := fresh "a" in
             let l1 := fresh "log" in
             let l2 := fresh "log" in
             let H1 := fresh "Hrun" in
             let H2 := fresh "Hrest" in
             let H3 := fresh "Hlog" in
             apply bind_ok in H as (a & l1 & l2 & H1 & H2 & H3)
         | H : mret _ = Ok _ |- _ => apply ret_ok in H as [? ?]
         | H : [] = (_ ++ _)%list |- _ =>
             symmetry in H; apply app_eq_nil in H as [? ?]
         | H : (_ ++ _)%list = [] |- _ => apply app_eq_nil in H as [? ?]
         | H : ?x = [] |- _ => is_var x; subst x
         | H : ?x = ?y |- _ => is_var x; is_var y; subst x
         | H : when _ (fail _) = Ok (_, []) |- _ => apply when_fail_clean in H
         | u : unit |- _ => destruct u
         end.

Lemma check_file_clean (name : string) (payload : value) (seen seen' : gset string) :
  check_file repr name payload seen = Ok (seen', []) ->
  exists items,
    payload = VDict items
    /\ check_keys name items = Ok (tt, [])
    /\ check_id repr name items seen = Ok (seen', [])
    /\ check_member repr name "domain_area" VALID_DOMAINS items = Ok (tt, [])
    /\ check_sub_areas repr name items = Ok (tt, [])
    /\ check_role_groups repr name items = Ok (tt, [])
    /\ check_member repr name "level" VALID_LEVELS items = Ok (tt, [])
    /\ check_member repr name "status" VALID_STATUS items = Ok (tt, [])
    /\ check_types name items = Ok (tt, [])
    /\ check_texts repr name items = Ok (tt, [])
    /\ check_tooltip repr name items = Ok (tt, [])
    /\ check_price repr name items = Ok (tt, []).
Proof.
  destruct payload as [| | | | | | |items]; unfold check_file; intros H;
    clean_run; try discriminate.
  exists items. repeat split; assumption.
Qed.

Lemma check_keys_clean (name : string) (items : list (string * value)) :
  check_keys name items = Ok (tt, []) ->
  forall key, key ∈ REQUIRED_KEYS -> has_key items key = true.
Proof.
  unfold check_keys. cbv zeta. intros H key Hkey.
  destruct (sorted (List.filter (fun key => negb (has_key items key)) REQUIRED_KEYS))
    as [|m ms] eqn:Hs; [|discriminate H].
  assert (Hf : List.filter (fun key => negb (has_key items key)) REQUIRED_KEYS = []).
  { apply Permutation_nil_r. rewrite <- Hs. symmetry. apply sorted_perm. }
  destruct (has_key items key) eqn:Hk; [reflexivity|].
  assert (Hin : In key (List.filter (fun key => negb (has_key items key)) REQUIRED_KEYS)).
  { apply filter_In. split; [now apply list_elem_of_In | now rewrite Hk]. }
  rewrite Hf in Hin. destruct Hin.
Qed.

Lemma check_id_clean (name : string) (items : list (string * value))
  (seen seen' : gset string) :
  check_id repr name items seen = Ok (seen', []) ->
  py_str repr (dict_get items "id" (VStr "")) = stem name
  /\ (py_str repr (dict_get items "id" (VStr "")) ∉ seen)
  /\ seen' = {[py_str repr (dict_get items "id" (VStr ""))]} ∪ seen.
Proof.
  unfold check_id. cbv zeta. intros H. clean_run.
  apply negb_false_iff, String.eqb_eq in Hrun.
  apply bool_decide_eq_false in Hrun0. auto.
Qed.

Lemma check_member_clean (name key : string) (allowed : list string)
  (items : list (string * value)) :
  check_member repr name key allowed items = Ok (tt, []) ->
  exists s, dict_get items key VNone = VStr s /\ s ∈ allowed.
Proof.
  unfold check_member. intros H. clean_run.
  apply negb_false_iff in Hrest. subst.
  destruct (dict_get items key VNone) as [| | | |s| | |]; try discriminate Hrun.
  injection Hrun as Hin. apply bool_decide_eq_true in Hin. eauto.
Qed.

Lemma strings_inj (xs ys : list string) : VStr <$> xs = VStr <$> ys -> xs = ys.
Proof.
  revert ys. induction xs as [|x xs IH]; intros [|y ys]; simpl;
    try discriminate; [reflexivity|].
  intros [= -> H]. f_equal. now apply IH.
Qed.

(** A loop that tests every element against a set of strings and leaves no
    message: every element is a string of the set. *)
Lemma for_each_clean (xs : list value) (S : list string) (msg : value -> string) :
  for_each xs (fun x => ok ← lift (in_strings x S); when (negb ok) (fail (msg x)))
  = Ok (tt, []) ->
  exists ss, xs = VStr <$> ss /\ ss ⊆ S.
Proof.
  induction xs as [|x xs IH]; cbn [for_each]; intros H.
  - exists []. split; [reflexivity|]. intros s Hs. now apply elem_of_nil in Hs.
  - apply bind_ok in H as ([] & l1 & l2 & Hx & Hxs & Hlog).
    symmetry in Hlog. apply app_eq_nil in Hlog as [-> ->].
    destruct (IH Hxs) as (ss & -> & Hss). clean_run.
    apply negb_false_iff in Hrest. subst.
    destruct x as [| | | |s| | |]; try discriminate Hrun.
    injection Hrun as Hin. apply bool_decide_eq_true in Hin.
    exists (s :: ss). split; [reflexivity|].
    intros s' Hs'. apply elem_of_cons in Hs' as [->|Hs']; auto.
Qed.

Lemma check_sub_areas_clean (name : string) (items : list (string * value)) :
  check_sub_areas repr name items = Ok (tt, []) ->
  exists subs allowed,
    dict_get items "sub_areas" VNone = VList (VStr <$> subs)
    /\ subs ⊆ VALID_SUB_AREAS
    /\ allowed_for (dict_get items "domain_area" VNone) = Ok allowed
    /\ subs ⊆ allowed.
Proof.
  unfold check_sub_areas. intros H.
  destruct (dict_get items "sub_areas" VNone) as [| | | | | |xs|];
    try discriminate H.
  apply bind_ok in H as ([] & l1 & l2 & Hfirst & H & Hlog).
  symmetry in Hlog. apply app_eq_nil in Hlog as [-> ->].
  apply (for_each_clean xs VALID_SUB_AREAS
           (fun x => name ++ ": invalid sub_area '" ++ py_str repr x ++ "'"))
    in Hfirst as (subs & -> & Hvalid).
  cbv zeta in H.
  apply bind_ok in H as (allowed & l1 & l2 & Hallowed & H & Hlog).
  symmetry in Hlog. apply app_eq_nil in Hlog as [-> ->].
  exists subs, allowed. split; [reflexivity|]. split; [exact Hvalid|].
  split; [now destruct (allowed_for _) as [a|e]; [injection Hallowed as -> | ]|].
  destruct (nonempty allowed) eqn:Hne.
  - apply (for_each_clean _ allowed
             (fun x => name ++ ": sub_area '" ++ py_str repr x
                       ++ "' is incompatible with domain_area '"
                       ++ py_str repr (dict_get items "domain_area" VNone) ++ "'"))
      in H as (subs' & Heq & Hsub).
    apply strings_inj in Heq. now subst.
  - apply when_fail_clean in H. destruct subs; [|discriminate H].
    intros s Hs. now apply elem_of_nil in Hs.
Qed.

Lemma check_role_groups_clean (name : string) (items : list (string * value)) :
  check_role_groups repr name items = Ok (tt, []) ->
  exists groups,
    dict_get items "role_groups" VNone = VList (VStr <$> groups)
    /\ groups <> []
    /\ groups ⊆ VALID_ROLE_GROUPS.
Proof.
  unfold check_role_groups. intros H.
  destruct (dict_get items "role_groups" VNone) as [| | | | | |xs|];
    try discriminate H.
  destruct xs as [|x xs]; [discriminate H|].
  apply (for_each_clean (x :: xs) VALID_ROLE_GROUPS
           (fun x => name ++ ": invalid role_group '" ++ py_str repr x ++ "'"))
    in H as (groups & Heq & Hvalid).
  exists groups. rewrite Heq. split; [reflexivity|]. split; [|exact Hvalid].
  intros ->. discriminate Heq.
Qed.

Lemma check_types_clean (name : string) (items : list (string * value)) :
  check_types name items = Ok (tt, []) ->
  is_bool (dict_get items "ai_focus" VNone) = true
  /\ is_int (dict_get items "introduced_year" VNone) = true
  /\ is_int (dict_get items "price_usd" VNone) = true
  /\ exists price,
       py_int (dict_get items "price_usd" VNone) = Ok price /\ (0 <= price)%Z.
Proof.
  unfold check_types. intros H.
  apply bind_ok in H as ([] & l1 & l2 & Hai & H & Hlog).
  symmetry in Hlog. apply app_eq_nil in Hlog as [-> ->].
  apply bind_ok in H as ([] & l1 & l2 & Hyear & H & Hlog).
  symmetry in Hlog. apply app_eq_nil in Hlog as [-> ->].
  apply when_fail_clean, negb_false_iff in Hai, Hyear.
  destruct (is_int (dict_get items "price_usd" VNone)) eqn:Hint;
    [|discriminate H].
  cbn [negb] in H. clean_run.
  split; [exact Hai|]. split; [exact Hyear|]. split; [reflexivity|].
  exists a. split.
  - now destruct (py_int _) as [p|e]; [injection Hrun as -> | ].
  - apply Z.ltb_ge in Hrest. exact Hrest.
Qed.

Lemma check_texts_clean (name : string) (items : list (string * value)) :
  check_texts repr name items = Ok (tt, []) ->
  is_empty (text_of repr items "description") = false
  /\ is_empty (text_of repr items "price_label") = false
  /\ py_str repr (dict_get items "price_confidence" (VStr ""))
     ∈ VALID_PRICE_CONFIDENCE
  /\ url_re_match (text_of repr items "url") = true
  /\ (exists ymd, iso_date_re_match (text_of repr items "last_updated") = Some ymd
                  /\ valid_calendar_date ymd = true)
  /\ is_empty (text_of repr items "summary") = false.
Proof.
  unfold check_texts. cbv zeta. intros H. clean_run.
  apply negb_false_iff in Hrun1, Hrun2. apply bool_decide_eq_true in Hrun1.
  repeat (split; [assumption|]). split; [|assumption].
  destruct (iso_date_re_match _) as [ymd|]; [|discriminate Hrun3].
  apply when_fail_clean, negb_false_iff in Hrun3. eauto.
Qed.

Lemma check_tooltip_clean (name : string) (items : list (string * value)) :
  check_tooltip repr name items = Ok (tt, []) ->
  is_empty (text_of repr items "tooltip_legacy") = false
  /\ (negb (is_empty (text_of repr items "name"))
      && contains (lower (text_of repr items "name"))
           (lower (text_of repr items "tooltip_legacy"))
      || negb (is_empty (text_of repr items "cert_code"))
         && contains (lower (text_of repr items "cert_code"))
              (lower (text_of repr items "tooltip_legacy"))
      || negb (is_empty (text_of repr items "description"))
         && contains (lower (text_of repr items "description"))
              (lower (text_of repr items "tooltip_legacy"))) = true.
Proof.
  unfold check_tooltip. cbv zeta. intros H.
  destruct (is_empty (text_of repr items "tooltip_legacy")); [discriminate H|].
  split; [reflexivity|]. apply when_fail_clean in H. revert H.
  repeat match goal with |- context [negb (is_empty ?t) && contains ?a ?b] =>
           destruct (negb (is_empty t) && contains a b)
         end; try reflexivity; discriminate.
Qed.

Lemma check_price_clean (name : string) (items : list (string * value)) :
  check_price repr name items = Ok (tt, []) ->
  exists price,
    py_int (dict_get items "price_usd" (VInt 0)) = Ok price
    /\ (price = 0%Z ->
        (has_digit (text_of repr items "price_label")
         || contains "$" (text_of repr items "price_label")) = true ->
        has_marker (text_of repr items "price_label") = true)
    /\ ((0 < price)%Z -> has_digit (text_of repr items "price_label") = true)
    /\ (contains "free" (lower (text_of repr items "price_label")) = true ->
        price = 0%Z).
Proof.
  destruct (py_int (dict_get items "price_usd" (VInt 0))) as [price|e] eqn:Hp;
    [|unfold check_price; rewrite Hp; intros H; discriminate H].
  rewrite (price_log repr name items price Hp). cbv zeta. intros H.
  exists price. split; [reflexivity|].
  generalize dependent (has_marker (text_of repr items "price_label")).
  generalize dependent (contains "free" (lower (text_of repr items "price_label"))).
  generalize dependent (contains "$" (text_of repr items "price_label")).
  generalize dependent (has_digit (text_of repr items "price_label")).
  intros digit dollar free marker H.
  destruct (Z.eqb_spec price 0) as [Hz|Hne], (Z.ltb_spec 0 price) as [Hpos|Hneg],
    digit, dollar, free, marker; simpl in H; try discriminate H;
    repeat split; intros; try reflexivity; try congruence; try lia.
Qed.

(** *** Accepted catalogs *)

Lemma main_accepts (dir : gmap string value) (o : outcome) :
  main repr dir = Ok o -> returned o = 0%Z ->
  collect repr dir = Ok (tt, [])
  /\ printed o = [ "Catalog validation passed for "
                   ++ dec_nat (length (sorted_files dir)) ++ " file(s)." ].
Proof.
  unfold main. destruct (collect repr dir) as [[[] errors]|e]; [|discriminate].
  destruct errors as [|m errors]; cbn [nonempty]; intros [= <-]; cbn [returned printed].
  - auto.
  - discriminate.
Qed.

Lemma accepted_file (dir : gmap string value) (name : string) (payload : value) :
  collect repr dir = Ok (tt, []) ->
  dir !! name = Some payload ->
  exists seen seen',
    check_file repr name payload seen = Ok (seen', [])
    /\ (forall n items, dir !! n = Some (VDict items) -> n <> name ->
          str_le n name -> py_str repr (dict_get items "id" (VStr "")) ∈ seen).
Proof.
  intros Hrun Hname.
  destruct (collect_at repr dir name payload [] Hname Hrun)
    as (seen & seen' & log & Hfile & Hsub & Hids).
  exists seen, seen'. split; [|exact Hids].
  destruct log as [|m log]; [exact Hfile|].
  exfalso. apply (elem_of_nil m), Hsub. now left.
Qed.

Lemma accepted_checks (dir : gmap string value) (o : outcome) (name : string)
  (items : list (string * value)) :
  main repr dir = Ok o -> returned o = 0%Z ->
  dir !! name = Some (VDict items) ->
  check_member repr name "domain_area" VALID_DOMAINS items = Ok (tt, [])
  /\ check_sub_areas repr name items = Ok (tt, [])
  /\ check_role_groups repr name items = Ok (tt, [])
  /\ check_member repr name "level" VALID_LEVELS items = Ok (tt, [])
  /\ check_member repr name "status" VALID_STATUS items = Ok (tt, [])
  /\ check_types name items = Ok (tt, [])
  /\ check_texts repr name items = Ok (tt, [])
  /\ check_tooltip repr name items = Ok (tt, [])
  /\ check_price repr name items = Ok (tt, []).
Proof.
  intros Hmain Hzero Hname.
  destruct (main_accepts dir o Hmain Hzero) as [Hrun _].
  destruct (accepted_file dir name _ Hrun Hname) as (seen & seen' & Hfile & _).
  apply check_file_clean in Hfile as (items' & [= <-] & _ & _ & H).
  exact H.
Qed.

(** X12 -- A catalog the validator accepts ([main] returns 0): it is not
    empty, the one line printed gives the number of its files, every file
    holds a mapping that has all the required keys and whose [id], as
    [str] gives it, is the stem of the file name, and no two files carry the
    same [id]. *)
Theorem accepted_identity (dir : gmap string value) (o : outcome) :
  main repr dir = Ok o -> returned o = 0%Z ->
  dir <> ∅
  /\ printed o = [ "Catalog validation passed for " ++ dec_nat (size dir)
                   ++ " file(s)." ]
  /\ (forall name payload, dir !! name = Some payload ->
        exists items,
          payload = VDict items
          /\ (forall key, key ∈ REQUIRED_KEYS -> has_key items key = true)
          /\ py_str repr (dict_get items "id" (VStr "")) = stem name)
  /\ (forall name1 name2 items1 items2,
        dir !! name1 = Some (VDict items1) -> dir !! name2 = Some (VDict items2) ->
        name1 <> name2 ->
        py_str repr (dict_get items1 "id" (VStr ""))
        <> py_str repr (dict_get items2 "id" (VStr ""))).
Proof.
  intros Hmain Hzero.
  destruct (main_accepts dir o Hmain Hzero) as [Hrun Hprinted].
  assert (Hlater : forall name1 name2 items1 items2,
             dir !! name1 = Some (VDict items1) -> dir !! name2 = Some (VDict items2) ->
             name1 <> name2 -> str_le name1 name2 ->
             py_str repr (dict_get items1 "id" (VStr ""))
             <> py_str repr (dict_get items2 "id" (VStr ""))).
  { intros name1 name2 items1 items2 H1 H2 Hne Hle Heq.
    destruct (accepted_file dir name2 _ Hrun H2) as (seen & seen' & Hfile & Hids).
    apply check_file_clean in Hfile as (items & [= <-] & _ & Hid & _).
    apply check_id_clean in Hid as (_ & Hfresh & _).
    apply Hfresh. rewrite <- Heq. now apply (Hids name1 items1). }
  split; [|split; [|split]].
  - intros ->. unfold collect in Hrun.
    assert (Hnone : sorted_files (∅ : gmap string value) = [])
      by (unfold sorted_files; now rewrite map_to_list_empty).
    rewrite Hnone in Hrun. discriminate Hrun.
  - rewrite Hprinted. do 3 f_equal. unfold sorted_files.
    now rewrite sort_files_perm, length_map_to_list.
  - intros name payload Hname.
    destruct (accepted_file dir name _ Hrun Hname) as (seen & seen' & Hfile & _).
    apply check_file_clean in Hfile as (items & -> & Hkeys & Hid & _).
    exists items. split; [reflexivity|]. split.
    + now apply check_keys_clean with name.
    + now apply check_id_clean in Hid as [Hid _].
  - intros name1 name2 items1 items2 H1 H2 Hne.
    destruct (total str_le name1 name2) as [Hle|Hle].
    + now apply (Hlater name1 name2).
    + intros Heq. symmetry in Heq. revert Heq. apply (Hlater name2 name1); auto.
Qed.

(** X13 -- The taxonomy of an accepted catalog: in every file the domain
    area, the level and the status are strings of the validator's
    enumerations; [sub_areas] is a list of strings, each a valid sub-area and
    each among the sub-areas its domain area allows (none when the domain
    defines none); [role_groups] is a list of strings that is not empty, each
    a valid role group. *)
Theorem accepted_taxonomy (dir : gmap string value) (o : outcome)
  (name : string) (items : list (string * value)) :
  main repr dir = Ok o -> returned o = 0%Z ->
  dir !! name = Some (VDict items) ->
  exists domain level status subs allowed groups,
    dict_get items "domain_area" VNone = VStr domain /\ domain ∈ VALID_DOMAINS
    /\ dict_get items "level" VNone = VStr level /\ level ∈ VALID_LEVELS
    /\ dict_get items "status" VNone = VStr status /\ status ∈ VALID_STATUS
    /\ dict_get items "sub_areas" VNone = VList (VStr <$> subs)
    /\ subs ⊆ VALID_SUB_AREAS
    /\ allowed_for (VStr domain) = Ok allowed /\ subs ⊆ allowed
    /\ dict_get items "role_groups" VNone = VList (VStr <$> groups)
    /\ groups <> [] /\ groups ⊆ VALID_ROLE_GROUPS.
Proof.
  intros Hmain Hzero Hname.
  destruct (accepted_checks dir o name items Hmain Hzero Hname)
    as (Hdomain & Hsubs & Hgroups & Hlevel & Hstatus & _).
  apply check_member_clean in Hdomain as (domain & Hdomain & Hd).
  apply check_member_clean in Hlevel as (level & Hlevel & Hl).
  apply check_member_clean in Hstatus as (status & Hstatus & Hs).
  apply check_sub_areas_clean in Hsubs as (subs & allowed & Hsubs & Hv & Ha & Hin).
  apply check_role_groups_clean in Hgroups as (groups & Hgroups & Hne & Hg).
  rewrite Hdomain in Ha.
  exists domain, level, status, subs, allowed, groups. auto 15.
Qed.

(** X14 -- The values of an accepted catalog: in every file [ai_focus] is a
    boolean, [introduced_year] an integer, [price_usd] an integer that is not
    negative; description, summary, price label and legacy tooltip are not
    blank; the price confidence is one of the two allowed; the URL starts
    with [http://] or [https://]; [last_updated] is a calendar date written
    [YYYY-MM-DD]; the tooltip contains the name, the code or the description;
    and the price is coherent with its label. *)
Theorem accepted_values (dir : gmap string value) (o : outcome)
  (name : string) (items : list (string * value)) :
  main repr dir = Ok o -> returned o = 0%Z ->
  dir !! name = Some (VDict items) ->
  let text := text_of repr items in
  exists price ymd,
    is_bool (dict_get items "ai_focus" VNone) = true
    /\ is_int (dict_get items "introduced_year" VNone) = true
    /\ is_int (dict_get items "price_usd" VNone) = true
    /\ py_int (dict_get items "price_usd" VNone) = Ok price /\ (0 <= price)%Z
    /\ text "description" <> "" /\ text "summary" <> ""
    /\ text "price_label" <> "" /\ text "tooltip_legacy" <> ""
    /\ py_str repr (dict_get items "price_confidence" (VStr ""))
       ∈ VALID_PRICE_CONFIDENCE
    /\ url_re_match (text "url") = true
    /\ iso_date_re_match (text "last_updated") = Some ymd
    /\ valid_calendar_date ymd = true
    /\ (contains (lower (text "name")) (lower (text "tooltip_legacy")) = true
        \/ contains (lower (text "cert_code")) (lower (text "tooltip_legacy")) = true
        \/ contains (lower (text "description")) (lower (text "tooltip_legacy")) = true)
    /\ (price = 0%Z ->
        (has_digit (text "price_label") || contains "$" (text "price_label")) = true ->
        has_marker (text "price_label") = true)
    /\ ((0 < price)%Z -> has_digit (text "price_label") = true)
    /\ (contains "free" (lower (text "price_label")) = true -> price = 0%Z).
Proof.
  intros Hmain Hzero Hname text.
  destruct (accepted_checks dir o name items Hmain Hzero Hname)
    as (_ & _ & _ & _ & _ & Htypes & Htexts & Htip & Hprice).
  apply check_types_clean in Htypes as (Hai & Hyear & Hint & price & Hp & Hnonneg).
  apply check_texts_clean in Htexts
    as (Hdesc & Hlabel & Hconf & Hurl & (ymd & Hdate & Hcal) & Hsum).
  apply check_tooltip_clean in Htip as (Htip & Hmatch).
  apply check_price_clean in Hprice as (price' & Hp' & H0 & Hpos & Hfree).
  assert (price' = price) as ->.
  { destruct (dict_get items "price_usd" VNone) eqn:Hget; try discriminate Hint.
    - assert (Hsame : dict_get items "price_usd" (VInt 0) = VBool b).
      { clear -Hget. induction items as [|[k v] items IH]; [discriminate|].
        simpl in *. destruct (String.eqb k "price_usd"); auto. }
      rewrite Hsame in Hp'. congruence.
    - assert (Hsame : dict_get items "price_usd" (VInt 0) = VInt n).
      { clear -Hget. induction items as [|[k v] items IH]; [discriminate|].
        simpl in *. destruct (String.eqb k "price_usd"); auto. }
      rewrite Hsame in Hp'. congruence. }
  assert (Hfilled : forall s, is_empty s = false -> s <> "")
    by (intros s He ->; discriminate He).
  exists price, ymd. fold text in Hdesc, Hlabel, Hurl, Hdate, Hsum, Htip, Hmatch, H0, Hpos, Hfree.
  repeat (split; [solve [auto]|]).
  split; [|auto].
  apply orb_true_iff in Hmatch as [Hmatch|Hmatch];
    [apply orb_true_iff in Hmatch as [Hmatch|Hmatch]|];
    apply andb_true_iff in Hmatch as [_ Hmatch]; auto.
Qed.

End Accepted.

End AcceptedFacts.

Module AcceptedWitnesses.
Import Validator ValidatorSpec AcceptedSpec AcceptedFacts.

Lemma sample_catalog_accepted : main (fun _ => "") sample_catalog = Ok sample_outcome.
Proof. vm_compute. reflexivity. Qed.

Lemma accepted_identity_witness :
  sample_catalog <> ∅
  /\ printed sample_outcome
     = [ "Catalog validation passed for " ++ dec_nat (size sample_catalog)
         ++ " file(s)." ]
  /\ (forall name payload, sample_catalog !! name = Some payload ->
        exists items,
          payload = VDict items
          /\ (forall key, key ∈ REQUIRED_KEYS -> has_key items key = true)
          /\ py_str (fun _ => "") (dict_get items "id" (VStr "")) = stem name)
  /\ (forall name1 name2 items1 items2,
        sample_catalog !! name1 = Some (VDict items1) ->
        sample_catalog !! name2 = Some (VDict items2) ->
        name1 <> name2 ->
        py_str (fun _ => "") (dict_get items1 "id" (VStr ""))
        <> py_str (fun _ => "") (dict_get items2 "id" (VStr ""))).
Proof.
  apply (accepted_identity (fun _ => "") sample_catalog sample_outcome).
  - vm_compute. reflexivity.
  - reflexivity.
Defined.

Lemma accepted_taxonomy_witness :
  exists domain level status subs allowed groups,
    dict_get (items_of free_record) "domain_area" VNone = VStr domain
    /\ domain ∈ VALID_DOMAINS
    /\ dict_get (items_of free_record) "level" VNone = VStr level
    /\ level ∈ VALID_LEVELS
    /\ dict_get (items_of free_record) "status" VNone = VStr status
    /\ status ∈ VALID_STATUS
    /\ dict_get (items_of free_record) "sub_areas" VNone = VList (VStr <$> subs)
    /\ subs ⊆ VALID_SUB_AREAS
    /\ allowed_for (VStr domain) = Ok allowed /\ subs ⊆ allowed
    /\ dict_get (items_of free_record) "role_groups" VNone = VList (VStr <$> groups)
    /\ groups <> [] /\ groups ⊆ VALID_ROLE_GROUPS.
Proof.
  apply (accepted_taxonomy (fun _ => "") sample_catalog sample_outcome
           "giac-goaa.yaml" (items_of free_record)).
  - vm_compute. reflexivity.
  - reflexivity.
  - vm_compute. reflexivity.
Defined.

Lemma accepted_values_witness :
  let text := text_of (fun _ => "") (items_of free_record) in
  exists price ymd,
    is_bool (dict_get (items_of free_record) "ai_focus" VNone) = true
    /\ is_int (dict_get (items_of free_record) "introduced_year" VNone) = true
    /\ is_int (dict_get (items_of free_record) "price_usd" VNone) = true
    /\ py_int (dict_get (items_of free_record) "price_usd" VNone) = Ok price
    /\ (0 <= price)%Z
    /\ text "description" <> "" /\ text "summary" <> ""
    /\ text "price_label" <> "" /\ text "tooltip_legacy" <> ""
    /\ py_str (fun _ => "")
         (dict_get (items_of free_record) "price_confidence" (VStr ""))
       ∈ VALID_PRICE_CONFIDENCE
    /\ url_re_match (text "url") = true
    /\ iso_date_re_match (text "last_updated") = Some ymd
    /\ valid_calendar_date ymd = true
    /\ (contains (lower (text "name")) (lower (text "tooltip_legacy")) = true
        \/ contains (lower (text "cert_code")) (lower (text "tooltip_legacy")) = true
        \/ contains (lower (text "description")) (lower (text "tooltip_legacy")) = true)
    /\ (price = 0%Z ->
        (has_digit (text "price_label") || contains "$" (text "price_label")) = true ->
        has_marker (text "price_label") = true)
    /\ ((0 < price)%Z -> has_digit (text "price_label") = true)
    /\ (contains "free" (lower (text "price_label")) = true -> price = 0%Z).
Proof.
  apply (accepted_values (fun _ => "") sample_catalog sample_outcome
           "giac-goaa.yaml" (items_of free_record)).
  - vm_compute. reflexivity.
  - reflexivity.
  - vm_compute. reflexivity.
Defined.

End AcceptedWitnesses.

(** ** The report of the validator, and the runs that get to their end *)

Module ReportFacts.
Import Validator ValidatorSpec ReportSpec ValidatorFacts.

#[local] Set Warnings "-clear-no-such-hyp".

Section Report.

Variable repr : value -> string.

(** *** Messages *)

Lemma logs_ret {A} (P : string -> Prop) (a : A) : logs P (mret a : check A).
Proof. intros b log [= <- <-]. constructor. Qed.

Lemma logs_fail (P : string -> Prop) (message : string) :
  P message -> logs P (fail message).
Proof. intros H u log [= <- <-]. now constructor. Qed.

Lemma logs_lift {A} (P : string -> Prop) (r : result A) : logs P (lift r).
Proof. destruct r; intros b log; [intros [= <- <-]; constructor | discriminate]. Qed.

Lemma logs_bind {A B} (P : string -> Prop) (m : check A) (k : A -> check B) :
  logs P m -> (forall a, logs P (k a)) -> logs P (m ≫= k).
Proof.
  intros Hm Hk b log H.
  apply bind_ok in H as (a & l1 & l2 & H1 & H2 & ->).
  apply Forall_app_2; [now apply (Hm a) | now apply (Hk a b)].
Qed.

Lemma logs_when (P : string -> Prop) (b : bool) (body : check unit) :
  logs P body -> logs P (when b body).
Proof. destruct b; [auto | intros _; apply logs_ret]. Qed.

Lemma logs_for_each {A} (P : string -> Prop) (xs : list A) (body : A -> check unit) :
  (forall x, logs P (body x)) -> logs P (for_each xs body).
Proof.
  intros Hbody. induction xs as [|x xs IH]; cbn [for_each].
  - apply logs_ret.
  - apply logs_bind; [apply Hbody | intros _; exact IH].
Qed.

Lemma logs_mono {A} (P Q : string -> Prop) (m : check A) :
  (forall message, P message -> Q message) -> logs P m -> logs Q m.
Proof.
  intros HPQ Hm a log H. apply (Forall_impl P); [now apply (Hm a) | exact HPQ].
Qed.

Lemma prefix_same_head (a b c : string) :
  String.prefix b c = true -> String.prefix (a ++ b) (a ++ c) = true.
Proof.
  intros H. induction a as [|x a IH]; [exact H|].
  change (String x a ++ b) with (String x (a ++ b)).
  change (String x a ++ c) with (String x (a ++ c)).
  cbn [String.prefix]. destruct (ascii_dec x x); [exact IH | congruence].
Qed.

Lemma names_file_intro (name rest : string) :
  String.prefix ": " rest = true -> names_file name (name ++ rest) = true.
Proof. intros H. unfold names_file. now apply prefix_same_head. Qed.

Local Ltac logs_step :=
  match goal with
  | |- logs _ (mret _) => apply logs_ret
  | |- logs _ (fail _) => apply logs_fail
  | |- logs _ (lift _) => apply logs_lift
  | |- logs _ (when _ _) => apply logs_when
  | |- logs _ (for_each _ _) => apply logs_for_each; intros ?
  | |- logs _ (_ ≫= _) => apply logs_bind; [|intros ?]
  | |- logs _ (if ?b then _ else _) => destruct b
  | |- logs _ (match ?x with _ => _ end) => destruct x
  | |- names_file ?n (?n ++ _) = true => apply names_file_intro; reflexivity
  end.

(** Every message of the loop body starts with the name of the file. *)
Lemma check_file_named (name : string) (payload : value) (seen : gset string) :
  logs (fun message => names_file name message = true)
       (check_file repr name payload seen).
Proof.
  unfold check_file, check_keys, check_id, check_member, check_sub_areas,
    check_role_groups, check_types, check_texts, check_tooltip, check_price,
    msg_price_zero, msg_price_no_digit, msg_price_free.
  cbv zeta. repeat logs_step.
Qed.

Lemma scan_named (files : list (string * value)) :
  forall seen,
    logs (fun message => exists name, name ∈ files.*1
                                      /\ names_file name message = true)
         (scan repr files seen).
Proof.
  induction files as [|[name payload] files IH]; intros seen; cbn [scan].
  - apply logs_ret.
  - apply logs_bind; [|intros seen1].
    + eapply logs_mono; [|apply check_file_named].
      intros message Hm. exists name. split; [apply elem_of_cons; now left | exact Hm].
    + eapply logs_mono; [|apply IH].
      intros message (n & Hn & Hm). exists n.
      split; [apply elem_of_cons; now right | exact Hm].
Qed.

Lemma sorted_files_empty {A} (dir : gmap string A) :
  sorted_files dir = [] <-> dir = ∅.
Proof.
  split.
  - intros H. apply map_to_list_empty_iff, Permutation_nil_r.
    rewrite <- H. unfold sorted_files. now rewrite sort_files_perm.
  - intros ->. unfold sorted_files. now rewrite map_to_list_empty.
Qed.

(** X15 -- The report of a rejected catalog.  When [main] returns another
    value than 0 it returns 1 and has printed the heading and one line per
    message, at least one; for an empty catalog the one message says that no
    file was found; otherwise every message starts with the name of a file of
    the catalog, followed by a colon. *)
Theorem report_names_files (dir : gmap string value) (o : outcome) :
  main repr dir = Ok o -> returned o <> 0%Z ->
  returned o = 1%Z
  /\ exists errors,
       errors <> []
       /\ printed o = "Catalog validation failed:"
                      :: map (fun message => "- " ++ message) errors
       /\ (dir = ∅ -> errors = ["No YAML files found in data/certifications"])
       /\ (dir <> ∅ ->
           Forall (fun message =>
                     exists name, is_Some (dir !! name)
                                  /\ names_file name message = true) errors).
Proof.
  unfold main. destruct (collect repr dir) as [[[] errors]|e] eqn:Hrun; [|discriminate].
  destruct errors as [|m errors]; cbn [nonempty]; intros [= <-]; cbn [returned printed];
    [congruence|]. intros _.
  split; [reflexivity|]. exists (m :: errors).
  split; [discriminate|]. split; [reflexivity|]. revert Hrun. unfold collect.
  destruct (sorted_files dir) as [|file files] eqn:Hfiles; cbn [nonempty negb when].
  - intros [= <- <-]. split; [reflexivity|].
    intros Hne. destruct Hne. now apply sorted_files_empty.
  - intros Hrun. split.
    + intros Hnone. apply sorted_files_empty in Hnone. congruence.
    + intros _. apply bind_ok in Hrun as ([] & l1 & l2 & [= <-] & Hscan & Hlog).
      rewrite Hlog. cbn [List.app].
      eapply Forall_impl; [apply (scan_named (file :: files) ∅ tt), Hscan|].
      intros message (name & Hname & Hm). exists name. split; [|exact Hm].
      rewrite <- Hfiles in Hname.
      apply list_elem_of_fmap in Hname as ([n payload] & -> & Hin).
      apply sorted_files_lookup in Hin. simpl. now rewrite Hin.
Qed.

(** *** Runs that get to their end *)

Lemma seq_ok {B} (m : check unit) (k : check B) :
  is_ok (m ≫= fun _ => k) = is_ok m && is_ok k.
Proof.
  destruct m as [[[] l]|e]; [|reflexivity].
  unfold mbind, check_bind. now destruct k as [[b l']|e].
Qed.

Lemma bind_is_ok {A B} (m : check A) (k : A -> check B) (a : A) (log : list string) :
  m = Ok (a, log) -> is_ok (m ≫= k) = is_ok (k a).
Proof. intros ->. unfold mbind, check_bind. now destruct (k a) as [[b l]|e]. Qed.

Lemma when_fail_ok (b : bool) (message : string) :
  is_ok (when b (fail message)) = true.
Proof. now destruct b. Qed.

Lemma member_ok (x : value) (S : list string) (message : string) :
  is_ok (ok ← lift (in_strings x S); when (negb ok) (fail message)) = hashable x.
Proof.
  unfold mbind, check_bind, lift, in_strings.
  destruct x; try reflexivity. now destruct (bool_decide _).
Qed.

Lemma for_each_ok (xs : list value) (S : list string) (msg : value -> string) :
  is_ok (for_each xs (fun x => ok ← lift (in_strings x S);
                               when (negb ok) (fail (msg x))))
  = forallb hashable xs.
Proof.
  induction xs as [|x xs IH]; cbn [for_each forallb]; [reflexivity|].
  rewrite seq_ok, IH. f_equal. apply (member_ok x S (msg x)).
Qed.

Lemma allowed_for_ok (domain : value) : is_ok (allowed_for domain) = hashable domain.
Proof. now destruct domain. Qed.

Lemma check_keys_ok (name : string) (items : list (string * value)) :
  is_ok (check_keys name items) = true.
Proof. unfold check_keys. apply when_fail_ok. Qed.

Lemma check_member_ok (name key : string) (allowed : list string)
  (items : list (string * value)) :
  is_ok (check_member repr name key allowed items)
  = hashable (dict_get items key VNone).
Proof. unfold check_member. apply member_ok. Qed.

Lemma check_sub_areas_ok (name : string) (items : list (string * value)) :
  is_ok (check_sub_areas repr name items)
  = match dict_get items "sub_areas" VNone with
    | VList sub_areas =>
        forallb hashable sub_areas
        && hashable (dict_get items "domain_area" VNone)
    | _ => true
    end.
Proof.
  unfold check_sub_areas.
  destruct (dict_get items "sub_areas" VNone) as [| | | | | |xs|]; try reflexivity.
  rewrite seq_ok.
  rewrite (for_each_ok xs VALID_SUB_AREAS
             (fun x => name ++ ": invalid sub_area '" ++ py_str repr x ++ "'")).
  destruct (forallb hashable xs) eqn:Hxs; [|reflexivity]. cbn [andb]. cbv zeta.
  rewrite <- allowed_for_ok.
  destruct (allowed_for (dict_get items "domain_area" VNone)) as [allowed|e];
    [|reflexivity].
  cbn [lift is_ok]. erewrite bind_is_ok by reflexivity.
  destruct (nonempty allowed).
  - rewrite (for_each_ok xs allowed
               (fun x => name ++ ": sub_area '" ++ py_str repr x
                         ++ "' is incompatible with domain_area '"
                         ++ py_str repr (dict_get items "domain_area" VNone) ++ "'")).
    exact Hxs.
  - apply when_fail_ok.
Qed.

Lemma check_role_groups_ok (name : string) (items : list (string * value)) :
  is_ok (check_role_groups repr name items)
  = match dict_get items "role_groups" VNone with
    | VList role_groups => forallb hashable role_groups
    | _ => true
    end.
Proof.
  unfold check_role_groups.
  destruct (dict_get items "role_groups" VNone) as [| | | | | |xs|]; try reflexivity.
  destruct xs as [|x xs]; [reflexivity|].
  apply (for_each_ok (x :: xs) VALID_ROLE_GROUPS
           (fun x => name ++ ": invalid role_group '" ++ py_str repr x ++ "'")).
Qed.

Lemma check_types_ok (name : string) (items : list (string * value)) :
  is_ok (check_types name items) = true.
Proof.
  unfold check_types. rewrite !seq_ok, !when_fail_ok. cbn [andb].
  destruct (dict_get items "price_usd" VNone) as [|b|n| | | | |]; try reflexivity.
  - cbn [is_int negb py_int lift]. erewrite bind_is_ok by reflexivity.
    apply when_fail_ok.
  - cbn [is_int negb py_int lift]. erewrite bind_is_ok by reflexivity.
    apply when_fail_ok.
Qed.

Lemma check_texts_ok (name : string) (items : list (string * value)) :
  is_ok (check_texts repr name items) = true.
Proof.
  unfold check_texts. cbv zeta. rewrite !seq_ok, !when_fail_ok. cbn [andb].
  destruct (iso_date_re_match _) as [ymd|]; [now rewrite when_fail_ok | reflexivity].
Qed.

Lemma check_tooltip_ok (name : string) (items : list (string * value)) :
  is_ok (check_tooltip repr name items) = true.
Proof.
  unfold check_tooltip. cbv zeta.
  destruct (is_empty _); [reflexivity | apply when_fail_ok].
Qed.

Lemma check_price_ok (name : string) (items : list (string * value)) :
  is_ok (check_price repr name items)
  = is_ok (py_int (dict_get items "price_usd" (VInt 0))).
Proof.
  destruct (py_int (dict_get items "price_usd" (VInt 0))) as [price|e] eqn:Hp.
  - now rewrite (price_log repr name items price Hp).
  - unfold check_price. now rewrite Hp.
Qed.

(** The loop body returns on a file exactly when the file is readable. *)
Lemma check_file_ok (name : string) (payload : value) (seen : gset string) :
  is_ok (check_file repr name payload seen) = readable payload.
Proof.
  destruct payload as [| | | | | | |items]; try reflexivity.
  unfold check_file, readable. rewrite seq_ok, check_keys_ok.
  destruct (check_id_run repr name items seen) as (log & Hid & _).
  rewrite (bind_is_ok _ _ _ _ Hid). rewrite !seq_ok.
  rewrite !check_member_ok, check_sub_areas_ok, check_role_groups_ok,
    check_types_ok, check_texts_ok, check_tooltip_ok, check_price_ok.
  cbn [is_ok mret check_ret].
  generalize (hashable (dict_get items "domain_area" VNone)) as domain.
  generalize (hashable (dict_get items "level" VNone)) as level.
  generalize (hashable (dict_get items "status" VNone)) as status.
  generalize (is_ok (py_int (dict_get items "price_usd" (VInt 0)))) as price.
  generalize (match dict_get items "role_groups" VNone with
              | VList role_groups => forallb hashable role_groups
              | _ => true
              end) as groups.
  intros groups price status level domain.
  destruct (dict_get items "sub_areas" VNone) as [| | | | | |xs|];
    try (now destruct groups, price, status, level, domain).
  now destruct (forallb hashable xs), groups, price, status, level, domain.
Qed.

Lemma scan_ok (files : list (string * value)) :
  forall seen,
    is_ok (scan repr files seen) = forallb (fun kv => readable kv.2) files.
Proof.
  induction files as [|[name payload] files IH]; intros seen; cbn [scan forallb snd];
    [reflexivity|].
  rewrite <- (check_file_ok name payload seen).
  destruct (check_file repr name payload seen) as [[seen1 log]|e] eqn:Hf;
    [|reflexivity].
  erewrite bind_is_ok by reflexivity. now rewrite IH.
Qed.

Lemma main_ok (dir : gmap string value) :
  is_ok (main repr dir) = forallb (fun kv => readable kv.2) (sorted_files dir).
Proof.
  rewrite <- (scan_ok (sorted_files dir) ∅).
  assert (Hc : is_ok (collect repr dir) = is_ok (scan repr (sorted_files dir) ∅)).
  { unfold collect. cbv zeta. now rewrite seq_ok, when_fail_ok. }
  rewrite <- Hc. unfold main.
  destruct (collect repr dir) as [[[] errors]|e]; [|reflexivity].
  now destruct (nonempty errors).
Qed.


End Report.

End ReportFacts.

Module ReportWitnesses.
Import Validator ValidatorSpec ReportSpec ReportFacts.

Lemma report_names_files_witness :
  returned rejected_outcome = 1%Z
  /\ exists errors,
       errors <> []
       /\ printed rejected_outcome
          = "Catalog validation failed:"
            :: map (fun message => "- " ++ message) errors
       /\ (rejected_catalog = ∅ ->
           errors = ["No YAML files found in data/certifications"])
       /\ (rejected_catalog <> ∅ ->
           Forall (fun message =>
                     exists name, is_Some (rejected_catalog !! name)
                                  /\ names_file name message = true) errors).
Proof.
  apply (report_names_files (fun _ => "") rejected_catalog rejected_outcome).
  - vm_compute. reflexivity.
  - discriminate.
Defined.

End ReportWitnesses.
